(** * ConnectedCewenBox: the host/device protocol engine

    A shallow embedding of the protocol code of the repository:

    - the host: the TypeScript codec [services/ProtocolService.ts] (CRC32,
      TLV codec, frame codec, response parsing) and the stream
      reassembler and request/response correlator of
      [services/CommunicationManager.ts];
    - the device: the firmware side, [protocol.c] (escaping, framing, TLV
      readers and writers), [command_handler.c] (dispatcher and command
      handlers), [communication.c] (error frames, receive processing) and
      the part of [device_control] the handlers call.

    The definitions come first, in the order of the source files; the
    lemmas and theorems about them follow.

    Bytes are integers in [0, 256) held in [list Z]; JavaScript strings are
    lists of UTF-16 code units; machine integers are [Z] with their
    wrap-around written out. *)

From stdpp Require Import gmap strings list.
From Stdlib Require Import ZArith Lia.

Open Scope Z_scope.
Set Warnings "-register-all".

(** ** Bytes, little-endian fields and string literals *)

Definition is_byte (b : Z) : Prop := 0 <= b < 256.
Definition is_bytes (l : list Z) : Prop := Forall is_byte l.

Definition len (l : list Z) : Z := Z.of_nat (length l).

(** [buf[i]]: [None] stands for JavaScript's [undefined] (host) and for a
    read outside the array (device). *)
Definition byte_at (buf : list Z) (i : Z) : option Z :=
  if i <? 0 then None else buf !! Z.to_nat i.

(** [buf.slice(a, b)] for [0 <= a]; the end is clamped to the length. *)
Definition slice (buf : list Z) (a b : Z) : list Z :=
  take (Z.to_nat (b - a)) (drop (Z.to_nat a) buf).

Definition le16 (v : Z) : list Z := [v mod 256; (v / 256) mod 256].
Definition le32 (v : Z) : list Z :=
  [v mod 256; (v / 256) mod 256; (v / 65536) mod 256; (v / 16777216) mod 256].
Definition le64 (v : Z) : list Z := le32 (v mod 2^32) ++ le32 ((v / 2^32) mod 2^32).

Fixpoint le_value (bs : list Z) : Z :=
  match bs with
  | [] => 0
  | b :: r => b + 256 * le_value r
  end.

(** The code units of an ASCII literal: [js "ping" = [112; 105; 110; 103]]. *)
Definition js (s : string) : list Z :=
  map (fun a => Z.of_N (Ascii.N_of_ascii a)) (String.list_ascii_of_string s).

Definition str_eqb (a b : list Z) : bool := bool_decide (a = b).

(** ** 32-bit operators of JavaScript *)

Definition ToInt32 (x : Z) : Z := (x + 2^31) mod 2^32 - 2^31.
Definition ToUint32 (x : Z) : Z := x mod 2^32.
(** [a << n], [a ^ b], [a & b] yield signed, [a >>> n] unsigned 32-bit values. *)
Definition js_shl (a n : Z) : Z := ToInt32 (ToInt32 a * 2^n).
Definition js_xor (a b : Z) : Z := Z.lxor (ToInt32 a) (ToInt32 b).
Definition js_and (a b : Z) : Z := Z.land (ToInt32 a) (ToInt32 b).
Definition js_ushr (a n : Z) : Z := ToUint32 a / 2^n.

(** ** IEEE-754 numbers

    A JavaScript number is modelled by its exact value: an integer, a
    non-integral dyadic rational [±m·2^e] in lowest terms ([m] odd,
    [e < 0]), an infinity or NaN.  The sign of zero is not tracked. *)

Inductive jsnumber :=
| NInt (n : Z)
| NFrac (neg : bool) (m : positive) (e : Z)
| NInf (neg : bool)
| NNaN.

Definition bitlen (m : Z) : Z := Z.log2 m + 1.

(** Round the non-negative integer [m] to [q] after dropping [k >= 0] low
    bits, to nearest, ties to even. *)
Definition round_shr (m k : Z) : Z :=
  let q := m / 2^k in
  let r := m mod 2^k in
  if (2 * r >? 2^k) || ((2 * r =? 2^k) && Z.odd q) then q + 1 else q.

(** Strip the trailing zero bits of [m] while the exponent stays negative. *)
Fixpoint lowest_terms (m : positive) (e : Z) : positive * Z :=
  match m with
  | xO m' => if e <? 0 then lowest_terms m' (e + 1) else (m, e)
  | _ => (m, e)
  end.

(** The number [±m·2^e] for [m > 0]. *)
Definition number_of_dyadic (neg : bool) (m : positive) (e : Z) : jsnumber :=
  let '(m', e') := lowest_terms m e in
  if e' <? 0 then NFrac neg m' e'
  else NInt ((if neg then -1 else 1) * (Zpos m' * 2^e')).

Definition sign_bit (neg : bool) : Z := if neg then 2^31 else 0.

(** binary32 pattern of the magnitude [m·2^e], rounded to nearest even. *)
Definition f32_bits_of_dyadic (neg : bool) (m : Z) (e : Z) : Z :=
  let e1 := Z.max (e + bitlen m - 24) (-149) in
  let q := if e1 <=? e then m * 2^(e - e1) else round_shr m (e1 - e) in
  let '(q, e1) := if q =? 2^24 then (2^23, e1 + 1) else (q, e1) in
  if q <? 2^23 then sign_bit neg + q
  else if 254 <? e1 + 150 then sign_bit neg + 255 * 2^23
  else sign_bit neg + (e1 + 150) * 2^23 + (q - 2^23).

(** [DataView.setFloat32]: the four bytes are [le32] of this pattern. *)
Definition f32_bits (x : jsnumber) : Z :=
  match x with
  | NInt 0 => 0
  | NInt n => f32_bits_of_dyadic (n <? 0) (Z.abs n) 0
  | NFrac neg m e => f32_bits_of_dyadic neg (Zpos m) e
  | NInf neg => sign_bit neg + 255 * 2^23
  | NNaN => 0x7FC00000
  end.

(** [DataView.getFloat32]: the number a binary32 pattern denotes. *)
Definition f32_number (bits : Z) : jsnumber :=
  let neg := 2^31 <=? bits in
  let ex := (bits / 2^23) mod 256 in
  let fr := bits mod 2^23 in
  if ex =? 255 then (if fr =? 0 then NInf neg else NNaN)
  else if ex =? 0 then
    match fr with
    | Zpos m => number_of_dyadic neg m (-149)
    | _ => NInt 0
    end
  else
    match 2^23 + fr with
    | Zpos m => number_of_dyadic neg m (ex - 150)
    | _ => NInt 0
    end.

(** [Number(b)] for a BigInt [0 <= b]: the nearest double, ties to even. *)
Definition number_of_bigint (b : Z) : Z :=
  let k := bitlen b - 53 in
  if k <=? 0 then b else
    let q := round_shr b k in q * 2^k.

(** ** UTF-8 ([TextEncoder] / [TextDecoder]) *)

Definition is_high_surrogate (c : Z) : bool := (0xD800 <=? c) && (c <? 0xDC00).
Definition is_low_surrogate (c : Z) : bool := (0xDC00 <=? c) && (c <? 0xE000).

Definition utf8_of_code_point (cp : Z) : list Z :=
  if cp <? 0x80 then [cp]
  else if cp <? 0x800 then [0xC0 + cp / 64; 0x80 + cp mod 64]
  else if cp <? 0x10000 then
    [0xE0 + cp / 4096; 0x80 + (cp / 64) mod 64; 0x80 + cp mod 64]
  else
    [0xF0 + cp / 262144; 0x80 + (cp / 4096) mod 64;
     0x80 + (cp / 64) mod 64; 0x80 + cp mod 64].

(** [new TextEncoder().encode(s)]: lone surrogates become U+FFFD. *)
Fixpoint TextEncoder_encode (s : list Z) : list Z :=
  match s with
  | [] => []
  | c :: r =>
    if is_high_surrogate c then
      match r with
      | d :: r' =>
        if is_low_surrogate d
        then utf8_of_code_point (0x10000 + (c - 0xD800) * 1024 + (d - 0xDC00))
               ++ TextEncoder_encode r'
        else utf8_of_code_point 0xFFFD ++ TextEncoder_encode r
      | [] => utf8_of_code_point 0xFFFD
      end
    else if is_low_surrogate c then utf8_of_code_point 0xFFFD ++ TextEncoder_encode r
    else utf8_of_code_point c ++ TextEncoder_encode r
  end.

(** The UTF-8 decoder of the Encoding standard, with replacement: [cp] is the
    code point under construction, [needed] the continuation bytes still
    expected, [lower..upper] the range allowed for the next byte. *)
Fixpoint utf8_decode (cp needed lower upper : Z) (bs : list Z) : list Z :=
  match bs with
  | [] => if needed =? 0 then [] else [0xFFFD]
  | b :: r =>
    let fresh :=
      if b <=? 0x7F then b :: utf8_decode 0 0 0x80 0xBF r
      else if (0xC2 <=? b) && (b <=? 0xDF) then utf8_decode (Z.land b 0x1F) 1 0x80 0xBF r
      else if (0xE0 <=? b) && (b <=? 0xEF) then
        utf8_decode (Z.land b 0xF) 2 (if b =? 0xE0 then 0xA0 else 0x80)
                    (if b =? 0xED then 0x9F else 0xBF) r
      else if (0xF0 <=? b) && (b <=? 0xF4) then
        utf8_decode (Z.land b 0x7) 3 (if b =? 0xF0 then 0x90 else 0x80)
                    (if b =? 0xF4 then 0x8F else 0xBF) r
      else 0xFFFD :: utf8_decode 0 0 0x80 0xBF r in
    if needed =? 0 then fresh
    else if (lower <=? b) && (b <=? upper) then
      let cp' := Z.lor (cp * 64) (Z.land b 0x3F) in
      if needed =? 1 then cp' :: utf8_decode 0 0 0x80 0xBF r
      else utf8_decode cp' (needed - 1) 0x80 0xBF r
    else 0xFFFD :: fresh
  end.

Definition utf16_of_code_point (cp : Z) : list Z :=
  if cp <? 0x10000 then [cp]
  else [0xD800 + (cp - 0x10000) / 1024; 0xDC00 + (cp - 0x10000) mod 1024].

(** [new TextDecoder().decode(bytes)]: a leading byte order mark is dropped. *)
Definition TextDecoder_decode (bytes : list Z) : list Z :=
  let bytes :=
    if bool_decide (take 3 bytes = [0xEF; 0xBB; 0xBF]) then drop 3 bytes else bytes in
  concat (map utf16_of_code_point (utf8_decode 0 0 0x80 0xBF bytes)).

(** * Host: [ProtocolService.ts] *)

(** ** Exceptions *)

Inductive error :=
| TagLengthError          (* 'TLV tag must be exactly 2 characters' *)
| UnsupportedValueType    (* 'Unsupported TLV value type' *)
| TLVHeaderTooShort       (* 'TLV data too short for header' *)
| TLVValueTooShort        (* 'TLV data too short for value' *)
| RangeError              (* a DataView access outside its buffer *)
| PacketTooShort          (* 'Packet too short' *)
| InvalidStartBytes       (* 'Invalid start bytes' *)
| PacketLengthMismatch    (* 'Packet length mismatch' *)
| CRC32Mismatch           (* 'CRC32 mismatch' *)
| InvalidEndBytes         (* 'Invalid end bytes' *)
| DeviceNotConnected      (* 'Device not connected' *)
| OutOfFuel.              (* the model's recursion bound was reached *)

Inductive result (A : Type) :=
| Ok (a : A)
| Throw (e : error).
Arguments Ok {A} a.
Arguments Throw {A} e.

#[global] Instance result_ret : MRet result := fun A a => Ok a.
#[global] Instance result_bind : MBind result := fun A B f m =>
  match m with
  | Ok a => f a
  | Throw e => Throw e
  end.

(** ** Protocol constants *)

Definition START_BYTES : list Z := [0xAA; 0x55].
Definition END_BYTES : list Z := [0x55; 0xAA].
Definition VERSION : Z := 0x02.
Definition HOST_REQUEST : Z := 0x00.
Definition HOST_RESPONSE : Z := 0x01.
Definition HOST_ERROR : Z := 0x0F.
Definition DEVICE_REQUEST : Z := 0x10.
Definition DEVICE_RESPONSE : Z := 0x11.
Definition DEVICE_ERROR : Z := 0x1F.
Definition STATUS_OK : Z := 0x00.
Definition STATUS_INVALID_PARAM : Z := 0x01.
Definition STATUS_NOT_INITIALIZED : Z := 0x02.
Definition STATUS_SENSOR_ERROR : Z := 0x03.
Definition STATUS_STORAGE_ERROR : Z := 0x04.
Definition STATUS_INTERNAL_ERROR : Z := 0xFF.
Definition ERROR_CODE_CORRUPT : Z := 0x01.
Definition ERROR_CODE_UNEXPECTED_RESP : Z := 0x02.
Definition ERROR_CODE_UNKNOWN : Z := 0xFF.
Definition MAX_PACKET_NUMBER : Z := 0x7F.

(** ** CRC32 (STM32 variant) *)

Definition polynomial : Z := 0x04C11DB7.

(** One round of the inner loop of [initCRC32Table]. *)
Definition table_round (crc : Z) : Z :=
  if negb (js_and crc 0x80000000 =? 0)
  then js_xor (js_shl crc 1) polynomial
  else js_shl crc 1.

(** [this.crc32Table[i]] as [initCRC32Table] fills it. *)
Definition table_entry (i : Z) : Z :=
  js_ushr (Nat.iter 8 table_round (js_shl i 24)) 0.

Definition crc32Table : list Z :=
  Eval vm_compute in map (fun i => table_entry (Z.of_nat i)) (seq 0 256).

(** One iteration of the loop of [calculateCRC32]. *)
Definition crc_update (crc b : Z) : Z :=
  let index := js_and (js_xor (js_ushr crc 24) b) 0xFF in
  js_ushr (js_xor (js_shl crc 8) (nth (Z.to_nat index) crc32Table 0)) 0.

(** The result of [crc ^ 0xFFFFFFFF] is a signed 32-bit number. *)
Definition calculateCRC32 (data : list Z) : Z :=
  js_xor (fold_left crc_update data 0xFFFFFFFF) 0xFFFFFFFF.

(** The CRC as the specification words it, on unsigned 32-bit words:
    polynomial 0x04C11DB7, most significant bit first, no reflection,
    initial value 0xFFFFFFFF, final XOR 0xFFFFFFFF. *)
Definition spec_crc_bit (crc : Z) : Z :=
  if Z.testbit crc 31
  then Z.lxor ((2 * crc) mod 2^32) 0x04C11DB7
  else (2 * crc) mod 2^32.

Definition spec_crc_byte (crc b : Z) : Z :=
  Nat.iter 8 spec_crc_bit (Z.lxor crc (b * 2^24)).

Definition spec_crc32 (data : list Z) : Z :=
  Z.lxor (fold_left spec_crc_byte data 0xFFFFFFFF) 0xFFFFFFFF.

(** ** TLV values *)

(** The values a TLV field carries: strings, numbers, arrays of
    [{tag, value}] objects, and [undefined]. *)
Inductive value :=
| VUndef
| VStr (s : list Z)
| VNum (x : jsnumber)
| VArr (items : list (list Z * value)).

Definition TLVField : Type := list Z * value.

Definition seq_bind {A} (f : A -> result (list Z)) : list A -> result (list Z) :=
  fix go l :=
    match l with
    | [] => Ok []
    | a :: r => b ← f a; bs ← go r; Ok (b ++ bs)
    end.

(** [encodeTLV(tag, value)]. *)
Fixpoint encodeTLV (tag : list Z) (v : value) : result (list Z) :=
  if negb (length tag =? 2)%nat then Throw TagLengthError else
  valueBytes ←
    match v with
    | VStr s => Ok (TextEncoder_encode s)
    | VNum (NInt n) =>
      if n <=? 0xFF then Ok [n mod 256]
      else if n <=? 0xFFFF then Ok (le16 n)
      else if n <=? 0xFFFFFFFF then Ok (le32 n)
      else Ok (le64 (n mod 2^64))
    | VNum x => Ok (le32 (f32_bits x))
    | VArr items =>
      (fix go (l : list (list Z * value)) : result (list Z) :=
         match l with
         | [] => Ok []
         | item :: r => b ← encodeTLV item.1 item.2; bs ← go r; Ok (b ++ bs)
         end) items
    | VUndef => Throw UnsupportedValueType
    end;
  Ok ([nth 0 tag 0 mod 256; nth 1 tag 0 mod 256] ++ le16 (len valueBytes) ++ valueBytes).

(** [DataView] reads at offset 0 of a freshly sliced value. *)
Definition getUint16 (bytes : list Z) (off : Z) : result Z :=
  if len bytes <? off + 2 then Throw RangeError
  else Ok (le_value (slice bytes off (off + 2))).
Definition getUint32 (bytes : list Z) (off : Z) : result Z :=
  if len bytes <? off + 4 then Throw RangeError
  else Ok (le_value (slice bytes off (off + 4))).
Definition getBigUint64 (bytes : list Z) (off : Z) : result Z :=
  if len bytes <? off + 8 then Throw RangeError
  else Ok (le_value (slice bytes off (off + 8))).
Definition getFloat32 (bytes : list Z) (off : Z) : result jsnumber :=
  b ← getUint32 bytes off; Ok (f32_number b).

Definition tag_in (tag : list Z) (cases : list string) : bool :=
  existsb (fun c => str_eqb tag (js c)) cases.

(** The loops [while (offset < length) { decodeTLV; push }] of [decodeTLV]
    (nested arrays) and of [decodePacket], over the decoder of the buffer
    at hand. *)
Fixpoint decode_loop (decode : Z -> result (TLVField * Z)) (n : nat)
    (length offset : Z) (acc : list TLVField) : result (list TLVField) :=
  match n with
  | O => Throw OutOfFuel
  | S n =>
    if offset <? length then
      r ← decode offset;
      decode_loop decode n length r.2 (acc ++ [r.1])
    else Ok acc
  end.

(** The [switch (tag)] of [decodeTLV]; [nested] is the outcome of the loop
    over the value bytes, used by the array tags only. *)
Definition decode_value (tag valueBytes : list Z) (nested : result (list TLVField))
  : result value :=
  if tag_in tag ["T "] then x ← getFloat32 valueBytes 0; Ok (VNum x)
  else if tag_in tag ["ST"; "EC"; "YY"; "MM"; "DD"; "WK"; "HH"; "SS"; "ID"] then
    Ok (match byte_at valueBytes 0 with
        | Some b => VNum (NInt b)
        | None => VUndef
        end)
  else if tag_in tag ["MX"] then x ← getUint16 valueBytes 0; Ok (VNum (NInt x))
  else if tag_in tag ["TS"; "T1"; "T2"] then
    x ← getBigUint64 valueBytes 0; Ok (VNum (NInt (number_of_bigint x)))
  else if tag_in tag ["L "; "H "] then x ← getFloat32 valueBytes 0; Ok (VNum x)
  else if tag_in tag ["IN"] then Ok (VStr (TextDecoder_decode valueBytes))
  else if tag_in tag ["ED"] then Ok (VStr (TextDecoder_decode valueBytes))
  else if tag_in tag ["DA"; "AL"; "LG"; "IT"] then items ← nested; Ok (VArr items)
  else Ok (VStr (TextDecoder_decode valueBytes)).

(** [decodeTLV(data, offset)]; [fuel] bounds the nesting depth and the number
    of fields of a nested array. *)
Fixpoint decodeTLV_fuel (fuel : nat) (data : list Z) (offset : Z)
  : result (TLVField * Z) :=
  match fuel with
  | O => Throw OutOfFuel
  | S fuel =>
    if len data <? offset + 4 then Throw TLVHeaderTooShort else
    let tag := slice data offset (offset + 2) in
    let length := le_value (slice data (offset + 2) (offset + 4)) in
    if len data <? offset + 4 + length then Throw TLVValueTooShort else
    let valueBytes := slice data (offset + 4) (offset + 4 + length) in
    v ← decode_value tag valueBytes
          (decode_loop (decodeTLV_fuel fuel valueBytes) (S fuel) (len valueBytes) 0 []);
    Ok ((tag, v), offset + 4 + length)
  end.

Definition decodeTLV (data : list Z) (offset : Z) : result (TLVField * Z) :=
  decodeTLV_fuel (S (length data)) data offset.

(** ** Frames *)

Record ProtocolPacket := {
  version : Z;
  type : Z;
  packetNumber : Z;
  responseNumber : Z;
  data : list TLVField;
}.

(** [getNextPacketNumber]: the new counter, which is also the number handed
    out. *)
Definition getNextPacketNumber (packetCounter : Z) : Z :=
  (packetCounter + 1) mod (MAX_PACKET_NUMBER + 1).

(** The bytes the CRC is computed over, in [encodePacket] and [decodePacket]. *)
Definition crcData (version type packetNumber responseNumber dataLength : Z)
    (dataBuffer : list Z) : list Z :=
  [version mod 256; type mod 256] ++ le16 packetNumber ++ le16 responseNumber
    ++ le16 dataLength ++ dataBuffer.

(** [encodePacket(type, data, responseNumber)] run with the counter at
    [packetCounter]: the frame (or the exception of [encodeTLV]) and the
    counter afterwards. *)
Definition encodePacket (packetCounter : Z) (type : Z) (data : list TLVField)
    (responseNumber : Z) : result (list Z) * Z :=
  let packetNumber := getNextPacketNumber packetCounter in
  (dataBuffer ← seq_bind (fun field : TLVField => encodeTLV field.1 field.2) data;
   let totalDataLength := len dataBuffer in
   let crc32 :=
     calculateCRC32 (crcData VERSION type packetNumber responseNumber
                             totalDataLength dataBuffer) in
   Ok (START_BYTES ++ [VERSION; type mod 256] ++ le16 packetNumber
         ++ le16 responseNumber ++ le16 totalDataLength ++ dataBuffer
         ++ le32 (ToUint32 crc32) ++ END_BYTES),
   packetNumber).

(** [decodePacket(buffer)]. *)
Definition decodePacket (buffer : list Z) : result ProtocolPacket :=
  if len buffer <? 16 then Throw PacketTooShort else
  if negb (bool_decide (slice buffer 0 2 = START_BYTES)) then Throw InvalidStartBytes else
  let version := nth 2 buffer 0 in
  let type := nth 3 buffer 0 in
  packetNumber ← getUint16 buffer 4;
  responseNumber ← getUint16 buffer 6;
  dataLength ← getUint16 buffer 8;
  let pos := 10 in
  if len buffer <? pos + dataLength + 4 + 2 then Throw PacketLengthMismatch else
  let dataBuffer := slice buffer pos (pos + dataLength) in
  data ← decode_loop (decodeTLV dataBuffer) (S (length dataBuffer)) (len dataBuffer) 0 [];
  let pos := pos + dataLength in
  receivedCRC ← getUint32 buffer pos;
  let pos := pos + 4 in
  let calculatedCRC :=
    calculateCRC32 (crcData version type packetNumber responseNumber dataLength
                            dataBuffer) in
  if negb (calculatedCRC =? receivedCRC) then Throw CRC32Mismatch else
  if negb (bool_decide (slice buffer pos (pos + 2) = END_BYTES)) then Throw InvalidEndBytes else
  Ok {| version := version; type := type; packetNumber := packetNumber;
        responseNumber := responseNumber; data := data |}.

(** [createPingRequest()] and its siblings without arguments. *)
Definition createRequest (packetCounter : Z) (command : string)
    (params : list TLVField) : result (list Z) * Z :=
  encodePacket packetCounter HOST_REQUEST
    [(js "IN", VStr (js command)); (js "DA", VArr params)] 0.

Definition createPingRequest (packetCounter : Z) : result (list Z) * Z :=
  createRequest packetCounter "ping" [].
Definition createGetTempRequest (packetCounter : Z) : result (list Z) * Z :=
  createRequest packetCounter "temp" [].
Definition createGetLogRequest (packetCounter : Z) (startTimestamp endTimestamp : Z)
    (maxCount : option Z) : result (list Z) * Z :=
  createRequest packetCounter "glog"
    ([(js "T1", VNum (NInt startTimestamp)); (js "T2", VNum (NInt endTimestamp))]
       ++ match maxCount with
          | Some n => [(js "MX", VNum (NInt n))]
          | None => []
          end).

(** [data.find(field => field.tag === tag)?.value]. *)
Definition find_value (fields : list TLVField) (tag : string) : value :=
  match List.find (fun f : TLVField => str_eqb f.1 (js tag)) fields with
  | Some f => f.2
  | None => VUndef
  end.

(** JavaScript truthiness of a field value. *)
Definition truthy (v : value) : bool :=
  match v with
  | VUndef => false
  | VStr s => negb (bool_decide (s = []))
  | VNum (NInt n) => negb (n =? 0)
  | VNum NNaN => false
  | VNum _ => true
  | VArr _ => true
  end.

(** [v === n] for a number literal [n]. *)
Definition strict_eq_num (v : value) (n : Z) : bool :=
  match v with
  | VNum (NInt m) => m =? n
  | _ => false
  end.

(** The part of [ParsedResponse] the reassembler and the correlator look at;
    the per-command reshaping of the [DA] content into [data] is left out. *)
Record ParsedResponse := {
  success : bool;
  command : value;
  status : value;
  error_code : option value;
}.

(** [parseResponse(buffer)]. *)
Definition parseResponse (buffer : list Z) : ParsedResponse :=
  match decodePacket buffer with
  | Throw _ =>
    {| success := false; command := VUndef; status := VUndef;
       error_code := Some (VNum (NInt ERROR_CODE_CORRUPT)) |}
  | Ok packet =>
    if type packet =? DEVICE_ERROR then
      let errorCode := find_value (data packet) "EC" in
      {| success := false; command := VUndef; status := VUndef;
         error_code := Some (if truthy errorCode then errorCode
                             else VNum (NInt ERROR_CODE_UNKNOWN)) |}
    else
      let command := find_value (data packet) "IN" in
      let status := find_value (data packet) "ST" in
      if negb (strict_eq_num status STATUS_OK) then
        {| success := false; command := command; status := status;
           error_code := Some (if truthy status then status
                               else VNum (NInt STATUS_INTERNAL_ERROR)) |}
      else
        {| success := true; command := command; status := status;
           error_code := None |}
  end.

(** * Host: [CommunicationManager.ts] *)

(** How the promise returned by [sendRequest] can end. *)
Inductive rejection :=
| RequestTimeout (command : list Z)   (* 'Request timeout for command: …' *)
| SendFailed                          (* 'Failed to send request: …' *)
| Disconnected.                       (* 'Device disconnected' *)

Inductive settlement :=
| Unsettled
| Resolved (response : ParsedResponse)
| Rejected (reason : rejection).

(** An entry of [pendingRequests]: [resolve] and [reject] are the two
    capabilities of promise [pr_promise], [timeout] is a timer id. *)
Record PendingRequest := {
  pr_promise : nat;
  pr_timeout : nat;
  pr_command : list Z;
}.

(** The manager, the promises it has handed out and the timers it has armed.
    [device] is [None] for [null] and otherwise holds what [isConnected()]
    answers; [written] and [handled] record the calls of [device.write] and
    of [handleParsedResponse]. *)
Record Manager := {
  packetCounter : Z;
  device : option bool;
  responseBuffer : list Z;
  pendingRequests : gmap (list Z) PendingRequest;
  promises : gmap nat settlement;
  timers : gmap nat (list Z * nat);
  next_id : nat;
  written : list (list Z);
  handled : list ParsedResponse;
}.

Definition new_manager (connected : option bool) : Manager :=
  {| packetCounter := 0; device := connected; responseBuffer := [];
     pendingRequests := ∅; promises := ∅; timers := ∅; next_id := 0;
     written := []; handled := [] |}.

Definition set_responseBuffer (m : Manager) (buf : list Z) : Manager :=
  {| packetCounter := packetCounter m; device := device m; responseBuffer := buf;
     pendingRequests := pendingRequests m; promises := promises m;
     timers := timers m; next_id := next_id m; written := written m;
     handled := handled m |}.

Definition set_tables (m : Manager) (pending : gmap (list Z) PendingRequest)
    (ps : gmap nat settlement) (ts : gmap nat (list Z * nat)) : Manager :=
  {| packetCounter := packetCounter m; device := device m;
     responseBuffer := responseBuffer m;
     pendingRequests := pending; promises := ps; timers := ts;
     next_id := next_id m; written := written m; handled := handled m |}.

(** Settling a promise a second time has no effect. *)
Definition settle (ps : gmap nat settlement) (p : nat) (s : settlement)
  : gmap nat settlement :=
  match ps !! p with
  | Some Unsettled => <[p := s]> ps
  | _ => ps
  end.

(** [sendRequest(requestData, command, timeoutMs)] up to the point where the
    promise is returned: the new promise is [next_id m], its timer has the
    same id. *)
Definition sendRequest (m : Manager) (requestData : list Z) (command : list Z)
  : Manager * result nat :=
  match device m with
  | None => (m, Throw DeviceNotConnected)
  | Some false => (m, Throw DeviceNotConnected)
  | Some true =>
    let id := next_id m in
    ({| packetCounter := packetCounter m; device := device m;
        responseBuffer := responseBuffer m;
        pendingRequests :=
          <[command := {| pr_promise := id; pr_timeout := id; pr_command := command |}]>
            (pendingRequests m);
        promises := <[id := Unsettled]> (promises m);
        timers := <[id := (command, id)]> (timers m);
        next_id := S id;
        written := written m ++ [requestData];
        handled := handled m |},
     Ok id)
  end.

(** The callback given to [setTimeout] by the request with timer [t]. *)
Definition timer_fired (m : Manager) (t : nat) : Manager :=
  match timers m !! t with
  | None => m
  | Some (command, p) =>
    set_tables m (delete command (pendingRequests m))
               (settle (promises m) p (Rejected (RequestTimeout command)))
               (delete t (timers m))
  end.

(** The [catch] callback of [device.write] for the request [(t, command, p)]. *)
Definition write_failed (m : Manager) (t : nat) (command : list Z) (p : nat) : Manager :=
  set_tables m (delete command (pendingRequests m))
             (settle (promises m) p (Rejected SendFailed))
             (delete t (timers m)).

(** [response.command || "unknown"], as a key of [pendingRequests]. *)
Definition requestKey (response : ParsedResponse) : option (list Z) :=
  match command response with
  | VStr s => Some (if truthy (VStr s) then s else js "unknown")
  | v => if truthy v then None else Some (js "unknown")
  end.

(** [handleParsedResponse(response)]. *)
Definition handleParsedResponse (m : Manager) (response : ParsedResponse) : Manager :=
  let m :=
    {| packetCounter := packetCounter m; device := device m;
       responseBuffer := responseBuffer m; pendingRequests := pendingRequests m;
       promises := promises m; timers := timers m; next_id := next_id m;
       written := written m; handled := handled m ++ [response] |} in
  match requestKey response with
  | Some key =>
    match pendingRequests m !! key with
    | Some pendingRequest =>
      set_tables m (delete key (pendingRequests m))
                 (settle (promises m) (pr_promise pendingRequest) (Resolved response))
                 (delete (pr_timeout pendingRequest) (timers m))
    | None => m
    end
  | None => m
  end.

(** [clearPendingRequests()]. *)
Definition clearPendingRequests (m : Manager) : Manager :=
  set_tables m ∅
    (map_fold (fun _ pr ps => settle ps (pr_promise pr) (Rejected Disconnected))
              (promises m) (pendingRequests m))
    (map_fold (fun _ pr ts => delete (pr_timeout pr) ts)
              (timers m) (pendingRequests m)).

(** The [finally] block of [disconnectDevice()]. *)
Definition disconnectDevice (m : Manager) : Manager :=
  match device m with
  | None => m
  | Some _ =>
    let m := clearPendingRequests m in
    {| packetCounter := packetCounter m; device := None; responseBuffer := [];
       pendingRequests := pendingRequests m; promises := promises m;
       timers := timers m; next_id := next_id m; written := written m;
       handled := handled m |}
  end.

(** The scan for the start marker: the first [i] with [buf[i] = 0xAA] and
    [buf[i+1] = 0x55], counted from [i]. *)
Fixpoint find_start (buf : list Z) (i : Z) : option Z :=
  match buf with
  | a :: (b :: _) as r =>
    if (a =? 0xAA) && (b =? 0x55) then Some i else find_start r (i + 1)
  | _ => None
  end.

(** [tryParsePackets()]: nothing in the [try] block throws ([parseResponse]
    catches its own exceptions), so the [catch] branch is not modelled. *)
Fixpoint tryParsePackets_fuel (fuel : nat) (m : Manager) : Manager :=
  match fuel with
  | O => m
  | S fuel =>
    if len (responseBuffer m) <? 16 then m else
    match find_start (responseBuffer m) 0 with
    | None => set_responseBuffer m []
    | Some startIndex =>
      let m :=
        if 0 <? startIndex
        then set_responseBuffer m (drop (Z.to_nat startIndex) (responseBuffer m))
        else m in
      if len (responseBuffer m) <? 16 then m else
      let dataLength := le_value (slice (responseBuffer m) 10 12) in
      let totalPacketLength := 16 + dataLength in
      if len (responseBuffer m) <? totalPacketLength then m else
      let packetBuffer := slice (responseBuffer m) 0 totalPacketLength in
      let m := set_responseBuffer m (drop (Z.to_nat totalPacketLength) (responseBuffer m)) in
      let response := parseResponse packetBuffer in
      tryParsePackets_fuel fuel (handleParsedResponse m response)
    end
  end.

Definition tryParsePackets (m : Manager) : Manager :=
  tryParsePackets_fuel (S (length (responseBuffer m))) m.

(** [handleReceivedData(data)]. *)
Definition handleReceivedData (m : Manager) (data : list Z) : Manager :=
  tryParsePackets (set_responseBuffer m (responseBuffer m ++ data)).

(** [ping()] up to the returned promise: build the frame, bump the counter,
    send. *)
Definition send_command (m : Manager) (command : string) (params : list TLVField)
  : Manager * result nat :=
  let '(frame, counter) := createRequest (packetCounter m) command params in
  let m :=
    {| packetCounter := counter; device := device m;
       responseBuffer := responseBuffer m; pendingRequests := pendingRequests m;
       promises := promises m; timers := timers m; next_id := next_id m;
       written := written m; handled := handled m |} in
  match frame with
  | Ok requestData => sendRequest m requestData (js command)
  | Throw e => (m, Throw e)
  end.

(** * Device: [protocol.h], [protocol.c] *)

Definition PROTOCOL_VERSION : Z := 0x02.
Definition PKT_TYPE_HOST_REQUEST : Z := 0x00.
Definition PKT_TYPE_SLAVE_RESPONSE : Z := 0x11.
Definition PKT_TYPE_SLAVE_ERROR : Z := 0x1F.
Definition START_MARK_1 : Z := 0xAA.
Definition START_MARK_2 : Z := 0x55.
Definition END_MARK_1 : Z := 0x55.
Definition END_MARK_2 : Z := 0xAA.
Definition ESCAPE_BYTE : Z := 0x00.
Definition MAX_PACKET_SIZE : Z := 512.
Definition MAX_DATA_SIZE : Z := MAX_PACKET_SIZE - 16.
Definition MAX_ALARMS : Z := 2.
Definition MAX_LOG_ENTRIES : Z := 100.

(** The two bytes [memcpy(buffer, tag, 2)] and [memcmp(…, tag, 2)] take from
    a tag literal: a one-character literal contributes its terminator. *)
Definition tag2 (tag : string) : list Z := take 2 (js tag ++ [0; 0]).

Definition TAG_INSTRUCTION := "IN"%string.
Definition TAG_DATA := "DA"%string.
Definition TAG_STATUS := "ST"%string.
Definition TAG_ERROR_CODE := "EC"%string.
Definition TAG_ERROR_DESC := "ED"%string.
Definition TAG_TEMPERATURE := "T "%string.
Definition TAG_YEAR := "YY"%string.
Definition TAG_MONTH := "MM"%string.
Definition TAG_DAY := "DD"%string.
Definition TAG_WEEKDAY := "WK"%string.
Definition TAG_HOUR := "HH"%string.
Definition TAG_MINUTE := "MM"%string.
Definition TAG_SECOND := "SS"%string.
Definition TAG_ALARM_LIST := "AL"%string.
Definition TAG_ALARM_ITEM := "IT"%string.
Definition TAG_ALARM_ID := "ID"%string.
Definition TAG_ALARM_LOW := "L"%string.
Definition TAG_ALARM_HIGH := "H"%string.
Definition TAG_LOG_LIST := "LG"%string.
Definition TAG_TIMESTAMP := "TS"%string.
Definition TAG_TIME_START := "T1"%string.
Definition TAG_TIME_END := "T2"%string.
Definition TAG_MAX_COUNT := "MX"%string.

Record PacketHeader := {
  h_version : Z;
  h_type : Z;
  h_packet_id : Z;
  h_response_id : Z;
  h_data_length : Z;
}.

(** The packed, little-endian image of a header, and its inverse on eight
    bytes ([memcpy] to and from [PacketHeader]). *)
Definition header_bytes (h : PacketHeader) : list Z :=
  [h_version h mod 256; h_type h mod 256] ++ le16 (h_packet_id h)
    ++ le16 (h_response_id h) ++ le16 (h_data_length h).

Definition header_of_bytes (bs : list Z) : PacketHeader :=
  {| h_version := nth 0 bs 0; h_type := nth 1 bs 0;
     h_packet_id := le_value (slice bs 2 4);
     h_response_id := le_value (slice bs 4 6);
     h_data_length := le_value (slice bs 6 8) |}.

(** What the firmware takes from the hardware and the HAL. *)
Record Hardware := {
  (** [None]: [hcrc.Instance == NULL]; otherwise [HAL_CRC_Calculate] as a
      function of the 32-bit words it is given. *)
  hcrc : option (list Z -> Z);
  (** The bytes found in stack buffers before they are written. *)
  stack_garbage : list Z;
  (** [DS18B20_Check() == 0]. *)
  sensor_ok : bool;
  (** The binary32 pattern [temperature_get_current()] returns. *)
  current_temperature : Z;
  (** [hrtc.Instance != NULL]. *)
  hrtc_ready : bool;
  (** [HAL_RTC_GetDate] and [HAL_RTC_GetTime]: [None] unless [HAL_OK]. *)
  hal_date : option (Z * Z * Z * Z);
  hal_time : option (Z * Z * Z);
  (** [HAL_RTC_SetDate] and [HAL_RTC_SetTime] answer [HAL_OK]. *)
  hal_set_ok : bool;
  (** [HAL_GetTick()]. *)
  hal_tick : Z;
}.

(** The 32-bit words at the start of [mem], little-endian. *)
Fixpoint words_of (n : nat) (mem : list Z) : list Z :=
  match n with
  | O => []
  | S n => le_value (take 4 mem) :: words_of n (drop 4 mem)
  end.

(** [calculate_crc32(data, length)], where [mem] is the memory at [data]:
    the hardware path reads [(length + 3) / 4] whole words. *)
Definition calculate_crc32 (hw : Hardware) (mem : list Z) (length : Z) : Z :=
  match hcrc hw with
  | None => fold_left (fun sum b => (sum + b) mod 2^32) (take (Z.to_nat length) mem) 0
  | Some HAL_CRC_Calculate =>
    HAL_CRC_Calculate (words_of (Z.to_nat ((length + 3) / 4)) mem)
  end.

(** [escape_data]: [out] is what has been written so far; [None] is the
    return value -1. *)
Fixpoint escape_data_from (input out : list Z) (output_size : Z) : option (list Z) :=
  match input with
  | [] => Some out
  | byte :: rest =>
    if len out <? output_size then
      if (byte =? 0xAA) || (byte =? 0x55) then
        if output_size <=? len out + 1 then None
        else escape_data_from rest (out ++ [byte; ESCAPE_BYTE]) output_size
      else escape_data_from rest (out ++ [byte]) output_size
    else Some out
  end.

Definition escape_data (input : list Z) (output_size : Z) : option (list Z) :=
  escape_data_from input [] output_size.

(** [unescape_data]. *)
Fixpoint unescape_data_from (input out : list Z) (output_size : Z) : option (list Z) :=
  match input with
  | [] => Some out
  | byte :: rest =>
    if len out <? output_size then
      match rest with
      | next :: rest' =>
        if ((byte =? 0xAA) || (byte =? 0x55)) && (next =? ESCAPE_BYTE)
        then unescape_data_from rest' (out ++ [byte]) output_size
        else if ((byte =? 0xAA) && (next =? 0x55)) || ((byte =? 0x55) && (next =? 0xAA))
        then None
        else unescape_data_from rest (out ++ [byte]) output_size
      | [] => Some (out ++ [byte])
      end
    else Some out
  end.

Definition unescape_data (input : list Z) (output_size : Z) : option (list Z) :=
  unescape_data_from input [] output_size.

(** The stuffing as the specification words it: every 0xAA or 0x55 is
    followed by 0x00, every other byte is passed through. *)
Definition spec_escape (b : list Z) : list Z :=
  concat (map (fun x => if (x =? 0xAA) || (x =? 0x55) then [x; 0x00] else [x]) b).

(** An unescaped marker pair at some position of [l]. *)
Fixpoint has_marker_pair (l : list Z) : bool :=
  match l with
  | a :: (b :: _) as r =>
    ((a =? 0xAA) && (b =? 0x55)) || ((a =? 0x55) && (b =? 0xAA)) || has_marker_pair r
  | _ => false
  end.

(** [find_packet_boundaries]: the loop from index [i], with [start] the
    start position once found.  [buffer_len - 1] is computed on [size_t]. *)
Fixpoint find_packet_boundaries_from (fuel : nat) (buffer : list Z) (i : Z)
    (start : option Z) : option (Z * Z) :=
  match fuel with
  | O => None
  | S fuel =>
    if i <? (len buffer - 1) mod 2^32 then
      let b0 := nth (Z.to_nat i) buffer 0 in
      let b1 := nth (Z.to_nat (i + 1)) buffer 0 in
      match start with
      | None =>
        if (b0 =? START_MARK_1) && (b1 =? START_MARK_2)
        then find_packet_boundaries_from fuel buffer (i + 2) (Some (i + 2))
        else find_packet_boundaries_from fuel buffer (i + 1) start
      | Some start_pos =>
        if (b0 =? END_MARK_1) && (b1 =? END_MARK_2) then
          let is_escaped :=
            (0 <? i) && (nth (Z.to_nat (i - 1)) buffer 0 =? ESCAPE_BYTE)
            && (1 <? i) && (nth (Z.to_nat (i - 2)) buffer 0 =? 0x55) in
          if negb is_escaped then Some (start_pos, i)
          else find_packet_boundaries_from fuel buffer (i + 1) start
        else find_packet_boundaries_from fuel buffer (i + 1) start
      end
    else None
  end.

Definition find_packet_boundaries (buffer : list Z) : option (Z * Z) :=
  find_packet_boundaries_from (length buffer) buffer 0 None.

(** [build_packet]: [None] is the return value -1. *)
Definition build_packet (hw : Hardware) (type packet_id response_id : Z)
    (data : list Z) (output_size : Z) : option (list Z) :=
  let data_len := len data in
  if output_size <? 16 + data_len * 2 then None else
  let header :=
    {| h_version := PROTOCOL_VERSION; h_type := type; h_packet_id := packet_id;
       h_response_id := response_id; h_data_length := data_len |} in
  let temp_buffer := header_bytes header ++ data in
  let temp_pos := len temp_buffer in
  let crc := calculate_crc32 hw (temp_buffer ++ stack_garbage hw) temp_pos in
  let temp_buffer := temp_buffer ++ le32 crc in
  match escape_data temp_buffer (output_size - 2 - 2) with
  | None => None
  | Some escaped =>
    let pos := 2 + len escaped in
    if output_size <? pos + 2 then None
    else Some ([START_MARK_1; START_MARK_2] ++ escaped ++ [END_MARK_1; END_MARK_2])
  end.

(** [parse_packet]: the data (or [None] for -1) and the header variable
    afterwards, which starts as [header0]. *)
Definition parse_packet (hw : Hardware) (buffer : list Z) (header0 : PacketHeader)
    (data_size : Z) : option (list Z) * PacketHeader :=
  match find_packet_boundaries buffer with
  | None => (None, header0)
  | Some (start_pos, end_pos) =>
    match unescape_data (slice buffer start_pos end_pos) MAX_PACKET_SIZE with
    | None => (None, header0)
    | Some temp_buffer =>
      let unescaped_len := len temp_buffer in
      if unescaped_len <? 8 + 4 then (None, header0) else
      let header := header_of_bytes temp_buffer in
      if negb (h_version header =? PROTOCOL_VERSION) then (None, header) else
      let expected_len := 8 + h_data_length header + 4 in
      if negb (unescaped_len =? expected_len) then (None, header) else
      let received_crc := le_value (slice temp_buffer (unescaped_len - 4) unescaped_len) in
      let calculated_crc := calculate_crc32 hw temp_buffer (unescaped_len - 4) in
      if negb (received_crc =? calculated_crc) then (None, header) else
      if (0 <? h_data_length header) && (data_size <? h_data_length header)
      then (None, header)
      else (Some (slice temp_buffer 8 (8 + h_data_length header)), header)
    end
  end.

(** ** TLV writers: the bytes written, [None] for the return value -1 *)

Definition write_tlv_uint8 (buffer_size : Z) (tag : string) (value : Z) : option (list Z) :=
  if buffer_size <? 5 then None
  else Some (tag2 tag ++ le16 1 ++ [value mod 256]).

Definition write_tlv_uint16 (buffer_size : Z) (tag : string) (value : Z) : option (list Z) :=
  if buffer_size <? 6 then None
  else Some (tag2 tag ++ le16 2 ++ le16 value).

Definition write_tlv_uint64 (buffer_size : Z) (tag : string) (value : Z) : option (list Z) :=
  if buffer_size <? 12 then None
  else Some (tag2 tag ++ le16 8 ++ le64 value).

(** [value] is the binary32 pattern of the [float]. *)
Definition write_tlv_float32 (buffer_size : Z) (tag : string) (value : Z) : option (list Z) :=
  if buffer_size <? 8 then None
  else Some (tag2 tag ++ le16 4 ++ le32 value).

(** The characters of a C string held in [bytes]: up to the first NUL. *)
Fixpoint c_string (bytes : list Z) : list Z :=
  match bytes with
  | [] => []
  | b :: r => if b =? 0 then [] else b :: c_string r
  end.

Definition write_tlv_string (buffer_size : Z) (tag : string) (str : list Z) : option (list Z) :=
  let str_len := len (c_string str) mod 2^16 in
  if buffer_size <? 4 + str_len then None
  else Some (tag2 tag ++ le16 str_len ++ take (Z.to_nat str_len) (c_string str)).

Definition write_tlv_raw (buffer_size : Z) (tag : string) (data : list Z) : option (list Z) :=
  if buffer_size <? 4 + len data then None
  else Some (tag2 tag ++ le16 (len data) ++ data).

(** ** TLV readers *)

(** [Missing] is the return value -1.  For [buffer_size < 4] the loop bound
    [buffer_size - 4] wraps around on [size_t] and the scan leaves the
    buffer: the behaviour is undefined, [Overrun]. *)
Inductive scan (A : Type) :=
| Found (a : A)
| Missing
| Overrun.
Arguments Found {A} a.
Arguments Missing {A}.
Arguments Overrun {A}.

(** The loop shared by the six readers, from index [i]: a field matches when
    its tag is [tag], its length passes [accept] and its value lies inside
    the buffer; the value bytes are returned. *)
Fixpoint read_tlv_from (fuel : nat) (accept : Z -> bool) (buffer : list Z)
    (tag : string) (i : Z) : scan (list Z) :=
  match fuel with
  | O => Missing
  | S fuel =>
    if i <? len buffer - 4 then
      let length := le_value (slice buffer (i + 2) (i + 4)) in
      if bool_decide (slice buffer i (i + 2) = tag2 tag) && accept length
         && (i + 4 + length <=? len buffer)
      then Found (slice buffer (i + 4) (i + 4 + length))
      else read_tlv_from fuel accept buffer tag (i + 4 + length)
    else Missing
  end.

Definition read_tlv (accept : Z -> bool) (buffer : list Z) (tag : string)
  : scan (list Z) :=
  if len buffer <? 4 then Overrun
  else read_tlv_from (length buffer) accept buffer tag 0.

Definition scan_map {A B} (f : A -> B) (s : scan A) : scan B :=
  match s with
  | Found a => Found (f a)
  | Missing => Missing
  | Overrun => Overrun
  end.

Definition read_tlv_uint8 (buffer : list Z) (tag : string) : scan Z :=
  scan_map le_value (read_tlv (fun length => length =? 1) buffer tag).
Definition read_tlv_uint16 (buffer : list Z) (tag : string) : scan Z :=
  scan_map le_value (read_tlv (fun length => length =? 2) buffer tag).
Definition read_tlv_uint64 (buffer : list Z) (tag : string) : scan Z :=
  scan_map le_value (read_tlv (fun length => length =? 8) buffer tag).
Definition read_tlv_float32 (buffer : list Z) (tag : string) : scan Z :=
  scan_map le_value (read_tlv (fun length => length =? 4) buffer tag).
(** The bytes copied into [str]; a terminator is stored after them. *)
Definition read_tlv_string (buffer : list Z) (tag : string) (str_size : Z)
  : scan (list Z) :=
  read_tlv (fun length => length <? str_size) buffer tag.
(** [capacity] is the value of [*length] on entry. *)
Definition read_tlv_raw (buffer : list Z) (tag : string) (capacity : Z)
  : scan (list Z) :=
  read_tlv (fun tlv_length => tlv_length <=? capacity) buffer tag.

(** * Device: [device_control] *)

Record AlarmConfig := {
  alarm_id : Z;
  low_temp : Z;     (* binary32 pattern *)
  high_temp : Z;    (* binary32 pattern *)
}.

Record TempLogEntry := {
  timestamp : Z;
  temperature : Z;  (* binary32 pattern *)
}.

Record RTCDate := { year : Z; month : Z; day : Z; weekday : Z }.
Record RTCTime := { hour : Z; minute : Z; second : Z }.

(** The mutable state of the firmware modules the protocol touches. *)
Record Device := {
  hw : Hardware;
  g_alarm_configs : list AlarmConfig;
  g_temp_log : list TempLogEntry;
  g_log_count : Z;
  g_log_write_index : Z;
  led_state : bool;
  buzzer_state : bool;
  buzzer_end_time : Z;
  (** RTC contents as last set through the HAL. *)
  rtc_date_set : option RTCDate;
  rtc_time_set : option RTCTime;
  (** [communication.c] *)
  packet_id_counter : Z;
  tx_complete : bool;
  rx_buffer : list Z;
  transmitted : list (list Z);
  crc_errors : Z;
  packets_received : Z;
}.

Definition set_control (d : Device) (led buzzer : bool) (buzzer_end : Z) : Device :=
  {| hw := hw d; g_alarm_configs := g_alarm_configs d; g_temp_log := g_temp_log d;
     g_log_count := g_log_count d; g_log_write_index := g_log_write_index d;
     led_state := led; buzzer_state := buzzer; buzzer_end_time := buzzer_end;
     rtc_date_set := rtc_date_set d; rtc_time_set := rtc_time_set d;
     packet_id_counter := packet_id_counter d; tx_complete := tx_complete d;
     rx_buffer := rx_buffer d; transmitted := transmitted d;
     crc_errors := crc_errors d; packets_received := packets_received d |}.

Definition set_log (d : Device) (log : list TempLogEntry) (count index : Z) : Device :=
  {| hw := hw d; g_alarm_configs := g_alarm_configs d; g_temp_log := log;
     g_log_count := count; g_log_write_index := index;
     led_state := led_state d; buzzer_state := buzzer_state d;
     buzzer_end_time := buzzer_end_time d;
     rtc_date_set := rtc_date_set d; rtc_time_set := rtc_time_set d;
     packet_id_counter := packet_id_counter d; tx_complete := tx_complete d;
     rx_buffer := rx_buffer d; transmitted := transmitted d;
     crc_errors := crc_errors d; packets_received := packets_received d |}.

Definition set_rtc (d : Device) (date : option RTCDate) (time : option RTCTime) : Device :=
  {| hw := hw d; g_alarm_configs := g_alarm_configs d; g_temp_log := g_temp_log d;
     g_log_count := g_log_count d; g_log_write_index := g_log_write_index d;
     led_state := led_state d; buzzer_state := buzzer_state d;
     buzzer_end_time := buzzer_end_time d;
     rtc_date_set := date; rtc_time_set := time;
     packet_id_counter := packet_id_counter d; tx_complete := tx_complete d;
     rx_buffer := rx_buffer d; transmitted := transmitted d;
     crc_errors := crc_errors d; packets_received := packets_received d |}.

Definition set_comm (d : Device) (counter : Z) (tx : bool) (sent : list (list Z))
    (crc_err received : Z) : Device :=
  {| hw := hw d; g_alarm_configs := g_alarm_configs d; g_temp_log := g_temp_log d;
     g_log_count := g_log_count d; g_log_write_index := g_log_write_index d;
     led_state := led_state d; buzzer_state := buzzer_state d;
     buzzer_end_time := buzzer_end_time d;
     rtc_date_set := rtc_date_set d; rtc_time_set := rtc_time_set d;
     packet_id_counter := counter; tx_complete := tx;
     rx_buffer := rx_buffer d; transmitted := sent;
     crc_errors := crc_err; packets_received := received |}.

Definition led_on (d : Device) : Device :=
  set_control d true (buzzer_state d) (buzzer_end_time d).
Definition led_off (d : Device) : Device :=
  set_control d false (buzzer_state d) (buzzer_end_time d).
Definition buzzer_on (d : Device) : Device :=
  set_control d (led_state d) true (buzzer_end_time d).
Definition buzzer_off (d : Device) : Device :=
  set_control d (led_state d) false 0.
Definition buzzer_beep (d : Device) (duration_ms : Z) : Device :=
  let d := buzzer_on d in
  set_control d (led_state d) (buzzer_state d) ((hal_tick (hw d) + duration_ms) mod 2^32).

(** Ordering of binary32 patterns: [None] when one side is a NaN. *)
Definition f32_key (bits : Z) : option Z :=
  let magnitude := bits mod 2^31 in
  if 255 * 2^23 <? magnitude then None
  else Some (if 2^31 <=? bits then - magnitude else magnitude).

Definition f32_lt (a b : Z) : bool :=
  match f32_key a, f32_key b with
  | Some x, Some y => x <? y
  | _, _ => false
  end.
Definition f32_le (a b : Z) : bool :=
  match f32_key a, f32_key b with
  | Some x, Some y => x <=? y
  | _, _ => false
  end.

Definition rtc_is_initialized (d : Device) : bool := hrtc_ready (hw d).

Definition rtc_get_date (d : Device) : option RTCDate :=
  if negb (rtc_is_initialized d) then None
  else match hal_date (hw d) with
       | Some (y, m, dd, w) => Some {| year := y; month := m; day := dd; weekday := w |}
       | None => None
       end.

Definition rtc_get_time (d : Device) : option RTCTime :=
  if negb (rtc_is_initialized d) then None
  else match hal_time (hw d) with
       | Some (h, m, s) => Some {| hour := h; minute := m; second := s |}
       | None => None
       end.

Definition rtc_set_date (d : Device) (date : RTCDate) : bool * Device :=
  if negb (rtc_is_initialized d) then (false, d)
  else if (99 <? year date) || (month date <? 1) || (12 <? month date)
          || (day date <? 1) || (31 <? day date)
          || (weekday date <? 1) || (7 <? weekday date) then (false, d)
  else if hal_set_ok (hw d) then (true, set_rtc d (Some date) (rtc_time_set d))
  else (false, d).

Definition rtc_set_time (d : Device) (time : RTCTime) : bool * Device :=
  if negb (rtc_is_initialized d) then (false, d)
  else if (23 <? hour time) || (59 <? minute time) || (59 <? second time) then (false, d)
  else if hal_set_ok (hw d) then (true, set_rtc d (rtc_date_set d) (Some time))
  else (false, d).

Definition days_in_month : list Z := [31; 28; 31; 30; 31; 30; 31; 31; 30; 31; 30; 31].

(** [rtc_get_timestamp()], on [uint64_t]. *)
Definition rtc_get_timestamp (d : Device) : Z :=
  if negb (rtc_is_initialized d) then 0 else
  match rtc_get_date d, rtc_get_time d with
  | Some date, Some time =>
    let months :=
      fold_left (fun acc n => acc + n * 24 * 3600)
                (take (Z.to_nat (month date - 1)) days_in_month) 0 in
    ((year date + 2000 - 2000) * 365 * 24 * 3600 + months
     + (day date - 1) * 24 * 3600
     + (hour time * 3600 + minute time * 60 + second time)) mod 2^64
  | _, _ => 0
  end.

(** [alarm_check_temperature]. *)
Definition alarm_check_temperature (d : Device) (temperature : Z) : Device :=
  fold_left
    (fun d (config : AlarmConfig) =>
       if f32_lt temperature (low_temp config) || f32_lt (high_temp config) temperature
       then if alarm_id config =? 0 then buzzer_beep d 1000
            else if alarm_id config =? 1 then led_on d
            else d
       else d)
    (take (Z.to_nat MAX_ALARMS) (g_alarm_configs d)) d.

(** [alarm_get_config(alarm_id, &config)]: [config] keeps its previous
    content [config0] when the id is out of range. *)
Definition alarm_get_config (d : Device) (id : Z) (config0 : AlarmConfig) : AlarmConfig :=
  if id <? MAX_ALARMS then
    match g_alarm_configs d !! Z.to_nat id with
    | Some c => c
    | None => config0
    end
  else config0.

(** [temp_log_add_entry]. *)
Definition temp_log_add_entry (d : Device) (temperature : Z) : Device :=
  let entry := {| timestamp := rtc_get_timestamp d; temperature := temperature |} in
  set_log d (<[Z.to_nat (g_log_write_index d) := entry]> (g_temp_log d))
          (if g_log_count d <? MAX_LOG_ENTRIES then g_log_count d + 1 else g_log_count d)
          ((g_log_write_index d + 1) mod MAX_LOG_ENTRIES).

Definition empty_entry : TempLogEntry := {| timestamp := 0; temperature := 0 |}.

(** [temp_log_get_entries]: the loop from [i] with [found] collected so far. *)
Fixpoint temp_log_scan (fuel : nat) (d : Device) (start_time end_time : Z)
    (max_entries : Z) (read_index i : Z) (found : list TempLogEntry)
  : list TempLogEntry :=
  match fuel with
  | O => found
  | S fuel =>
    if (i <? g_log_count d) && (Z.of_nat (length found) <? max_entries) then
      let current_index := (read_index + i) mod MAX_LOG_ENTRIES in
      let entry := nth (Z.to_nat current_index) (g_temp_log d) empty_entry in
      if (start_time <=? timestamp entry) && (timestamp entry <=? end_time)
      then temp_log_scan fuel d start_time end_time max_entries read_index (i + 1)
                         (found ++ [entry])
      else temp_log_scan fuel d start_time end_time max_entries read_index (i + 1) found
    else found
  end.

Definition temp_log_get_entries (d : Device) (start_time end_time : Z)
    (max_entries : Z) : list TempLogEntry :=
  if max_entries =? 0 then [] else
  let read_index :=
    ((g_log_write_index d + MAX_LOG_ENTRIES - g_log_count d) mod 2^32)
      mod MAX_LOG_ENTRIES in
  temp_log_scan (Z.to_nat (g_log_count d)) d start_time end_time max_entries
                read_index 0 [].

(** * Device: [command_handler.c] *)

(** A run of firmware code either completes or has undefined behaviour (a
    TLV scan that left its buffer). *)
Inductive run (A : Type) :=
| Done (a : A)
| Undefined.
Arguments Done {A} a.
Arguments Undefined {A}.

(** What a handler leaves behind: its return value, the bytes
    [response_data[0 .. *response_len)] and [*status]. *)
Record HandlerResult := {
  ret : Z;
  response_data : list Z;
  handler_status : Z;
}.

Definition CommandHandler : Type := Device -> list Z -> run (HandlerResult * Device).

Definition handler_ok (d : Device) (response : list Z) : run (HandlerResult * Device) :=
  Done ({| ret := 0; response_data := response; handler_status := STATUS_OK |}, d).
Definition handler_fail (d : Device) (status : Z) : run (HandlerResult * Device) :=
  Done ({| ret := -1; response_data := []; handler_status := status |}, d).

(** The value a reader leaves in its out-parameter, which starts as
    [default]; [None] when the scan ran out of its buffer. *)
Definition read_or {A} (default : A) (s : scan A) : option A :=
  match s with
  | Found a => Some a
  | Missing => Some default
  | Overrun => None
  end.

Definition handle_ping : CommandHandler := fun d _ => handler_ok d [].

Definition handle_get_temp : CommandHandler := fun d _ =>
  if negb (sensor_ok (hw d)) then handler_fail d STATUS_SENSOR_ERROR else
  let temperature := current_temperature (hw d) in
  if f32_le temperature 0xC479C000 (* -999.0f *) then handler_fail d STATUS_SENSOR_ERROR else
  let d := alarm_check_temperature d temperature in
  let d := temp_log_add_entry d temperature in
  match write_tlv_float32 MAX_DATA_SIZE TAG_TEMPERATURE temperature with
  | None => handler_fail d STATUS_INTERNAL_ERROR
  | Some t => handler_ok d t
  end.

(** Consecutive one-byte fields written at increasing offsets of a buffer of
    [size] bytes. *)
Fixpoint write_uint8_fields (size : Z) (fields : list (string * Z)) (out : list Z)
  : option (list Z) :=
  match fields with
  | [] => Some out
  | (tag, v) :: rest =>
    match write_tlv_uint8 (size - len out) tag v with
    | None => None
    | Some bytes => write_uint8_fields size rest (out ++ bytes)
    end
  end.

Definition handle_get_rtc_date : CommandHandler := fun d _ =>
  if negb (rtc_is_initialized d) then handler_fail d STATUS_NOT_INITIALIZED else
  match rtc_get_date d with
  | None => handler_fail d STATUS_NOT_INITIALIZED
  | Some date =>
    match write_uint8_fields MAX_DATA_SIZE
            [(TAG_YEAR, year date); (TAG_MONTH, month date);
             (TAG_DAY, day date); (TAG_WEEKDAY, weekday date)] [] with
    | None => handler_fail d STATUS_INTERNAL_ERROR
    | Some out => handler_ok d out
    end
  end.

Definition handle_get_rtc_time : CommandHandler := fun d _ =>
  if negb (rtc_is_initialized d) then handler_fail d STATUS_NOT_INITIALIZED else
  match rtc_get_time d with
  | None => handler_fail d STATUS_NOT_INITIALIZED
  | Some time =>
    match write_uint8_fields MAX_DATA_SIZE
            [(TAG_HOUR, hour time); (TAG_MINUTE, minute time);
             (TAG_SECOND, second time)] [] with
    | None => handler_fail d STATUS_INTERNAL_ERROR
    | Some out => handler_ok d out
    end
  end.

(** The chain [read(…) < 0 || read(…) < 0 || …]: the values read, [Missing]
    at the first field that is not found. *)
Fixpoint read_uint8_fields (request_data : list Z) (tags : list string) : scan (list Z) :=
  match tags with
  | [] => Found []
  | tag :: rest =>
    match read_tlv_uint8 request_data tag with
    | Found v => scan_map (cons v) (read_uint8_fields request_data rest)
    | Missing => Missing
    | Overrun => Overrun
    end
  end.

Definition handle_set_rtc_date : CommandHandler := fun d request_data =>
  if negb (rtc_is_initialized d) then handler_fail d STATUS_NOT_INITIALIZED else
  match read_uint8_fields request_data [TAG_YEAR; TAG_MONTH; TAG_DAY; TAG_WEEKDAY] with
  | Overrun => Undefined
  | Found [y; m; dd; w] =>
    let '(ok, d) := rtc_set_date d {| year := y; month := m; day := dd; weekday := w |} in
    if ok then handler_ok d [] else handler_fail d STATUS_INVALID_PARAM
  | _ => handler_fail d STATUS_INVALID_PARAM
  end.

Definition handle_set_rtc_time : CommandHandler := fun d request_data =>
  if negb (rtc_is_initialized d) then handler_fail d STATUS_NOT_INITIALIZED else
  match read_uint8_fields request_data [TAG_HOUR; TAG_MINUTE; TAG_SECOND] with
  | Overrun => Undefined
  | Found [h; m; s] =>
    let '(ok, d) := rtc_set_time d {| hour := h; minute := m; second := s |} in
    if ok then handler_ok d [] else handler_fail d STATUS_INVALID_PARAM
  | _ => handler_fail d STATUS_INVALID_PARAM
  end.

(** The loop of [handle_get_alarms] from channel [i]; [config0] stands for
    the uninitialised [config] variable. *)
Fixpoint alarm_items (d : Device) (ids : list Z) (alarm_list_data : list Z)
  : option (list Z) :=
  match ids with
  | [] => Some alarm_list_data
  | i :: rest =>
    let config0 :=
      {| alarm_id := nth 0 (stack_garbage (hw d)) 0;
         low_temp := le_value (slice (stack_garbage (hw d)) 4 8);
         high_temp := le_value (slice (stack_garbage (hw d)) 8 12) |} in
    let config := alarm_get_config d i config0 in
    id ← write_tlv_uint8 64 TAG_ALARM_ID (alarm_id config);
    low ← write_tlv_float32 (64 - len id) TAG_ALARM_LOW (low_temp config);
    high ← write_tlv_float32 (64 - len (id ++ low)) TAG_ALARM_HIGH (high_temp config);
    item ← write_tlv_raw (MAX_DATA_SIZE - len alarm_list_data) TAG_ALARM_ITEM
                         (id ++ low ++ high);
    alarm_items d rest (alarm_list_data ++ item)
  end.

Definition handle_get_alarms : CommandHandler := fun d _ =>
  match alarm_items d [0; 1] [] ≫= write_tlv_raw MAX_DATA_SIZE TAG_ALARM_LIST with
  | None => handler_fail d STATUS_INTERNAL_ERROR
  | Some al => handler_ok d al
  end.

Definition handle_set_alarms : CommandHandler := fun d request_data =>
  match read_tlv_raw request_data TAG_ALARM_LIST MAX_DATA_SIZE with
  | Overrun => Undefined
  | Missing => handler_fail d STATUS_INVALID_PARAM
  | Found _ => handler_ok d []
  end.

(** The loop of [handle_get_log] over the entries found: an item that does
    not fit its buffer ends the loop ([break]). *)
Fixpoint log_items (entries : list TempLogEntry) (log_list_data : list Z) : list Z :=
  match entries with
  | [] => log_list_data
  | entry :: rest =>
    let log_item_size := 16 in
    match write_tlv_uint64 log_item_size TAG_TIMESTAMP (timestamp entry) with
    | None => log_list_data
    | Some ts =>
      match write_tlv_float32 (log_item_size - len ts) TAG_TEMPERATURE (temperature entry) with
      | None => log_list_data
      | Some temp =>
        match write_tlv_raw (MAX_DATA_SIZE - len log_list_data) TAG_ALARM_ITEM (ts ++ temp) with
        | None => log_list_data
        | Some item => log_items rest (log_list_data ++ item)
        end
      end
    end
  end.

Definition handle_get_log : CommandHandler := fun d request_data =>
  match read_or 0 (read_tlv_uint64 request_data TAG_TIME_START),
        read_or 0 (read_tlv_uint64 request_data TAG_TIME_END),
        read_or 100 (read_tlv_uint16 request_data TAG_MAX_COUNT) with
  | Some start_time, Some end_time, Some max_count =>
    let end_time := if end_time =? 0 then rtc_get_timestamp d else end_time in
    let start_time :=
      if start_time =? 0 then (end_time - 24 * 3600) mod 2^64 else start_time in
    let entries :=
      temp_log_get_entries d start_time end_time
                           (if max_count <? 100 then max_count else 100) in
    let log_list_data := log_items entries [] in
    match write_tlv_raw MAX_DATA_SIZE TAG_LOG_LIST log_list_data with
    | None => handler_fail d STATUS_INTERNAL_ERROR
    | Some lg => handler_ok d lg
    end
  | _, _, _ => Undefined
  end.

Definition handle_set_led : CommandHandler := fun d _ => handler_ok (led_on d) [].
Definition handle_reset_led : CommandHandler := fun d _ => handler_ok (led_off d) [].
Definition handle_set_buzzer : CommandHandler := fun d _ => handler_ok (buzzer_beep d 1000) [].
Definition handle_reset_buzzer : CommandHandler := fun d _ => handler_ok (buzzer_off d) [].

Definition command_table : list (string * CommandHandler) :=
  [("ping", handle_ping); ("temp", handle_get_temp);
   ("gdat", handle_get_rtc_date); ("gtim", handle_get_rtc_time);
   ("sdat", handle_set_rtc_date); ("stim", handle_set_rtc_time);
   ("galm", handle_get_alarms); ("salm", handle_set_alarms);
   ("glog", handle_get_log); ("sled", handle_set_led);
   ("rled", handle_reset_led); ("sbzr", handle_set_buzzer);
   ("rbzr", handle_reset_buzzer)]%string.

(** The lookup loop: the first entry with [strcmp(instruction, command) == 0]. *)
Fixpoint find_handler (table : list (string * CommandHandler)) (instruction : list Z)
  : option CommandHandler :=
  match table with
  | [] => None
  | (command, handler) :: rest =>
    if bool_decide (instruction = c_string (js command)) then Some handler
    else find_handler rest instruction
  end.

(** The response payload [temp_buffer] of [process_command_packet]. *)
Definition response_payload (instruction : list Z) (status : Z) (response : list Z)
  : option (list Z) :=
  in_tlv ← write_tlv_string MAX_DATA_SIZE TAG_INSTRUCTION instruction;
  st_tlv ← write_tlv_uint8 (MAX_DATA_SIZE - len in_tlv) TAG_STATUS status;
  if 0 <? len response then
    da_tlv ← write_tlv_raw (MAX_DATA_SIZE - len (in_tlv ++ st_tlv)) TAG_DATA response;
    Some (in_tlv ++ st_tlv ++ da_tlv)
  else Some (in_tlv ++ st_tlv).

(** [process_command_packet] over a command table: the response packet
    ([None] for the return value -1) and the device afterwards. *)
Definition process_command_packet_with (table : list (string * CommandHandler))
    (d : Device) (packet_data : list Z) (response_id : Z)
  : run (option (list Z) * Device) :=
  match read_tlv_string packet_data TAG_INSTRUCTION 5 with
  | Overrun => Undefined
  | Missing => Done (None, d)
  | Found bytes =>
    let instruction := c_string bytes in
    match find_handler table instruction with
    | None => Done (None, d)
    | Some handler =>
      match read_tlv_raw packet_data TAG_DATA MAX_DATA_SIZE with
      | Overrun => Undefined
      | da =>
        let request_data := match da with Found r => r | _ => [] end in
        match handler d request_data with
        | Undefined => Undefined
        | Done (result, d) =>
          let status :=
            if ret result <? 0 then STATUS_INTERNAL_ERROR else handler_status result in
          let response := if ret result <? 0 then [] else response_data result in
          Done (response_payload instruction status response
                  ≫= (fun temp_buffer =>
                        build_packet (hw d) PKT_TYPE_SLAVE_RESPONSE 0x8000 response_id
                                     temp_buffer MAX_PACKET_SIZE),
                d)
        end
      end
    end
  end.

Definition process_command_packet : Device -> list Z -> Z -> run (option (list Z) * Device) :=
  process_command_packet_with command_table.

(** * Device: [communication.c] *)

Definition COMM_TX_BUFFER_SIZE : Z := 1024.

Definition send_response_packet (d : Device) (packet : list Z) : Device :=
  if negb (tx_complete d) || (COMM_TX_BUFFER_SIZE <? len packet) then d
  else set_comm d (packet_id_counter d) false (transmitted d ++ [packet])
                (crc_errors d) (packets_received d).

(** The error packet [send_error_response] builds, if any, and the counter
    afterwards. *)
Definition error_packet (d : Device) (response_id error_code : Z) (error_desc : list Z)
  : option (list Z) * Z :=
  match
    (ec ← write_tlv_uint8 256 TAG_ERROR_CODE error_code;
     if 0 <? len (c_string error_desc) then
       ed ← write_tlv_string (256 - len ec) TAG_ERROR_DESC error_desc; Some (ec ++ ed)
     else Some ec)
  with
  | None => (None, packet_id_counter d)
  | Some error_data =>
    (build_packet (hw d) PKT_TYPE_SLAVE_ERROR (packet_id_counter d) response_id
                  error_data MAX_PACKET_SIZE,
     (packet_id_counter d + 1) mod 2^16)
  end.

(** [send_error_response]: the return value and the device afterwards. *)
Definition send_error_response (d : Device) (response_id error_code : Z)
    (error_desc : list Z) : Z * Device :=
  let '(packet, counter) := error_packet d response_id error_code error_desc in
  let d := set_comm d counter (tx_complete d) (transmitted d)
                    (crc_errors d) (packets_received d) in
  match packet with
  | None => (-1, d)
  | Some error_packet => (0, send_response_packet d error_packet)
  end.

(** [process_received_data()] on the bytes received so far. *)
Definition process_received_data (d : Device) : run (Z * Device) :=
  if len (rx_buffer d) <? 4 then Done (-1, d) else
  match find_packet_boundaries (rx_buffer d) with
  | None => Done (-1, d)
  | Some _ =>
    let header0 := header_of_bytes (stack_garbage (hw d)) in
    match parse_packet (hw d) (rx_buffer d) header0 MAX_DATA_SIZE with
    | (None, header) =>
      let d := set_comm d (packet_id_counter d) (tx_complete d) (transmitted d)
                        ((crc_errors d + 1) mod 2^32) (packets_received d) in
      Done (-1, (send_error_response d (h_packet_id header) ERROR_CODE_CORRUPT
                                     (js "Packet corrupted")).2)
    | (Some packet_data, header) =>
      let d := set_comm d (packet_id_counter d) (tx_complete d) (transmitted d)
                        (crc_errors d) ((packets_received d + 1) mod 2^32) in
      if negb (h_type header =? PKT_TYPE_HOST_REQUEST) then
        Done (-1, (send_error_response d (h_packet_id header) ERROR_CODE_UNEXPECTED_RESP
                                       (js "Unexpected packet type")).2)
      else
        match process_command_packet d packet_data (h_packet_id header) with
        | Undefined => Undefined
        | Done (None, d) =>
          Done (-1, (send_error_response d (h_packet_id header) ERROR_CODE_UNKNOWN
                                         (js "Command processing failed")).2)
        | Done (Some response_packet, d) => Done (0, send_response_packet d response_packet)
        end
    end
  end.

(** * Vocabulary of the statements *)

(** The unescaped region between the markers of a device frame: header,
    payload and CRC. *)
Definition frame_body (frame : list Z) : option (list Z) :=
  if bool_decide (take 2 frame = [START_MARK_1; START_MARK_2])
     && bool_decide (drop (length frame - 2) frame = [END_MARK_1; END_MARK_2])
  then unescape_data (slice frame 2 (len frame - 2)) MAX_PACKET_SIZE
  else None.

(** The header a device frame carries. *)
Definition frame_header (frame : list Z) : option PacketHeader :=
  body ← frame_body frame;
  if len body <? 8 then None else Some (header_of_bytes body).

(** A freshly booted device: the static initialisers of [device_control] and
    [communication.c]. *)
Definition initial_device (hardware : Hardware) : Device :=
  {| hw := hardware;
     g_alarm_configs := replicate 2 {| alarm_id := 0; low_temp := 0; high_temp := 0 |};
     g_temp_log := replicate 100 empty_entry;
     g_log_count := 0; g_log_write_index := 0;
     led_state := false; buzzer_state := false; buzzer_end_time := 0;
     rtc_date_set := None; rtc_time_set := None;
     packet_id_counter := 0x8000; tx_complete := true;
     rx_buffer := []; transmitted := [];
     crc_errors := 0; packets_received := 0 |}.

(** The error packets built by a sequence of [send_error_response] calls,
    given as [(response_id, error_code, error_desc)]. *)
Fixpoint error_packets (d : Device) (calls : list (Z * Z * list Z))
  : list (option (list Z)) :=
  match calls with
  | [] => []
  | (response_id, error_code, error_desc) :: rest =>
    (error_packet d response_id error_code error_desc).1
      :: error_packets (send_error_response d response_id error_code error_desc).2 rest
  end.

(** The layout of one TLV field: two tag bytes, the little-endian 16-bit
    length of the value, the value. *)
Definition tlv (tag : string) (value : list Z) : list Z :=
  tag2 tag ++ le16 (len value) ++ value.

(** The bytes [build_packet] stuffs between the markers: the packed header,
    the data and the CRC of both. *)
Definition raw_packet (hw : Hardware) (type packet_id response_id : Z) (data : list Z)
  : list Z :=
  let header :=
    {| h_version := PROTOCOL_VERSION; h_type := type; h_packet_id := packet_id;
       h_response_id := response_id; h_data_length := len data |} in
  (header_bytes header ++ data)
    ++ le32 (calculate_crc32 hw ((header_bytes header ++ data) ++ stack_garbage hw)
                             (len (header_bytes header ++ data))).

(** No start marker pair [0xAA 0x55] anywhere in [l]. *)
Definition no_start_marker (l : list Z) : Prop :=
  forall i : nat, ~ (l !! i = Some 0xAA /\ l !! S i = Some 0x55).

(** [connectDevice(device)] once the device answers. *)
Definition connectDevice (m : Manager) (connected : bool) : Manager :=
  {| packetCounter := packetCounter m; device := Some connected;
     responseBuffer := responseBuffer m; pendingRequests := pendingRequests m;
     promises := promises m; timers := timers m; next_id := next_id m;
     written := written m; handled := handled m |}.

(** What can happen to a manager between two calls: a request is sent, a
    timer fires, a write fails, bytes arrive, the device is connected or
    disconnected. *)
Inductive manager_step : Manager -> Manager -> Prop :=
| step_send m requestData command :
    manager_step m (sendRequest m requestData command).1
| step_timer m t :
    manager_step m (timer_fired m t)
| step_write_failed m t command p :
    manager_step m (write_failed m t command p)
| step_receive m bytes :
    manager_step m (handleReceivedData m bytes)
| step_connect m connected :
    manager_step m (connectDevice m connected)
| step_disconnect m :
    manager_step m (disconnectDevice m).

Inductive reachable : Manager -> Prop :=
| reachable_new connected : reachable (new_manager connected)
| reachable_step m m' : reachable m -> manager_step m m' -> reachable m'.

(** The device of the log scenario: two entries, (1500, 22.5) and
    (2500, 23.0), in the first two slots of the ring. *)
Definition scenario_hardware : Hardware :=
  {| hcrc := None; stack_garbage := []; sensor_ok := true;
     current_temperature := 0x41B40000; hrtc_ready := true;
     hal_date := Some (25, 6, 23, 1); hal_time := Some (14, 30, 0);
     hal_set_ok := true; hal_tick := 0 |}.

Definition scenario_device : Device :=
  set_log (initial_device scenario_hardware)
          ([ {| timestamp := 1500; temperature := 0x41B40000 |} ;
             {| timestamp := 2500; temperature := 0x41B80000 |} ]
             ++ replicate 98 empty_entry)
          2 2.

(** The [DA] content of a [glog] request with T1 = 1000 and T2 = 2000. *)
Definition scenario_request : list Z :=
  tlv TAG_TIME_START (le64 1000) ++ tlv TAG_TIME_END (le64 2000).

(** Ids are handed out in increasing order: everything the tables mention
    is below [next_id]. *)
Definition ids_below (m : Manager) : Prop :=
  (forall p s, promises m !! p = Some s -> (p < next_id m)%nat)
  /\ (forall k pr, pendingRequests m !! k = Some pr ->
        (pr_promise pr < next_id m)%nat /\ (pr_timeout pr < next_id m)%nat)
  /\ (forall t c, timers m !! t = Some c -> (t < next_id m)%nat).

(** ** Values that survive the TLV codec

    [decodeTLV] picks the interpretation of the value bytes from the tag
    alone, [encodeTLV] picks the encoding from the value alone: a field
    survives the round trip when the two agree. *)

(** Two code units below 256 ([charCodeAt] is stored into a byte). *)
Definition tag_ok (tag : list Z) : bool :=
  (length tag =? 2)%nat && forallb (fun c => (0 <=? c) && (c <? 256)) tag.

Definition float_tag (tag : list Z) : bool := tag_in tag ["T "; "L "; "H "].
Definition uint8_tag (tag : list Z) : bool :=
  tag_in tag ["ST"; "EC"; "YY"; "MM"; "DD"; "WK"; "HH"; "SS"; "ID"].
Definition uint16_tag (tag : list Z) : bool := tag_in tag ["MX"].
Definition uint64_tag (tag : list Z) : bool := tag_in tag ["TS"; "T1"; "T2"].
Definition array_tag (tag : list Z) : bool := tag_in tag ["DA"; "AL"; "LG"; "IT"].
Definition string_tag (tag : list Z) : bool :=
  negb (float_tag tag || uint8_tag tag || uint16_tag tag || uint64_tag tag
        || array_tag tag).

(** Code units of a string without unpaired surrogates. *)
Fixpoint well_formed (s : list Z) : bool :=
  match s with
  | [] => true
  | c :: r =>
    if is_high_surrogate c then
      match r with
      | d :: r' => is_low_surrogate d && well_formed r'
      | [] => false
      end
    else negb (is_low_surrogate c) && (0 <=? c) && (c <? 0x10000) && well_formed r
  end.

(** A string [TextDecoder] gives back: well formed, and not starting with
    the byte order mark U+FEFF, which the decoder drops. *)
Definition plain_string (s : list Z) : bool :=
  well_formed s && negb (bool_decide (head s = Some 0xFEFF)).

Fixpoint well_kinded (tag : list Z) (v : value) : bool :=
  tag_ok tag &&
  match v with
  | VUndef => false
  | VStr s => string_tag tag && plain_string s
  | VNum (NInt n) =>
    (uint8_tag tag && (0 <=? n) && (n <=? 0xFF))
    || (uint16_tag tag && (0xFF <? n) && (n <=? 0xFFFF))
    || (uint64_tag tag && (0xFFFFFFFF <? n) && (n <? 2^64) && (number_of_bigint n =? n))
  | VNum (NFrac neg m e) =>
    float_tag tag && Z.odd (Zpos m) && (Zpos m <? 2^24) && (-149 <=? e) && (e <? 0)
  | VNum (NInf _) => float_tag tag
  | VNum NNaN => float_tag tag
  | VArr items => array_tag tag && forallb (fun item => well_kinded item.1 item.2) items
  end.

(** The value bytes [encodeTLV] computes before it adds tag and length. *)
Definition encode_value (v : value) : result (list Z) :=
  match v with
  | VStr s => Ok (TextEncoder_encode s)
  | VNum (NInt n) =>
    if n <=? 0xFF then Ok [n mod 256]
    else if n <=? 0xFFFF then Ok (le16 n)
    else if n <=? 0xFFFFFFFF then Ok (le32 n)
    else Ok (le64 (n mod 2^64))
  | VNum x => Ok (le32 (f32_bits x))
  | VArr items => seq_bind (fun item : list Z * value => encodeTLV item.1 item.2) items
  | VUndef => Throw UnsupportedValueType
  end.

(** The fallback checksum of [calculate_crc32]: the sum of the bytes on
    [uint32_t]. *)
Definition byte_sum (l : list Z) : Z :=
  fold_left (fun sum b => (sum + b) mod 2^32) l 0.

(** The frame [createPingRequest] builds when the counter stands at 0. *)
Definition ping_frame : list Z :=
  [0xAA; 0x55; 0x02; 0x00; 0x01; 0x00; 0x00; 0x00; 0x0C; 0x00;
   0x49; 0x4E; 0x04; 0x00; 0x70; 0x69; 0x6E; 0x67;
   0x44; 0x41; 0x00; 0x00;
   0xBA; 0x09; 0x12; 0xC0;
   0x55; 0xAA].

(** The device once [bytes] have arrived in [rx_buffer]. *)
Definition with_rx_buffer (d : Device) (bytes : list Z) : Device :=
  {| hw := hw d; g_alarm_configs := g_alarm_configs d; g_temp_log := g_temp_log d;
     g_log_count := g_log_count d; g_log_write_index := g_log_write_index d;
     led_state := led_state d; buzzer_state := buzzer_state d;
     buzzer_end_time := buzzer_end_time d;
     rtc_date_set := rtc_date_set d; rtc_time_set := rtc_time_set d;
     packet_id_counter := packet_id_counter d; tx_complete := tx_complete d;
     rx_buffer := bytes; transmitted := transmitted d;
     crc_errors := crc_errors d; packets_received := packets_received d |}.

(** The device after [comm_stats.packets_received++]. *)
Definition packet_counted (d : Device) : Device :=
  set_comm d (packet_id_counter d) (tx_complete d) (transmitted d)
           (crc_errors d) ((packets_received d + 1) mod 2^32).

(** * Further vocabulary *)

(** [data] with bit [j] of the byte at index [i] inverted. *)
Definition flip_bit (data : list Z) (i : nat) (j : Z) : list Z :=
  alter (fun b => Z.lxor b (2^j)) i data.

(** No byte of [l] is 0xAA or 0x55: the stuffing leaves [l] as it is. *)
Definition marker_free (l : list Z) : bool :=
  forallb (fun b => negb ((b =? 0xAA) || (b =? 0x55))) l.

(** TLV fields laid out one after the other, as the device's writers do. *)
Definition tlv_fields (fields : list (string * list Z)) : list Z :=
  concat (map (fun f : string * list Z => tlv f.1 f.2) fields).

(** The fields at which a reader of the device looks: its scan stops four
    bytes before the end of the buffer, which leaves out a last field whose
    value is empty. *)
Fixpoint visited_fields (fields : list (string * list Z)) : list (string * list Z) :=
  match fields with
  | [] => []
  | f :: rest =>
    match rest with
    | [] => if len f.2 =? 0 then [] else [f]
    | _ :: _ => f :: visited_fields rest
    end
  end.

(** [temp_log_init]. *)
Definition temp_log_init (d : Device) : Device :=
  set_log d (replicate (Z.to_nat MAX_LOG_ENTRIES) empty_entry) 0 0.

(** The states of the log that [temp_log_init] and [temp_log_add_entry]
    produce: until the array is full the write index is the count. *)
Definition log_wf (d : Device) : Prop :=
  length (g_temp_log d) = Z.to_nat MAX_LOG_ENTRIES
  /\ 0 <= g_log_count d <= MAX_LOG_ENTRIES
  /\ 0 <= g_log_write_index d < MAX_LOG_ENTRIES
  /\ (g_log_count d < MAX_LOG_ENTRIES -> g_log_write_index d = g_log_count d).

(** The entries the log holds, oldest first. *)
Definition log_entries (d : Device) : list TempLogEntry :=
  if g_log_count d <? MAX_LOG_ENTRIES then take (Z.to_nat (g_log_count d)) (g_temp_log d)
  else drop (Z.to_nat (g_log_write_index d)) (g_temp_log d)
         ++ take (Z.to_nat (g_log_write_index d)) (g_temp_log d).

(** The test of [temp_log_get_entries] on one entry. *)
Definition in_window (start_time end_time : Z) (entry : TempLogEntry) : bool :=
  (start_time <=? timestamp entry) && (timestamp entry <=? end_time).

(** [createSetRTCDateRequest(date)] and [createSetRTCTimeRequest(time)], for
    integral fields. *)
Definition createSetRTCDateRequest (packetCounter : Z) (date : RTCDate)
  : result (list Z) * Z :=
  createRequest packetCounter "sdat"
    [(js "YY", VNum (NInt (year date))); (js "MM", VNum (NInt (month date)));
     (js "DD", VNum (NInt (day date))); (js "WK", VNum (NInt (weekday date)))].

Definition createSetRTCTimeRequest (packetCounter : Z) (time : RTCTime)
  : result (list Z) * Z :=
  createRequest packetCounter "stim"
    [(js "HH", VNum (NInt (hour time))); (js "MM", VNum (NInt (minute time)));
     (js "SS", VNum (NInt (second time)))].

(** The device with its peripherals read anew: the clock has moved on, the
    firmware state is as it was. *)
Definition set_hw (d : Device) (hardware : Hardware) : Device :=
  {| hw := hardware; g_alarm_configs := g_alarm_configs d; g_temp_log := g_temp_log d;
     g_log_count := g_log_count d; g_log_write_index := g_log_write_index d;
     led_state := led_state d; buzzer_state := buzzer_state d;
     buzzer_end_time := buzzer_end_time d;
     rtc_date_set := rtc_date_set d; rtc_time_set := rtc_time_set d;
     packet_id_counter := packet_id_counter d; tx_complete := tx_complete d;
     rx_buffer := rx_buffer d; transmitted := transmitted d;
     crc_errors := crc_errors d; packets_received := packets_received d |}.

(** [temp_log_add_entry(temperature)] called when the peripherals stand at
    [step.1], with [step.2] for the temperature. *)
Definition log_step (d : Device) (step : Hardware * Z) : Device :=
  temp_log_add_entry (set_hw d step.1) step.2.

(** The entry such a call writes. *)
Definition log_step_entry (d : Device) (step : Hardware * Z) : TempLogEntry :=
  {| timestamp := rtc_get_timestamp (set_hw d step.1); temperature := step.2 |}.

(** * Proof automation *)

(** [lia] is given the powers of two of the word sizes as numerals. *)
Ltac pow2 :=
  change (2^6) with 64 in *; change (2^7) with 128 in *;
  change (2^8) with 256 in *; change (2^10) with 1024 in *;
  change (2^11) with 2048 in *; change (2^12) with 4096 in *;
  change (2^16) with 65536 in *; change (2^18) with 262144 in *;
  change (2^23) with 8388608 in *; change (2^24) with 16777216 in *;
  change (2^31) with 2147483648 in *; change (2^32) with 4294967296 in *;
  change (2^53) with 9007199254740992 in *;
  change (2^64) with 18446744073709551616 in *.
Ltac zlia := pow2; lia.
Ltac znia := pow2; nia.
Ltac zdm := pow2; Z.div_mod_to_equations; lia.

(** The cases of a tag test [tag_in tag cases = true], given the lemma that
    characterises [tag_in]. *)
Ltac tag_cases characterisation H :=
  apply characterisation in H as (?c & Hin & ->);
  simpl in Hin; repeat (destruct Hin as [<-|Hin]); try done.

(** What a handler that has returned left behind. *)
Ltac handler_returns H :=
  unfold handler_ok, handler_fail in H;
  first [ discriminate H
        | injection H as <- <-; cbn [response_data];
          try change (len []) with 0; try lia ].

(** A handler that has returned without touching the alarm table. *)
Ltac keeps_alarms H :=
  unfold handler_ok, handler_fail in H;
  first [ discriminate H | by injection H as <- <- ].

(** The UTF-8 decoder between two code points. *)
Abbreviation utf8_start := (utf8_decode 0 0 0x80 0xBF).

(** * Lemmas and theorems *)

(** ** Lists of bytes *)

Lemma len_nil : len [] = 0.
Proof. reflexivity. Qed.

Lemma len_cons x l : len (x :: l) = 1 + len l.
Proof. unfold len. simpl length. lia. Qed.

Lemma len_app l1 l2 : len (l1 ++ l2) = len l1 + len l2.
Proof. unfold len. rewrite length_app. lia. Qed.

Lemma len_nonneg l : 0 <= len l.
Proof. unfold len. lia. Qed.

Lemma slice_0 l n : slice l 0 n = take (Z.to_nat n) l.
Proof. unfold slice. rewrite Z.sub_0_r. reflexivity. Qed.

Lemma slice_app_skip l1 l2 a b :
  len l1 <= a -> slice (l1 ++ l2) a b = slice l2 (a - len l1) (b - len l1).
Proof.
  intros Ha. unfold slice, len in *.
  replace (b - Z.of_nat (length l1) - (a - Z.of_nat (length l1))) with (b - a) by lia.
  f_equal. rewrite drop_app.
  rewrite (drop_ge l1) by lia. simpl. f_equal. lia.
Qed.

Lemma slice_app_exact l1 l2 : slice (l1 ++ l2) 0 (len l1) = l1.
Proof.
  rewrite slice_0. unfold len. rewrite Nat2Z.id. apply take_app_length.
Qed.

Lemma slice_middle l1 l2 l3 a b :
  a = len l1 -> b = len l1 + len l2 -> slice (l1 ++ l2 ++ l3) a b = l2.
Proof.
  intros -> ->. rewrite slice_app_skip by lia.
  rewrite Z.sub_diag. replace (len l1 + len l2 - len l1) with (len l2) by lia.
  apply slice_app_exact.
Qed.

(** ** Byte stuffing *)

Lemma spec_escape_cons x b :
  spec_escape (x :: b)
  = (if (x =? 0xAA) || (x =? 0x55) then [x; 0] else [x]) ++ spec_escape b.
Proof. reflexivity. Qed.

Lemma escape_data_from_spec input : forall out output_size,
  len out + len (spec_escape input) <= output_size ->
  escape_data_from input out output_size = Some (out ++ spec_escape input).
Proof.
  induction input as [|x input IH]; intros out cap Hcap.
  - simpl. by rewrite app_nil_r.
  - rewrite spec_escape_cons in *. rewrite len_app in Hcap. simpl escape_data_from.
    pose proof (len_nonneg (spec_escape input)).
    destruct ((x =? 170) || (x =? 85)) eqn:Hx.
    + rewrite !len_cons, len_nil in Hcap.
      destruct (len out <? cap) eqn:H1; [|lia].
      destruct (cap <=? len out + 1) eqn:H2; [lia|].
      rewrite IH; [by rewrite <- app_assoc|].
      rewrite len_app, !len_cons, len_nil. lia.
    + rewrite !len_cons, len_nil in Hcap.
      destruct (len out <? cap) eqn:H1; [|lia].
      rewrite IH; [by rewrite <- app_assoc|].
      rewrite len_app, !len_cons, len_nil. lia.
Qed.

Lemma spec_escape_nil_inv b : spec_escape b = [] -> b = [].
Proof.
  destruct b as [|x b]; [done|]. rewrite spec_escape_cons.
  by destruct ((x =? 170) || (x =? 85)).
Qed.

Lemma unescape_data_from_spec b : forall out output_size,
  len out + len b <= output_size ->
  unescape_data_from (spec_escape b) out output_size = Some (out ++ b).
Proof.
  induction b as [|x b IH]; intros out cap Hcap.
  - simpl. by rewrite app_nil_r.
  - rewrite spec_escape_cons. rewrite len_cons in Hcap.
    pose proof (len_nonneg b).
    destruct ((x =? 170) || (x =? 85)) eqn:Hx.
    + simpl. destruct (len out <? cap) eqn:H1; [|lia].
      rewrite Hx. simpl.
      rewrite IH; [by rewrite <- app_assoc|]. rewrite len_app, len_cons, len_nil. lia.
    + simpl app. cbn [unescape_data_from].
      destruct (len out <? cap) eqn:H1; [|lia].
      destruct (spec_escape b) as [|next rest'] eqn:Hb.
      * apply spec_escape_nil_inv in Hb. by subst.
      * apply orb_false_elim in Hx as [Hx1 Hx2].
        rewrite Hx1, Hx2. cbn [andb orb].
        rewrite IH; [by rewrite <- app_assoc|]. rewrite len_app, len_cons, len_nil. lia.
Qed.

Lemma spec_escape_no_marker b : has_marker_pair (spec_escape b) = false.
Proof.
  induction b as [|x b IH]; [done|].
  rewrite spec_escape_cons.
  destruct ((x =? 170) || (x =? 85)) eqn:Hx.
  - cbn [app has_marker_pair].
    replace (0 =? 85) with false by reflexivity. replace (0 =? 170) with false by reflexivity.
    rewrite !andb_false_r. simpl orb.
    destruct (spec_escape b) as [|c r] eqn:Hb; [done|].
    cbn [has_marker_pair] in *. rewrite IH. reflexivity.
  - apply orb_false_elim in Hx as [H1 H2].
    cbn [app]. destruct (spec_escape b) as [|c r] eqn:Hb; [done|].
    cbn [has_marker_pair] in *. rewrite H1, H2, IH. reflexivity.
Qed.

(** C6: for every byte sequence [b], [escape_data], given room for its
    output, emits every byte equal to 0xAA or 0x55 followed by the stuffing
    byte 0x00 and every other byte unchanged ([spec_escape b]);
    [unescape_data], given room for [b], recovers exactly [b] from these
    bytes; and no marker pair 0xAA 0x55 or 0x55 0xAA occurs in them. *)
Theorem escape_unescape_roundtrip (b : list Z) (escaped_size plain_size : Z) :
  len (spec_escape b) <= escaped_size ->
  len b <= plain_size ->
  escape_data b escaped_size = Some (spec_escape b)
  /\ unescape_data (spec_escape b) plain_size = Some b
  /\ has_marker_pair (spec_escape b) = false.
Proof.
  intros H1 H2. split; [|split].
  - apply (escape_data_from_spec b []). by rewrite len_nil.
  - apply (unescape_data_from_spec b []). by rewrite len_nil.
  - apply spec_escape_no_marker.
Qed.

Lemma len_take_le l n : len (take n l) <= len l.
Proof. unfold len. rewrite length_take. lia. Qed.

Lemma len_spec_escape_le b : len (spec_escape b) <= 2 * len b.
Proof.
  induction b as [|x b IH]; [done|].
  rewrite spec_escape_cons, len_app, len_cons.
  destruct ((x =? 170) || (x =? 85)); rewrite ?len_cons, len_nil; lia.
Qed.

Lemma len_spec_escape_ge b : len b <= len (spec_escape b).
Proof.
  induction b as [|x b IH]; [done|].
  rewrite spec_escape_cons, len_app, len_cons.
  destruct ((x =? 170) || (x =? 85)); rewrite ?len_cons, len_nil; lia.
Qed.

(** What [escape_data] returns is the stuffing of a prefix of its input, and
    of the whole input unless the output buffer is full. *)
Lemma escape_data_from_prefix input : forall out output_size r,
  escape_data_from input out output_size = Some r ->
  exists k : nat,
    r = out ++ spec_escape (take k input)
    /\ (k = length input \/ output_size <= len r).
Proof.
  induction input as [|x input IH]; intros out cap r Hr.
  - exists 0%nat. simpl in *. inversion Hr. rewrite app_nil_r. auto.
  - simpl in Hr. destruct (len out <? cap) eqn:H1.
    + destruct ((x =? 170) || (x =? 85)) eqn:Hx.
      * destruct (cap <=? len out + 1); [done|].
        apply IH in Hr as (k & -> & Hk). exists (S k).
        cbn [take]. rewrite spec_escape_cons, Hx, <- !app_assoc. split; [done|].
        destruct Hk as [->|Hk]; [by left|right]. by rewrite <- !app_assoc in Hk.
      * apply IH in Hr as (k & -> & Hk). exists (S k).
        cbn [take]. rewrite spec_escape_cons, Hx, <- !app_assoc. split; [done|].
        destruct Hk as [->|Hk]; [by left|right]. by rewrite <- !app_assoc in Hk.
    + inversion Hr; subst. exists 0%nat. simpl. rewrite app_nil_r. split; [done|]. right. lia.
Qed.

(** ** Little-endian fields *)

Lemma le_value_le16 v : 0 <= v < 2^16 -> le_value (le16 v) = v.
Proof.
  intros H. unfold le16, le_value. change (2^16) with 65536 in H.
  Z.div_mod_to_equations. lia.
Qed.

Lemma le_value_le32 v : 0 <= v < 2^32 -> le_value (le32 v) = v.
Proof.
  intros H. unfold le32, le_value. change (2^32) with 4294967296 in H.
  Z.div_mod_to_equations. lia.
Qed.

Lemma le_value_app a b : le_value (a ++ b) = le_value a + 256 ^ len a * le_value b.
Proof.
  induction a as [|x a IH]; simpl.
  - rewrite len_nil. lia.
  - rewrite IH, len_cons. rewrite Z.pow_add_r by (pose proof (len_nonneg a); lia). lia.
Qed.

Lemma le_value_le64 v : 0 <= v < 2^64 -> le_value (le64 v) = v.
Proof.
  intros H. unfold le64. rewrite le_value_app.
  rewrite !le_value_le32 by (split; [apply Z.mod_pos_bound|apply Z.mod_pos_bound]; lia).
  replace (len (le32 (v mod 2^32))) with 4 by reflexivity.
  change (2^64) with (2^32 * 2^32) in H.
  rewrite (Z.mod_small (v / 2^32)) by (split; [apply Z.div_pos; lia|apply Z.div_lt_upper_bound; lia]).
  change (256 ^ 4) with (2^32). pose proof (Z.div_mod v (2^32)). lia.
Qed.

Lemma header_of_header_bytes h rest :
  0 <= h_version h < 256 -> 0 <= h_type h < 256 ->
  0 <= h_packet_id h < 2^16 -> 0 <= h_response_id h < 2^16 ->
  0 <= h_data_length h < 2^16 ->
  header_of_bytes (header_bytes h ++ rest) = h.
Proof.
  intros Hv Ht Hp Hr Hd. destruct h as [v t p r d]. simpl in *.
  unfold header_of_bytes, header_bytes, le16. simpl.
  change (2^16) with 65536 in *.
  unfold slice. simpl. f_equal; Z.div_mod_to_equations; lia.
Qed.

(** ** Device frames *)

Lemma len_header_bytes h : len (header_bytes h) = 8.
Proof. reflexivity. Qed.

Lemma len_le32 v : len (le32 v) = 4.
Proof. reflexivity. Qed.

Lemma len_le16 v : len (le16 v) = 2.
Proof. reflexivity. Qed.

Lemma len_raw_packet hw type pid rid data :
  len (raw_packet hw type pid rid data) = 12 + len data.
Proof. unfold raw_packet. rewrite !len_app, len_header_bytes, len_le32. lia. Qed.

(** A packet that [build_packet] returns is the stuffing of a prefix of the
    raw packet between the markers. *)
Lemma build_packet_prefix hw type pid rid data frame :
  build_packet hw type pid rid data MAX_PACKET_SIZE = Some frame ->
  exists k : nat,
    frame = [START_MARK_1; START_MARK_2]
              ++ spec_escape (take k (raw_packet hw type pid rid data))
              ++ [END_MARK_1; END_MARK_2]
    /\ (k = length (raw_packet hw type pid rid data)
        \/ 508 <= len (spec_escape (take k (raw_packet hw type pid rid data)))).
Proof.
  unfold build_packet. fold (raw_packet hw type pid rid data).
  destruct (MAX_PACKET_SIZE <? 16 + len data * 2); [done|].
  unfold raw_packet at 1.
  destruct (escape_data _ _) as [escaped|] eqn:He; [|done].
  fold (raw_packet hw type pid rid data) in He.
  destruct (MAX_PACKET_SIZE <? 2 + len escaped + 2); [done|].
  intros [= <-]. apply escape_data_from_prefix in He as (k & -> & Hk).
  exists k. split; [done|]. destruct Hk as [Hk|Hk]; [by left|right].
  simpl app in Hk. unfold MAX_PACKET_SIZE in Hk. lia.
Qed.

(** Below 243 bytes of data the packet is never cut. *)
Lemma build_packet_ok hw type pid rid data :
  len data <= 242 ->
  build_packet hw type pid rid data MAX_PACKET_SIZE
  = Some ([START_MARK_1; START_MARK_2]
            ++ spec_escape (raw_packet hw type pid rid data)
            ++ [END_MARK_1; END_MARK_2]).
Proof.
  intros Hlen. unfold build_packet. fold (raw_packet hw type pid rid data).
  pose proof (len_nonneg data).
  unfold MAX_PACKET_SIZE.
  destruct (512 <? 16 + len data * 2) eqn:H1; [lia|].
  pose proof (len_spec_escape_le (raw_packet hw type pid rid data)) as Hle.
  rewrite len_raw_packet in Hle.
  unfold raw_packet at 1. fold (raw_packet hw type pid rid data).
  unfold escape_data. rewrite escape_data_from_spec by (rewrite len_nil; lia).
  simpl app.
  destruct (512 <? 2 + len (spec_escape (raw_packet hw type pid rid data)) + 2) eqn:H2; [lia|].
  reflexivity.
Qed.

Lemma frame_body_stuffed x :
  len x <= MAX_PACKET_SIZE ->
  frame_body ([START_MARK_1; START_MARK_2] ++ spec_escape x ++ [END_MARK_1; END_MARK_2])
  = Some x.
Proof.
  intros Hx. unfold frame_body.
  rewrite bool_decide_eq_true_2 by reflexivity.
  rewrite bool_decide_eq_true_2; cycle 1.
  { rewrite app_assoc. rewrite !length_app. simpl length.
    replace (2 + length (spec_escape x) + 2 - 2)%nat
      with (length ([START_MARK_1; START_MARK_2] ++ spec_escape x)) by (rewrite length_app; simpl; lia).
    apply drop_app_length. }
  simpl andb.
  rewrite (slice_middle [START_MARK_1; START_MARK_2] (spec_escape x) [END_MARK_1; END_MARK_2]).
  - apply (unescape_data_from_spec x []). rewrite len_nil. lia.
  - reflexivity.
  - rewrite !len_app. change (len [START_MARK_1; START_MARK_2]) with 2.
    change (len [END_MARK_1; END_MARK_2]) with 2. lia.
Qed.

Lemma packet_id_of_header_bytes h rest :
  h_packet_id (header_of_bytes (header_bytes h ++ rest)) = h_packet_id h mod 2^16.
Proof.
  destruct h as [v t p r d]. unfold header_of_bytes, header_bytes, le16, slice. simpl.
  change (2^16) with 65536. Z.div_mod_to_equations. lia.
Qed.

(** Every packet [build_packet] returns, cut or not, carries its header. *)
Lemma build_packet_packet_id hw type pid rid data frame :
  build_packet hw type pid rid data MAX_PACKET_SIZE = Some frame ->
  h_packet_id <$> frame_header frame = Some (pid mod 2^16).
Proof.
  intros Hb. pose proof Hb as Hguard.
  apply build_packet_prefix in Hb as (k & -> & Hk).
  unfold build_packet in Hguard.
  destruct (MAX_PACKET_SIZE <? 16 + len data * 2) eqn:Hg; [done|]. clear Hguard.
  unfold MAX_PACKET_SIZE in Hg.
  pose proof (len_raw_packet hw type pid rid data) as Hraw.
  pose proof (len_nonneg data).
  set (raw := raw_packet hw type pid rid data) in *.
  assert (8 <= k)%nat as Hk8.
  { destruct Hk as [->|Hk]; [unfold len in Hraw; lia|].
    pose proof (len_spec_escape_le (take k raw)) as Hle.
    unfold len in Hle, Hk. rewrite length_take in Hle. lia. }
  unfold frame_header. rewrite frame_body_stuffed; cycle 1.
  { pose proof (len_take_le raw k). unfold MAX_PACKET_SIZE. lia. }
  simpl.
  assert (8 <= len (take k raw)) as Hlen.
  { unfold len in *. rewrite length_take. lia. }
  destruct (len (take k raw) <? 8) eqn:H8; [lia|]. simpl. f_equal.
  subst raw. unfold raw_packet. rewrite <- !app_assoc.
  rewrite take_app. rewrite (take_ge (header_bytes _)) by (simpl; lia).
  apply packet_id_of_header_bytes.
Qed.

(** ** Error frames and the packet id counter *)

Lemma len_c_string_le bytes : len (c_string bytes) <= len bytes.
Proof.
  induction bytes as [|b r IH]; [done|]. simpl.
  destruct (b =? 0); rewrite ?len_cons, ?len_nil; pose proof (len_nonneg r); lia.
Qed.

Lemma c_string_idemp bytes : c_string (c_string bytes) = c_string bytes.
Proof.
  induction bytes as [|b r IH]; [done|]. simpl.
  destruct (b =? 0) eqn:Hb; [done|]. simpl. by rewrite Hb, IH.
Qed.

Lemma len_tag2 tag : len (tag2 tag) = 2.
Proof.
  unfold tag2, len. rewrite length_take, length_app. simpl length.
  rewrite Nat.min_l by lia. reflexivity.
Qed.

Lemma take_len l : take (Z.to_nat (len l)) l = l.
Proof. unfold len. rewrite Nat2Z.id. apply firstn_all. Qed.

Lemma write_tlv_string_ok size tag str :
  len str <= 65535 -> 4 + len (c_string str) <= size ->
  write_tlv_string size tag str
  = Some (tag2 tag ++ le16 (len (c_string str)) ++ c_string str).
Proof.
  intros Hs Hsize. unfold write_tlv_string.
  pose proof (len_c_string_le str). pose proof (len_nonneg (c_string str)).
  rewrite Z.mod_small by lia.
  destruct (size <? 4 + len (c_string str)) eqn:H1; [lia|].
  by rewrite take_len.
Qed.

Lemma send_response_packet_counter d packet :
  packet_id_counter (send_response_packet d packet) = packet_id_counter d.
Proof. unfold send_response_packet. by destruct (_ || _). Qed.

Lemma send_response_packet_hw d packet : hw (send_response_packet d packet) = hw d.
Proof. unfold send_response_packet. by destruct (_ || _). Qed.

Lemma send_error_response_counter d rid code desc :
  packet_id_counter (send_error_response d rid code desc).2
  = (error_packet d rid code desc).2.
Proof.
  unfold send_error_response. destruct (error_packet d rid code desc) as [[p|] c]; simpl.
  - by rewrite send_response_packet_counter.
  - done.
Qed.

Lemma send_error_response_hw d rid code desc :
  hw (send_error_response d rid code desc).2 = hw d.
Proof.
  unfold send_error_response. destruct (error_packet d rid code desc) as [[p|] c]; simpl.
  - by rewrite send_response_packet_hw.
  - done.
Qed.

(** A description of at most 230 characters always yields a frame; it
    carries the counter value, and the counter moves on by one. *)
Lemma error_packet_ok d rid code desc :
  len desc <= 230 ->
  exists frame,
    error_packet d rid code desc = (Some frame, (packet_id_counter d + 1) mod 2^16)
    /\ h_packet_id <$> frame_header frame = Some (packet_id_counter d mod 2^16).
Proof.
  intros Hdesc. unfold error_packet.
  pose proof (len_c_string_le desc). pose proof (len_nonneg (c_string desc)).
  unfold write_tlv_uint8. replace (256 <? 5) with false by reflexivity.
  cbn [mbind option_bind].
  set (ec := tag2 TAG_ERROR_CODE ++ le16 1 ++ [code mod 256]).
  assert (len ec = 5) as Hec by (unfold ec; rewrite !len_app, len_tag2; reflexivity).
  assert (exists error_data,
    (if 0 <? len (c_string desc)
     then ed ← write_tlv_string (256 - len ec) TAG_ERROR_DESC desc; Some (ec ++ ed)
     else Some ec) = Some error_data /\ len error_data <= 242) as (error_data & -> & Hlen).
  { destruct (0 <? len (c_string desc)).
    - rewrite write_tlv_string_ok by lia. cbn [mbind option_bind]. eexists. split; [done|].
      rewrite !len_app, len_tag2, len_le16. lia.
    - exists ec. split; [done|lia]. }
  pose proof (build_packet_ok (hw d) PKT_TYPE_SLAVE_ERROR (packet_id_counter d) rid
                               error_data Hlen) as Hb.
  rewrite Hb. eexists. split; [reflexivity|].
  eapply build_packet_packet_id. exact Hb.
Qed.

Lemma error_packets_ids calls : forall d (n : nat) call,
  Forall (fun c : Z * Z * list Z => len c.2 <= 230) calls ->
  calls !! n = Some call ->
  exists frame,
    error_packets d calls !! n = Some (Some frame)
    /\ h_packet_id <$> frame_header frame
       = Some ((packet_id_counter d + Z.of_nat n) mod 2^16).
Proof.
  induction calls as [|[[rid code] desc] calls IH]; intros d n call Hall Hn; [done|].
  apply Forall_cons in Hall as [Hdesc Hall]. simpl in Hdesc.
  destruct (error_packet_ok d rid code desc Hdesc) as (frame & He & Hid).
  destruct n as [|n].
  - exists frame. simpl. rewrite He. split; [done|]. by rewrite Z.add_0_r.
  - simpl in Hn. destruct (IH (send_error_response d rid code desc).2 n call Hall Hn)
      as (frame' & Hf & Hid').
    exists frame'. simpl. split; [done|]. rewrite Hid'.
    rewrite send_error_response_counter, He. simpl. f_equal.
    rewrite Zplus_mod_idemp_l. f_equal. lia.
Qed.

Lemma process_command_packet_id table d packet_data response_id frame d' :
  process_command_packet_with table d packet_data response_id = Done (Some frame, d') ->
  h_packet_id <$> frame_header frame = Some 0x8000.
Proof.
  unfold process_command_packet_with.
  destruct (read_tlv_string _ _ _) as [bytes| |]; [|done|done].
  destruct (find_handler _ _) as [handler|]; [|done].
  destruct (read_tlv_raw _ _ _) as [r| |]; [| |done].
  all: destruct (handler d _) as [[result d1]|]; [|done].
  all: intros [= Hf <-].
  all: destruct (response_payload _ _ _) as [payload|]; [|done]; simpl in Hf.
  all: by apply build_packet_packet_id in Hf.
Qed.

(** ** The dispatcher *)

Lemma len_slice_le buf a b : len (slice buf a b) <= Z.max 0 (b - a).
Proof. unfold slice, len. rewrite length_take. lia. Qed.

Lemma read_tlv_from_accept accept buffer tag v : forall fuel i,
  read_tlv_from fuel accept buffer tag i = Found v ->
  exists length, accept length = true /\ len v <= Z.max 0 length.
Proof.
  induction fuel as [|fuel IH]; intros i; [done|]. simpl.
  destruct (i <? len buffer - 4); [|done].
  destruct (_ && _ && _) eqn:Hc.
  - intros [= <-]. apply andb_prop in Hc as [Hc _]. apply andb_prop in Hc as [_ Hc].
    eexists. split; [exact Hc|].
    etrans; [apply len_slice_le|]. lia.
  - apply IH.
Qed.

Lemma read_tlv_found_size accept buffer tag v :
  read_tlv accept buffer tag = Found v -> 4 <= len buffer.
Proof. unfold read_tlv. destruct (len buffer <? 4) eqn:H; [done|lia]. Qed.

Lemma read_tlv_string_len buffer tag str_size bytes :
  read_tlv_string buffer tag str_size = Found bytes -> 0 < str_size -> len bytes < str_size.
Proof.
  unfold read_tlv_string, read_tlv. destruct (len buffer <? 4); [done|].
  intros H Hs. apply read_tlv_from_accept in H as (length & Ha & Hl). lia.
Qed.

Lemma read_tlv_not_overrun accept buffer tag :
  4 <= len buffer -> read_tlv accept buffer tag <> Overrun.
Proof.
  intros H. unfold read_tlv. destruct (len buffer <? 4) eqn:E; [lia|].
  generalize 0. induction (length buffer) as [|fuel IH]; intros i; [done|]. simpl.
  destruct (i <? len buffer - 4); [|done]. destruct (_ && _ && _); [done|apply IH].
Qed.

Lemma response_payload_ok instruction status response :
  len instruction <= 4 -> c_string instruction = instruction ->
  len response <= 225 ->
  response_payload instruction status response
  = Some (tlv TAG_INSTRUCTION instruction ++ tlv TAG_STATUS [status mod 256]
            ++ (if 0 <? len response then tlv TAG_DATA response else [])).
Proof.
  intros Hi Hc Hr. unfold response_payload.
  pose proof (len_nonneg instruction). pose proof (len_nonneg response).
  rewrite write_tlv_string_ok by (rewrite ?Hc; unfold MAX_DATA_SIZE, MAX_PACKET_SIZE; lia).
  rewrite Hc. cbn [mbind option_bind]. fold (tlv TAG_INSTRUCTION instruction).
  assert (len (tlv TAG_INSTRUCTION instruction) = 4 + len instruction) as Hin
      by (unfold tlv; rewrite !len_app, len_tag2, len_le16; lia).
  unfold write_tlv_uint8, MAX_DATA_SIZE, MAX_PACKET_SIZE. rewrite Hin.
  destruct (512 - 16 - (4 + len instruction) <? 5) eqn:H1; [lia|].
  cbn [mbind option_bind]. change (tag2 TAG_STATUS ++ le16 1 ++ [status mod 256])
    with (tlv TAG_STATUS [status mod 256]).
  destruct (0 <? len response) eqn:H2; [|done].
  unfold write_tlv_raw. rewrite len_app, Hin.
  change (len (tlv TAG_STATUS [status mod 256])) with 5.
  destruct (512 - 16 - (4 + len instruction + 5) <? 4 + len response) eqn:H3; [lia|].
  reflexivity.
Qed.

(** [process_command_packet] over any table: the response frame of a
    request whose instruction is in the table and whose handler returns. *)
Lemma process_command_packet_with_response (table : list (string * CommandHandler)) (d : Device)
    (packet_data : list Z) (response_id : Z) (bytes : list Z)
    (handler : CommandHandler) (result : HandlerResult) (d1 : Device) :
  read_tlv_string packet_data TAG_INSTRUCTION 5 = Found bytes ->
  find_handler table (c_string bytes) = Some handler ->
  handler d (match read_tlv_raw packet_data TAG_DATA MAX_DATA_SIZE with
             | Found request_data => request_data
             | _ => []
             end) = Done (result, d1) ->
  len (response_data result) <= 225 ->
  let instruction := c_string bytes in
  let failed := ret result <? 0 in
  let status := if failed then STATUS_INTERNAL_ERROR else handler_status result in
  let response := if failed then [] else response_data result in
  let payload :=
    tlv TAG_INSTRUCTION instruction ++ tlv TAG_STATUS [status mod 256]
      ++ (if 0 <? len response then tlv TAG_DATA response else []) in
  exists frame crc,
    process_command_packet_with table d packet_data response_id = Done (Some frame, d1)
    /\ frame_body frame
       = Some (header_bytes {| h_version := PROTOCOL_VERSION;
                               h_type := PKT_TYPE_SLAVE_RESPONSE;
                               h_packet_id := 0x8000;
                               h_response_id := response_id;
                               h_data_length := len payload |}
                 ++ payload ++ le32 crc).
Proof.
  intros Hin Hfind Hrun Hsize instruction failed status response payload.
  pose proof (read_tlv_string_len _ _ _ _ Hin ltac:(lia)) as Hlen.
  pose proof (read_tlv_found_size _ _ _ _ Hin) as Hbuf.
  pose proof (len_c_string_le bytes) as Hcs.
  assert (len response <= 225) as Hresp.
  { unfold response. destruct failed; [rewrite len_nil; lia|done]. }
  assert (response_payload instruction status response = Some payload) as Hpayload.
  { apply response_payload_ok; [unfold instruction; lia|apply c_string_idemp|done]. }
  assert (len payload <= 242) as Hpl.
  { unfold payload, tlv. rewrite !len_app, !len_tag2, !len_le16.
    change (len [status mod 256]) with 1. fold instruction.
    destruct (0 <? len response); rewrite ?len_app, ?len_tag2, ?len_le16, ?len_nil;
      unfold instruction; lia. }
  unfold process_command_packet_with. rewrite Hin, Hfind.
  pose proof (read_tlv_not_overrun (fun l => l <=? MAX_DATA_SIZE) packet_data TAG_DATA Hbuf)
    as Hda.
  fold (read_tlv_raw packet_data TAG_DATA MAX_DATA_SIZE) in Hda.
  destruct (read_tlv_raw packet_data TAG_DATA MAX_DATA_SIZE) as [request_data| |];
    [| |done].
  all: rewrite Hrun; fold instruction.
  all: fold failed; fold status; fold response; rewrite Hpayload; cbn [mbind option_bind].
  all: rewrite build_packet_ok by done.
  all: eexists; eexists; (split; [reflexivity|]).
  all: rewrite frame_body_stuffed;
    [unfold raw_packet; by rewrite <- !app_assoc
    |rewrite len_raw_packet; unfold MAX_PACKET_SIZE; lia].
Qed.

(** ** The log query *)

Lemma log_items_break entries : forall log_list_data,
  log_items entries log_list_data = log_list_data.
Proof. destruct entries as [|entry rest]; reflexivity. Qed.

Lemma handle_get_log_empty d request_data result d' :
  handle_get_log d request_data = Done (result, d') ->
  response_data result = tlv TAG_LOG_LIST [] \/ ret result < 0.
Proof.
  unfold handle_get_log.
  destruct (read_or 0 _) as [start_time|]; [|done].
  destruct (read_or 0 _) as [end_time|]; [|done].
  destruct (read_or 100 _) as [max_count|]; [|done].
  rewrite log_items_break. intros [= <- <-]. by left.
Qed.

(** C9, as the code runs it: for the [glog] request with T1 = 1000 and
    T2 = 2000 on the device holding (1500, 22.5) and (2500, 23.0),
    [temp_log_get_entries] finds exactly the entry (1500, 22.5), but
    [handle_get_log] answers an [LG] list without any item: the 16-byte item
    buffer has no room for the temperature after the timestamp, and the loop
    is left at the first entry. *)
Theorem glog_scenario_returns_no_item :
  temp_log_get_entries scenario_device 1000 2000 100
  = [ {| timestamp := 1500; temperature := 0x41B40000 |} ]
  /\ handle_get_log scenario_device scenario_request
     = Done ({| ret := 0; response_data := tlv TAG_LOG_LIST [];
                handler_status := STATUS_OK |}, scenario_device)
  /\ tlv TAG_LOG_LIST []
     <> tlv TAG_LOG_LIST
            (tlv TAG_ALARM_ITEM (tlv TAG_TIMESTAMP (le64 1500)
                                   ++ tlv TAG_TEMPERATURE (le32 0x41B40000))).
Proof. split; [|split]; [vm_compute; reflexivity..|]. vm_compute. discriminate. Qed.

(** ** The reassembler on garbage *)

Lemma find_start_none l : forall k,
  no_start_marker l -> find_start l k = None.
Proof.
  induction l as [|a l IH]; intros k Hl; [done|].
  destruct l as [|b l]; [done|].
  cbn [find_start]. destruct ((a =? 170) && (b =? 85)) eqn:Hab.
  - exfalso. apply andb_prop in Hab as [Ha Hb].
    apply (Hl 0%nat). simpl. split; f_equal; lia.
  - apply IH. intros i Hi. apply (Hl (S i)). exact Hi.
Qed.

(** C7, amended: for every sequence of garbage bytes such that the
    receive buffer with these bytes appended contains no 0xAA 0x55
    start-marker pair, feeding it to the stream reassembler leaves the
    receive buffer empty when it then holds at least 16 bytes, and holding
    all these bytes when it holds fewer; in both cases no frame is delivered
    to the handler and no request is settled. *)
Theorem garbage_is_drained (m : Manager) (garbage : list Z) :
  no_start_marker (responseBuffer m ++ garbage) ->
  let m' := handleReceivedData m garbage in
  responseBuffer m'
  = (if 16 <=? len (responseBuffer m ++ garbage) then []
     else responseBuffer m ++ garbage)
  /\ handled m' = handled m
  /\ promises m' = promises m
  /\ pendingRequests m' = pendingRequests m.
Proof.
  intros Hgarbage. unfold handleReceivedData, tryParsePackets.
  cbn [tryParsePackets_fuel set_responseBuffer responseBuffer].
  destruct (len (responseBuffer m ++ garbage) <? 16) eqn:H16.
  - destruct (16 <=? len (responseBuffer m ++ garbage)) eqn:H16'; [lia|]. done.
  - destruct (16 <=? len (responseBuffer m ++ garbage)) eqn:H16'; [|lia].
    rewrite find_start_none by done. done.
Qed.

(** C7 as stated fails: three bytes of garbage stay in the buffer. *)
Lemma short_garbage_is_kept :
  no_start_marker [1; 2; 3]
  /\ responseBuffer (handleReceivedData (new_manager (Some true)) [1; 2; 3]) = [1; 2; 3]
  /\ responseBuffer (handleReceivedData (new_manager (Some true)) [1; 2; 3]) <> [].
Proof.
  split; [|split; [reflexivity|discriminate]].
  intros i [H1 H2]. destruct i as [|[|[|i]]]; simpl in *; congruence.
Qed.

(** ** The correlator *)

Lemma settle_lookup ps p s q x :
  settle ps p s !! q = Some x -> exists y, ps !! q = Some y.
Proof.
  unfold settle. destruct (ps !! p) as [[]|] eqn:Hp; eauto.
  destruct (decide (p = q)) as [->|Hne].
  - rewrite lookup_insert_eq. eauto.
  - rewrite lookup_insert_ne by done. eauto.
Qed.

Lemma ids_below_set_tables m pending ps ts :
  ids_below m ->
  (forall k pr, pending !! k = Some pr -> pendingRequests m !! k = Some pr) ->
  (forall p s, ps !! p = Some s -> exists s', promises m !! p = Some s') ->
  (forall t c, ts !! t = Some c -> timers m !! t = Some c) ->
  ids_below (set_tables m pending ps ts).
Proof.
  intros (Hp & Hk & Ht) H1 H2 H3. split; [|split]; simpl.
  - intros p s Hs. apply H2 in Hs as [s' Hs']. eauto.
  - intros k pr Hpr. eauto.
  - intros t c Hc. eauto.
Qed.

Lemma lookup_delete_Some_inv `{Countable K} {A} (m : gmap K A) i j x :
  delete i m !! j = Some x -> m !! j = Some x.
Proof. rewrite lookup_delete_Some. tauto. Qed.

Lemma ids_below_handleParsedResponse m response :
  ids_below m -> ids_below (handleParsedResponse m response).
Proof.
  intros Hm. unfold handleParsedResponse.
  set (m1 := {| packetCounter := packetCounter m; device := device m;
                responseBuffer := responseBuffer m; pendingRequests := pendingRequests m;
                promises := promises m; timers := timers m; next_id := next_id m;
                written := written m; handled := handled m ++ [response] |}).
  assert (ids_below m1) as Hm1 by exact Hm.
  destruct (requestKey response) as [key|]; [|done].
  destruct (pendingRequests m1 !! key) as [pr|]; [|done].
  apply ids_below_set_tables; [done|..].
  - intros k pr'. apply lookup_delete_Some_inv.
  - intros p s. apply settle_lookup.
  - intros t c. apply lookup_delete_Some_inv.
Qed.

Lemma ids_below_tryParsePackets fuel : forall m,
  ids_below m -> ids_below (tryParsePackets_fuel fuel m).
Proof.
  induction fuel as [|fuel IH]; intros m Hm; [done|]. simpl.
  destruct (len (responseBuffer m) <? 16); [done|].
  destruct (find_start (responseBuffer m) 0) as [startIndex|]; [|done].
  set (m1 := if 0 <? startIndex then _ else m).
  assert (ids_below m1) as Hm1 by (unfold m1; by destruct (0 <? startIndex)).
  destruct (len (responseBuffer m1) <? 16); [done|].
  destruct (len (responseBuffer m1) <? _); [done|].
  apply IH. apply ids_below_handleParsedResponse. exact Hm1.
Qed.

Lemma ids_below_clearPendingRequests m :
  ids_below m -> ids_below (clearPendingRequests m).
Proof.
  intros Hm. unfold clearPendingRequests. apply ids_below_set_tables; [done|..].
  - intros k pr. by rewrite lookup_empty.
  - apply (map_fold_weak_ind
             (fun ps _ => forall p s, ps !! p = Some s -> exists s', promises m !! p = Some s')).
    + eauto.
    + intros k pr pending ps _ IH p s Hs. apply settle_lookup in Hs as [y Hy]. eauto.
  - apply (map_fold_weak_ind
             (fun ts _ => forall t c, ts !! t = Some c -> timers m !! t = Some c)).
    + eauto.
    + intros k pr pending ts _ IH t c Hc. apply lookup_delete_Some_inv in Hc. eauto.
Qed.

Lemma ids_below_step m m' : ids_below m -> manager_step m m' -> ids_below m'.
Proof.
  intros Hm Hstep.
  destruct Hstep as [m requestData cmd|m t|m t cmd p|m bytes|m connected|m].
  - unfold sendRequest. destruct (device m) as [[]|]; [|done..].
    destruct Hm as (Hp & Hk & Ht). split; [|split]; simpl.
    + intros p s. destruct (decide (next_id m = p)) as [<-|Hne]; [lia|].
      rewrite lookup_insert_ne by done. intros Hs. apply Hp in Hs. lia.
    + intros k pr. destruct (decide (cmd = k)) as [<-|Hne].
      * rewrite lookup_insert_eq. intros [= <-]. simpl. lia.
      * rewrite lookup_insert_ne by done. intros Hpr. apply Hk in Hpr. lia.
    + intros t' c. destruct (decide (next_id m = t')) as [<-|Hne]; [lia|].
      rewrite lookup_insert_ne by done. intros Hc. apply Ht in Hc. lia.
  - unfold timer_fired. destruct (timers m !! t) as [[cmd p]|]; [|done].
    apply ids_below_set_tables; [done|..].
    + intros k pr'. apply lookup_delete_Some_inv.
    + intros q s. apply settle_lookup.
    + intros t' c. apply lookup_delete_Some_inv.
  - unfold write_failed. apply ids_below_set_tables; [done|..].
    + intros k pr'. apply lookup_delete_Some_inv.
    + intros q s. apply settle_lookup.
    + intros t' c. apply lookup_delete_Some_inv.
  - unfold handleReceivedData, tryParsePackets. apply ids_below_tryParsePackets. exact Hm.
  - exact Hm.
  - unfold disconnectDevice. destruct (device m); [|done].
    apply (ids_below_clearPendingRequests m Hm).
Qed.

Lemma reachable_ids_below m : reachable m -> ids_below m.
Proof.
  induction 1 as [connected|m m' _ IH Hstep].
  - split; [|split]; simpl; intros ? ?; by rewrite lookup_empty.
  - by apply (ids_below_step m).
Qed.

(** C1, amended: for every command key, if a request for that command is
    pending on a connected manager, a second call to [sendRequest] for the
    same command succeeds and returns a new promise; it replaces the tracked
    first request under that key without resolving or rejecting it: the
    first promise and its timer are left as they were.  At most one pending
    request per command key is tracked at any time: the keys of the table
    do not change and the other entries are untouched. *)
Theorem second_send_overwrites (m : Manager) (requestData command : list Z)
    (first : PendingRequest) :
  reachable m ->
  device m = Some true ->
  pendingRequests m !! command = Some first ->
  let m' := (sendRequest m requestData command).1 in
  let second := {| pr_promise := next_id m; pr_timeout := next_id m;
                   pr_command := command |} in
  (sendRequest m requestData command).2 = Ok (next_id m)
  /\ pendingRequests m' !! command = Some second
  /\ second <> first
  /\ promises m' !! pr_promise first = promises m !! pr_promise first
  /\ timers m' !! pr_timeout first = timers m !! pr_timeout first
  /\ promises m' !! next_id m = Some Unsettled
  /\ dom (pendingRequests m') = dom (pendingRequests m)
  /\ (forall k, k <> command -> pendingRequests m' !! k = pendingRequests m !! k).
Proof.
  intros Hreach Hdev Hfirst m' second.
  destruct (reachable_ids_below m Hreach) as (Hp & Hk & Ht).
  destruct (Hk _ _ Hfirst) as [Hfp Hft].
  unfold m', sendRequest. rewrite Hdev. simpl.
  split; [done|]. split; [apply lookup_insert_eq|].
  split; [intros <-; simpl in Hfp; lia|].
  split; [apply lookup_insert_ne; lia|].
  split; [apply lookup_insert_ne; lia|].
  split; [apply lookup_insert_eq|].
  split.
  - apply dom_insert_lookup_L. by exists first.
  - intros k Hne. by apply lookup_insert_ne.
Qed.

(** C1 as stated fails: the second [temp] request is accepted. *)
Lemma second_send_is_not_rejected :
  let m0 := new_manager (Some true) in
  let m1 := (sendRequest m0 [] (js "temp")).1 in
  let m2 := (sendRequest m1 [] (js "temp")).1 in
  pendingRequests m1 !! js "temp"
  = Some {| pr_promise := 0; pr_timeout := 0; pr_command := js "temp" |}
  /\ (sendRequest m1 [] (js "temp")).2 = Ok 1%nat
  /\ pendingRequests m2 !! js "temp"
     = Some {| pr_promise := 1; pr_timeout := 1; pr_command := js "temp" |}
  /\ promises m2 !! 0%nat = Some Unsettled
  /\ promises m2 !! 1%nat = Some Unsettled.
Proof. vm_compute. repeat split; reflexivity. Qed.

(** ** The ping frame *)

(** C2 as stated fails: the frame has 28 bytes and its length field is 0x0C. *)
Lemma ping_frame_is_not_18_bytes :
  exists frame,
    createPingRequest 0 = (Ok frame, 1)
    /\ length frame <> 18%nat
    /\ slice frame 8 10 <> [0x06; 0x00].
Proof. exists ping_frame. vm_compute. repeat split; discriminate. Qed.

(** C2, amended: encoding a ping request when the packet counter assigns
    packet number 1 produces a v2 frame that is exactly 28 bytes long, laid
    out as AA 55 02 00 01 00 00 00 0C 00, the IN TLV carrying the 4 bytes
    of ping, an empty DA TLV, the 4-byte CRC32 of bytes 2..21 and 55 AA;
    read back, the frame has type 0x00 and packet number 1, and its payload
    decodes to the TLV sequence IN = ping, DA = []. *)
Theorem ping_frame_layout :
  createPingRequest 0 = (Ok ping_frame, 1)
  /\ length ping_frame = 28%nat
  /\ ping_frame
     = [0xAA; 0x55; 0x02; 0x00; 0x01; 0x00; 0x00; 0x00; 0x0C; 0x00]
         ++ ([0x49; 0x4E; 0x04; 0x00] ++ js "ping") ++ [0x44; 0x41; 0x00; 0x00]
         ++ le32 (spec_crc32 (slice ping_frame 2 22)) ++ [0x55; 0xAA]
  /\ nth 3 ping_frame 0 = 0x00
  /\ getUint16 ping_frame 4 = Ok 1
  /\ decode_loop (decodeTLV (slice ping_frame 10 22)) 13 12 0 []
     = Ok [(js "IN", VStr (js "ping")); (js "DA", VArr [])].
Proof. vm_compute. repeat split; reflexivity. Qed.

(** The frame above is nevertheless refused by [decodePacket]: its CRC has
    the top bit set, [calculateCRC32] returns it as a negative number and the
    comparison with the unsigned field read from the frame fails. *)
Lemma ping_frame_is_refused :
  calculateCRC32 (slice ping_frame 2 22) = 0xC01209BA - 2^32
  /\ getUint32 ping_frame 22 = Ok 0xC01209BA
  /\ decodePacket ping_frame = Throw CRC32Mismatch.
Proof. vm_compute. repeat split; reflexivity. Qed.

(** ** CRC32: the table-driven loop against the bitwise definition *)

Lemma lxor_mod_pow2 a b n :
  0 <= n -> Z.lxor a b mod 2^n = Z.lxor (a mod 2^n) (b mod 2^n).
Proof.
  intros Hn. apply Z.bits_inj'. intros i Hi. rewrite Z.lxor_spec.
  destruct (Z.lt_ge_cases i n).
  - rewrite !Z.mod_pow2_bits_low by lia. apply Z.lxor_spec.
  - rewrite !Z.mod_pow2_bits_high by lia. reflexivity.
Qed.

Lemma ToInt32_mod x : ToInt32 x mod 2^32 = x mod 2^32.
Proof.
  unfold ToInt32. rewrite Zminus_mod_idemp_l. f_equal. lia.
Qed.

Lemma ToInt32_small x : 0 <= x < 2^31 -> ToInt32 x = x.
Proof. intros H. unfold ToInt32. rewrite Z.mod_small; lia. Qed.

Lemma js_xor_mod a b : js_xor a b mod 2^32 = Z.lxor (a mod 2^32) (b mod 2^32).
Proof.
  unfold js_xor. rewrite lxor_mod_pow2 by lia. by rewrite !ToInt32_mod.
Qed.

Lemma js_ushr_0 x : js_ushr x 0 = x mod 2^32.
Proof. unfold js_ushr, ToUint32. apply Z.div_1_r. Qed.

Lemma js_shl_mod a n : 0 <= n -> js_shl a n mod 2^32 = (a * 2^n) mod 2^32.
Proof.
  intros Hn. unfold js_shl. rewrite ToInt32_mod.
  rewrite <- Zmult_mod_idemp_l, ToInt32_mod, Zmult_mod_idemp_l. reflexivity.
Qed.

Lemma double_bits x n : 0 <= n -> Z.testbit (2 * x) n = Z.testbit x (n - 1).
Proof.
  intros Hn. rewrite Z.mul_comm. change 2 with (2^1). by rewrite Z.mul_pow2_bits by lia.
Qed.

(** The shift register is linear over GF(2). *)
Lemma spec_crc_bit_lxor x y :
  spec_crc_bit (Z.lxor x y) = Z.lxor (spec_crc_bit x) (spec_crc_bit y).
Proof.
  assert ((2 * Z.lxor x y) mod 2^32
          = Z.lxor ((2 * x) mod 2^32) ((2 * y) mod 2^32)) as Hshift.
  { rewrite <- lxor_mod_pow2 by lia. f_equal.
    apply Z.bits_inj'. intros n Hn.
    rewrite Z.lxor_spec, !double_bits, Z.lxor_spec by lia. reflexivity. }
  unfold spec_crc_bit. rewrite Hshift, Z.lxor_spec.
  destruct (Z.testbit x 31), (Z.testbit y 31); simpl xorb;
    apply Z.bits_inj'; intros n Hn; rewrite ?Z.lxor_spec;
    destruct (Z.testbit _ n), (Z.testbit _ n), (Z.testbit 79764919 n); reflexivity.
Qed.

Lemma iter_spec_crc_bit_lxor k x y :
  Nat.iter k spec_crc_bit (Z.lxor x y)
  = Z.lxor (Nat.iter k spec_crc_bit x) (Nat.iter k spec_crc_bit y).
Proof.
  induction k as [|k IH]; [done|]. simpl. by rewrite IH, spec_crc_bit_lxor.
Qed.

Lemma testbit_small x n : 0 <= x < 2^n -> Z.testbit x n = false.
Proof.
  intros [H0 Hn]. destruct (Z.eq_dec x 0) as [->|Hx]; [apply Z.bits_0|].
  apply Z.bits_above_log2; [done|]. apply Z.log2_lt_pow2; lia.
Qed.

Lemma iter_spec_crc_bit_low (k : nat) l :
  0 <= l -> l * 2^Z.of_nat k < 2^32 ->
  Nat.iter k spec_crc_bit l = l * 2^Z.of_nat k.
Proof.
  intros Hl. induction k as [|k IH]; intros Hk.
  - simpl. lia.
  - rewrite Nat2Z.inj_succ, Z.pow_succ_r in * by lia.
    simpl. rewrite IH by lia. unfold spec_crc_bit.
    rewrite testbit_small by (change (2^32) with (2 * 2^31) in Hk; nia).
    rewrite Z.mod_small by nia. lia.
Qed.

Lemma split_bits x n :
  0 <= n -> Z.lxor ((x / 2^n) * 2^n) (x mod 2^n) = x.
Proof.
  intros Hn. apply Z.bits_inj'. intros i Hi. rewrite Z.lxor_spec.
  destruct (Z.lt_ge_cases i n).
  - rewrite Z.mul_pow2_bits_low, Z.mod_pow2_bits_low by lia. reflexivity.
  - rewrite Z.mul_pow2_bits, Z.mod_pow2_bits_high, Z.div_pow2_bits by lia.
    rewrite xorb_false_r. f_equal. lia.
Qed.

Lemma lxor_mul_pow2 a b n :
  0 <= n -> Z.lxor a b * 2^n = Z.lxor (a * 2^n) (b * 2^n).
Proof. intros Hn. rewrite <- !Z.shiftl_mul_pow2 by done. apply Z.shiftl_lxor. Qed.

Lemma crc32Table_init : crc32Table = map (fun i => table_entry (Z.of_nat i)) (seq 0 256).
Proof. vm_compute. reflexivity. Qed.

Lemma crc32Table_spec h :
  0 <= h < 256 ->
  nth (Z.to_nat h) crc32Table 0 = Nat.iter 8 spec_crc_bit (h * 2^24).
Proof.
  intros Hh.
  assert (forallb (fun i => nth i crc32Table 0
                            =? Nat.iter 8 spec_crc_bit (Z.of_nat i * 2^24))
                  (seq 0 256) = true) as Hall by (vm_compute; reflexivity).
  rewrite forallb_forall in Hall. specialize (Hall (Z.to_nat h)).
  rewrite Z2Nat.id in Hall by lia. apply Z.eqb_eq, Hall, in_seq. lia.
Qed.

Lemma crc_update_spec crc b :
  0 <= crc < 2^32 -> 0 <= b < 256 ->
  crc_update crc b = spec_crc_byte crc b.
Proof.
  intros Hcrc Hb. unfold crc_update, spec_crc_byte.
  set (h := Z.lxor (crc / 2^24) b).
  assert (0 <= crc / 2^24 < 256) as Hhi.
  { clear -Hcrc. zdm. }
  assert (0 <= h < 256) as Hh.
  { unfold h. rewrite <- (Z.mod_small (crc / 2^24) (2^8)), <- (Z.mod_small b (2^8)) by zlia.
    rewrite <- lxor_mod_pow2 by zlia. apply Z.mod_pos_bound. zlia. }
  assert (js_and (js_xor (js_ushr crc 24) b) 255 = h) as ->.
  { unfold js_and, js_xor, js_ushr, ToUint32. rewrite (Z.mod_small crc) by zlia.
    rewrite (ToInt32_small (crc / 2^24)), (ToInt32_small b), (ToInt32_small 255) by zlia.
    fold h.
    rewrite (ToInt32_small h) by zlia. change 255 with (Z.ones 8).
    rewrite Z.land_ones by zlia. apply Z.mod_small. zlia. }
  rewrite crc32Table_spec by done.
  rewrite js_ushr_0, js_xor_mod, js_shl_mod by lia.
  set (l := crc mod 2^24).
  assert (0 <= l < 2^24) as Hl by (apply Z.mod_pos_bound; lia).
  assert ((crc * 2^8) mod 2^32 = l * 2^8) as ->.
  { unfold l. pose proof (Z.div_mod crc (2^24) ltac:(zlia)) as Hdm.
    rewrite Hdm at 1.
    replace ((2^24 * (crc / 2^24) + crc mod 2^24) * 2^8)
      with (crc mod 2^24 * 2^8 + (crc / 2^24) * 2^32) by (change (2^32) with (2^24 * 2^8); lia).
    rewrite Z_mod_plus_full. apply Z.mod_small. fold l. zlia. }
  assert (Z.lxor crc (b * 2^24) = Z.lxor (h * 2^24) l) as ->.
  { unfold h, l. rewrite lxor_mul_pow2 by lia.
    transitivity (Z.lxor (Z.lxor (crc / 2^24 * 2^24) (crc mod 2^24)) (b * 2^24));
      [by rewrite split_bits by lia|].
    apply Z.bits_inj'. intros n Hn. rewrite !Z.lxor_spec.
    destruct (Z.testbit (crc / 2^24 * 2^24) n), (Z.testbit (crc mod 2^24) n),
      (Z.testbit (b * 2^24) n); reflexivity. }
  rewrite iter_spec_crc_bit_lxor.
  rewrite (iter_spec_crc_bit_low 8 l) by zlia.
  change (2 ^ Z.of_nat 8) with (2^8).
  rewrite Z.lxor_comm. f_equal. apply Z.mod_small.
  clear -Hh. 
  assert (forall k x, 0 <= x < 2^32 -> 0 <= Nat.iter k spec_crc_bit x < 2^32) as Hrange.
  { induction k as [|k IH]; intros x Hx; [done|]. simpl.
    specialize (IH x Hx). unfold spec_crc_bit.
    pose proof (Z.mod_pos_bound (2 * Nat.iter k spec_crc_bit x) (2^32) ltac:(zlia)) as Hm.
    destruct (Z.testbit _ 31); [|done].
    rewrite <- (Z.mod_small 79764919 (2^32)) by zlia.
    rewrite <- (Z.mod_mod (2 * _) (2^32)) by zlia.
    rewrite <- lxor_mod_pow2 by zlia. apply Z.mod_pos_bound. zlia. }
  apply Hrange. zlia.
Qed.

(** ** binary32 round trip *)

Lemma lowest_terms_shift (k : nat) : forall (m : positive) (e : Z),
  Z.odd (Zpos m) = true -> e + Z.of_nat k < 0 ->
  lowest_terms (Pos.iter xO m (Pos.of_succ_nat k)) (e - 1) = (m, e + Z.of_nat k).
Proof.
  induction k as [|k IH]; intros m e Hodd He.
  - simpl. destruct (e - 1 <? 0) eqn:H; [|lia].
    replace (e - 1 + 1) with e by lia. rewrite Z.add_0_r.
    destruct m; try done.
  - rewrite SuccNat2Pos.inj_succ, Pos.iter_succ. cbn [lowest_terms].
    destruct (e - 1 <? 0) eqn:H; [|lia].
    replace (e - 1 + 1) with (e + 1 - 1) by lia.
    rewrite IH by (first [done | lia]). f_equal. lia.
Qed.

Lemma Zpos_iter_xO m (k : positive) : Zpos (Pos.iter xO m k) = Zpos m * 2 ^ Zpos k.
Proof.
  induction k as [|k IH] using Pos.peano_ind.
  - simpl. lia.
  - rewrite Pos.iter_succ, Pos2Z.inj_xO, IH, Pos2Z.inj_succ, Z.pow_succ_r by lia. lia.
Qed.

(** [±q·2^e1] with [q = m·2^k], [m] odd, is [±m·2^(e1+k)]. *)
Lemma number_of_dyadic_shift neg (m : positive) (k e1 : Z) (q : positive) :
  Z.odd (Zpos m) = true -> 0 <= k -> e1 + k < 0 ->
  Zpos q = Zpos m * 2^k ->
  number_of_dyadic neg q e1 = NFrac neg m (e1 + k).
Proof.
  intros Hodd Hk He Hq. unfold number_of_dyadic.
  destruct (Z.eq_dec k 0) as [->|Hk0].
  - rewrite Z.mul_1_r in Hq. injection Hq as ->. rewrite Z.add_0_r in *.
    assert (lowest_terms m e1 = (m, e1)) as -> by (destruct m; done).
    destruct (e1 <? 0) eqn:H; [done|exfalso; lia].
  - destruct k as [|k|k]; try lia.
    rewrite <- Zpos_iter_xO in Hq. injection Hq as ->.
    assert (exists j : nat, k = Pos.of_succ_nat j) as [j ->].
    { exists (Nat.pred (Pos.to_nat k)). rewrite <- (Pos2Nat.id k) at 1.
      pose proof (Pos2Nat.is_pos k).
      destruct (Pos.to_nat k) eqn:E; [lia|]. simpl. by rewrite Pos.of_nat_succ. }
    rewrite Zpos_P_of_succ_nat in *. unfold Z.succ in *.
    replace e1 with (e1 + 1 - 1) at 1 by lia.
    rewrite lowest_terms_shift by (first [done | lia]).
    replace (e1 + 1 + Z.of_nat j) with (e1 + (Z.of_nat j + 1)) by lia.
    destruct (e1 + (Z.of_nat j + 1) <? 0) eqn:H; [done|exfalso; lia].
Qed.

Lemma bitlen_bound m n : 0 < m -> 0 <= n -> (bitlen m <= n <-> m < 2^n).
Proof.
  intros Hm Hn. unfold bitlen. rewrite Z.log2_lt_pow2 by done. lia.
Qed.

Lemma bitlen_mul_pow2 m k : 0 < m -> 0 <= k -> bitlen (m * 2^k) = bitlen m + k.
Proof. intros Hm Hk. unfold bitlen. rewrite Z.log2_mul_pow2 by lia. lia. Qed.

Lemma bitlen_pos m : 0 < m -> 0 < bitlen m.
Proof. intros Hm. unfold bitlen. pose proof (Z.log2_nonneg m). lia. Qed.

Lemma f32_fields neg ex fr :
  0 <= ex < 256 -> 0 <= fr < 2^23 ->
  let bits := sign_bit neg + ex * 2^23 + fr in
  0 <= bits < 2^32
  /\ (2^31 <=? bits) = neg
  /\ (bits / 2^23) mod 256 = ex
  /\ bits mod 2^23 = fr.
Proof.
  intros Hex Hfr bits. subst bits.
  destruct neg; unfold sign_bit; pow2.
  - split; [lia|]. split; [apply Z.leb_le; lia|]. split; Z.div_mod_to_equations; lia.
  - split; [lia|]. split; [apply Z.leb_gt; lia|]. split; Z.div_mod_to_equations; lia.
Qed.

(** A non-integral number that binary32 represents exactly is written and
    read back unchanged. *)
Lemma f32_roundtrip neg (m : positive) (e : Z) :
  Z.odd (Zpos m) = true -> Zpos m < 2^24 -> -149 <= e < 0 ->
  0 <= f32_bits_of_dyadic neg (Zpos m) e < 2^32
  /\ f32_number (f32_bits_of_dyadic neg (Zpos m) e) = NFrac neg m e.
Proof.
  intros Hodd Hm He. unfold f32_bits_of_dyadic.
  assert (0 < bitlen (Zpos m) <= 24) as Hd.
  { split; [apply bitlen_pos; lia|]. apply bitlen_bound; lia. }
  set (e1 := Z.max (e + bitlen (Zpos m) - 24) (-149)).
  assert (-149 <= e1 <= e) as He1 by (unfold e1; lia).
  assert (e1 = -149 \/ e1 = e + bitlen (Zpos m) - 24) as He1' by (unfold e1; lia).
  destruct (e1 <=? e) eqn:Hle; [|exfalso; lia].
  set (q := Zpos m * 2^(e - e1)).
  assert (0 < 2^(e - e1)) as Hpow by (apply Z.pow_pos_nonneg; lia).
  assert (0 < q) as Hq0 by (unfold q; nia).
  assert (bitlen q = bitlen (Zpos m) + (e - e1)) as Hbl
      by (unfold q; apply bitlen_mul_pow2; lia).
  assert (q < 2^24) as Hq24 by (apply bitlen_bound; lia).
  assert (q = Zpos m * 2^(e - e1)) as Hqdef by reflexivity.
  clearbody q. clearbody e1. clear Hpow.
  assert ((q =? 2^24) = false) as -> by (apply Z.eqb_neq; lia).
  assert (exists qp, q = Zpos qp) as [qp Hqp] by (destruct q; try lia; eauto).
  destruct (q <? 2^23) eqn:H23.
  - (* subnormal *)
    apply Z.ltb_lt in H23.
    assert (e1 = -149) as He149.
    { assert (bitlen q <= 23) by (apply bitlen_bound; lia). lia. }
    destruct (f32_fields neg 0 q) as (Hr & Hs & Hx & Hf); [lia|lia|].
    rewrite Z.mul_0_l, Z.add_0_r in Hr, Hs, Hx, Hf.
    split; [exact Hr|]. unfold f32_number. rewrite Hs, Hx, Hf.
    replace (0 =? 255) with false by reflexivity.
    replace (0 =? 0) with true by reflexivity. rewrite Hqp.
    rewrite (number_of_dyadic_shift neg m (e - e1) (-149) qp);
      [f_equal; lia | done | lia | lia | rewrite <- Hqp, Hqdef; by rewrite He149].
  - (* normal *)
    apply Z.ltb_ge in H23.
    assert ((254 <? e1 + 150) = false) as -> by (apply Z.ltb_ge; lia).
    destruct (f32_fields neg (e1 + 150) (q - 2^23)) as (Hr & Hs & Hx & Hf);
      [lia|clear -H23 Hq24; zlia|].
    split; [exact Hr|]. unfold f32_number. rewrite Hs, Hx, Hf.
    assert ((e1 + 150 =? 255) = false) as -> by (apply Z.eqb_neq; lia).
    assert ((e1 + 150 =? 0) = false) as -> by (apply Z.eqb_neq; lia).
    replace (2^23 + (q - 2^23)) with q by lia. rewrite Hqp.
    rewrite (number_of_dyadic_shift neg m (e - e1) (e1 + 150 - 150) qp);
      [f_equal; lia | done | lia | lia | by rewrite <- Hqp, Hqdef].
Qed.

Lemma f32_special_roundtrip x :
  match x with NInf _ | NNaN => True | _ => False end ->
  0 <= f32_bits x < 2^32 /\ f32_number (f32_bits x) = x.
Proof. destruct x as [| | [] |]; try done; intros _; vm_compute; split; try split; congruence. Qed.

(** ** UTF-8 round trip *)

Lemma land_mask x (k : Z) : 0 <= k -> Z.land x (2^k - 1) = x mod 2^k.
Proof.
  intros Hk. rewrite <- Z.land_ones by done. f_equal.
  rewrite Z.ones_equiv. lia.
Qed.

Lemma lor_shift_add x y k :
  0 <= k -> 0 <= y < 2^k -> Z.lor (x * 2^k) y = x * 2^k + y.
Proof.
  intros Hk Hy.
  assert (Z.land (x * 2^k) y = 0) as Hdisjoint.
  { apply Z.bits_inj'. intros n Hn. rewrite Z.land_spec, Z.bits_0.
    destruct (Z.lt_ge_cases n k).
    - by rewrite Z.mul_pow2_bits_low by lia.
    - rewrite andb_comm. destruct (Z.eq_dec y 0) as [->|Hy0]; [by rewrite Z.bits_0|].
      rewrite Z.bits_above_log2; [done|lia|].
      apply Z.log2_lt_pow2; [lia|]. apply Z.lt_le_trans with (2^k); [lia|].
      apply Z.pow_le_mono_r; lia. }
  rewrite <- Z.lxor_lor by done. symmetry. by apply Z.add_nocarry_lxor.
Qed.

Lemma utf8_decode_ascii cp lo up b r :
  b <= 0x7F -> utf8_decode cp 0 lo up (b :: r) = b :: utf8_start r.
Proof.
  intros Hb. cbn [utf8_decode]. replace (0 =? 0) with true by reflexivity.
  by assert ((b <=? 127) = true) as -> by (apply Z.leb_le; lia).
Qed.

Lemma utf8_decode_lead2 cp lo up b r :
  0xC2 <= b <= 0xDF ->
  utf8_decode cp 0 lo up (b :: r) = utf8_decode (Z.land b 0x1F) 1 0x80 0xBF r.
Proof.
  intros Hb. cbn [utf8_decode]. replace (0 =? 0) with true by reflexivity.
  assert ((b <=? 127) = false) as -> by (apply Z.leb_gt; lia).
  assert ((194 <=? b) = true) as -> by (apply Z.leb_le; lia).
  by assert ((b <=? 223) = true) as -> by (apply Z.leb_le; lia).
Qed.

Lemma utf8_decode_lead3 cp lo up b r :
  0xE0 <= b <= 0xEF ->
  utf8_decode cp 0 lo up (b :: r)
  = utf8_decode (Z.land b 0xF) 2 (if b =? 0xE0 then 0xA0 else 0x80)
                (if b =? 0xED then 0x9F else 0xBF) r.
Proof.
  intros Hb. cbn [utf8_decode]. replace (0 =? 0) with true by reflexivity.
  assert ((b <=? 127) = false) as -> by (apply Z.leb_gt; lia).
  assert ((194 <=? b) = true) as -> by (apply Z.leb_le; lia).
  assert ((b <=? 223) = false) as -> by (apply Z.leb_gt; lia).
  assert ((224 <=? b) = true) as -> by (apply Z.leb_le; lia).
  by assert ((b <=? 239) = true) as -> by (apply Z.leb_le; lia).
Qed.

Lemma utf8_decode_lead4 cp lo up b r :
  0xF0 <= b <= 0xF4 ->
  utf8_decode cp 0 lo up (b :: r)
  = utf8_decode (Z.land b 0x7) 3 (if b =? 0xF0 then 0x90 else 0x80)
                (if b =? 0xF4 then 0x8F else 0xBF) r.
Proof.
  intros Hb. cbn [utf8_decode]. replace (0 =? 0) with true by reflexivity.
  assert ((b <=? 127) = false) as -> by (apply Z.leb_gt; lia).
  assert ((194 <=? b) = true) as -> by (apply Z.leb_le; lia).
  assert ((b <=? 223) = false) as -> by (apply Z.leb_gt; lia).
  assert ((224 <=? b) = true) as -> by (apply Z.leb_le; lia).
  assert ((b <=? 239) = false) as -> by (apply Z.leb_gt; lia).
  assert ((240 <=? b) = true) as -> by (apply Z.leb_le; lia).
  by assert ((b <=? 244) = true) as -> by (apply Z.leb_le; lia).
Qed.

Lemma utf8_decode_last cp lo up b r :
  lo <= b <= up ->
  utf8_decode cp 1 lo up (b :: r) = Z.lor (cp * 64) (Z.land b 0x3F) :: utf8_start r.
Proof.
  intros Hb. cbn [utf8_decode]. replace (1 =? 0) with false by reflexivity.
  assert ((lo <=? b) = true) as -> by (apply Z.leb_le; lia).
  by assert ((b <=? up) = true) as -> by (apply Z.leb_le; lia).
Qed.

Lemma utf8_decode_continue cp needed lo up b r :
  1 < needed -> lo <= b <= up ->
  utf8_decode cp needed lo up (b :: r)
  = utf8_decode (Z.lor (cp * 64) (Z.land b 0x3F)) (needed - 1) 0x80 0xBF r.
Proof.
  intros Hn Hb. cbn [utf8_decode].
  assert ((needed =? 0) = false) as -> by (apply Z.eqb_neq; lia).
  assert ((lo <=? b) = true) as -> by (apply Z.leb_le; lia).
  assert ((b <=? up) = true) as -> by (apply Z.leb_le; lia).
  by assert ((needed =? 1) = false) as -> by (apply Z.eqb_neq; lia).
Qed.

(** One continuation byte appends six bits. *)
Lemma continuation_bits cp x :
  0 <= x < 64 -> Z.lor (cp * 64) (Z.land (0x80 + x) 0x3F) = cp * 64 + x.
Proof.
  intros Hx. change 0x3F with (2^6 - 1). rewrite land_mask by lia.
  change 64 with (2^6) at 1. rewrite lor_shift_add.
  - f_equal. zdm.
  - lia.
  - apply Z.mod_pos_bound. lia.
Qed.

Lemma utf8_decode_code_point cp r :
  0 <= cp < 0x110000 -> ~ (0xD800 <= cp < 0xE000) ->
  utf8_start (utf8_of_code_point cp ++ r) = cp :: utf8_start r.
Proof.
  intros Hcp Hsur. unfold utf8_of_code_point.
  destruct (cp <? 128) eqn:H1; [apply Z.ltb_lt in H1|apply Z.ltb_ge in H1].
  { apply utf8_decode_ascii. lia. }
  destruct (cp <? 2048) eqn:H2; [apply Z.ltb_lt in H2|apply Z.ltb_ge in H2].
  { cbn [app]. rewrite utf8_decode_lead2 by zdm.
    rewrite utf8_decode_last by zdm.
    rewrite continuation_bits by zdm. f_equal.
    change 0x1F with (2^5 - 1). rewrite land_mask by lia. zdm. }
  destruct (cp <? 65536) eqn:H3; [apply Z.ltb_lt in H3|apply Z.ltb_ge in H3].
  { cbn [app]. rewrite utf8_decode_lead3 by zdm.
    rewrite utf8_decode_continue; [|lia|].
    - rewrite utf8_decode_last by zdm.
      rewrite !continuation_bits by zdm. f_equal.
      change 0xF with (2^4 - 1). rewrite land_mask by lia. zdm.
    - destruct (224 + cp / 4096 =? 224) eqn:E0; [apply Z.eqb_eq in E0|apply Z.eqb_neq in E0];
        (destruct (224 + cp / 4096 =? 237) eqn:ED;
         [apply Z.eqb_eq in ED|apply Z.eqb_neq in ED]); zdm. }
  cbn [app]. rewrite utf8_decode_lead4 by zdm.
  rewrite utf8_decode_continue; [|lia|].
  - rewrite utf8_decode_continue by zdm.
    rewrite utf8_decode_last by zdm.
    rewrite !continuation_bits by zdm. f_equal.
    change 0x7 with (2^3 - 1). rewrite land_mask by lia. zdm.
  - destruct (240 + cp / 262144 =? 240) eqn:E0; [apply Z.eqb_eq in E0|apply Z.eqb_neq in E0];
      (destruct (240 + cp / 262144 =? 244) eqn:E4;
       [apply Z.eqb_eq in E4|apply Z.eqb_neq in E4]); zdm.
Qed.

Lemma utf16_of_bmp cp : cp < 0x10000 -> utf16_of_code_point cp = [cp].
Proof.
  intros H. unfold utf16_of_code_point.
  by assert ((cp <? 65536) = true) as -> by (apply Z.ltb_lt; lia).
Qed.

Lemma surrogate_bounds c :
  (is_high_surrogate c = true <-> 0xD800 <= c < 0xDC00)
  /\ (is_low_surrogate c = true <-> 0xDC00 <= c < 0xE000).
Proof. unfold is_high_surrogate, is_low_surrogate. lia. Qed.

Lemma utf16_of_pair c d :
  0xD800 <= c < 0xDC00 -> 0xDC00 <= d < 0xE000 ->
  utf16_of_code_point (0x10000 + (c - 0xD800) * 1024 + (d - 0xDC00)) = [c; d].
Proof.
  intros Hc Hd. unfold utf16_of_code_point.
  assert ((65536 + (c - 55296) * 1024 + (d - 56320) <? 65536) = false) as ->
      by (apply Z.ltb_ge; lia).
  f_equal; [|f_equal]; zdm.
Qed.

(** Decoding the encoding of a well-formed string gives its code points
    back, as code units. *)
Lemma utf8_roundtrip (n : nat) : forall s,
  (length s <= n)%nat -> well_formed s = true ->
  concat (map utf16_of_code_point (utf8_start (TextEncoder_encode s))) = s.
Proof.
  induction n as [|n IH]; intros s Hlen Hwf.
  { destruct s; [done|simpl in Hlen; lia]. }
  destruct s as [|c r]; [done|].
  cbn [well_formed TextEncoder_encode] in *.
  destruct (surrogate_bounds c) as [Hhi Hlo].
  destruct (is_high_surrogate c) eqn:Hh.
  - destruct r as [|d r']; [done|].
    destruct (surrogate_bounds d) as [_ Hlo'].
    destruct (is_low_surrogate d) eqn:Hl; [|done]. simpl in Hwf.
    rewrite utf8_decode_code_point by lia.
    cbn [map concat]. rewrite utf16_of_pair by lia.
    cbn [app]. f_equal. f_equal. apply IH; [simpl in Hlen; lia|done].
  - destruct (is_low_surrogate c) eqn:Hl; [done|]. simpl in Hwf.
    apply andb_prop in Hwf as [Hwf Hr]. apply andb_prop in Hwf as [H0 H1].
    assert (~ 0xD800 <= c < 0xDC00) by (intros Hx; apply Hhi in Hx; done).
    assert (~ 0xDC00 <= c < 0xE000) by (intros Hx; apply Hlo in Hx; done).
    rewrite utf8_decode_code_point by lia.
    cbn [map concat]. rewrite utf16_of_bmp by lia.
    cbn [app]. f_equal. apply IH; [simpl in Hlen; lia|done].
Qed.

(** The encoding starts with EF BB BF only when the string starts with
    U+FEFF. *)
Lemma encode_no_bom s :
  well_formed s = true -> head s <> Some 0xFEFF ->
  take 3 (TextEncoder_encode s) <> [0xEF; 0xBB; 0xBF].
Proof.
  intros Hwf Hhead. destruct s as [|c r]; [done|].
  cbn [well_formed TextEncoder_encode] in *.
  destruct (surrogate_bounds c) as [Hhi Hlo].
  destruct (is_high_surrogate c) eqn:Hh.
  - destruct r as [|d r']; [done|].
    destruct (surrogate_bounds d) as [_ Hlo'].
    destruct (is_low_surrogate d) eqn:Hl; [|done].
    unfold utf8_of_code_point.
    assert (0xD800 <= c < 0xDC00) as Hc by (by apply Hhi).
    assert (0xDC00 <= d < 0xE000) as Hd by (by apply Hlo').
    destruct (_ <? 128) eqn:H1; [exfalso; lia|].
    destruct (_ <? 2048) eqn:H2; [exfalso; lia|].
    destruct (_ <? 65536) eqn:H3; [exfalso; lia|].
    cbn [app take]. intros [= Hb _ _]. revert Hb. zdm.
  - destruct (is_low_surrogate c) eqn:Hl; [done|]. simpl in Hwf.
    apply andb_prop in Hwf as [Hwf Hr]. apply andb_prop in Hwf as [H0 H1].
    unfold utf8_of_code_point.
    destruct (c <? 128) eqn:E1.
    { cbn [app take]. destruct (TextEncoder_encode r) as [|? [|? ?]];
        cbn [take]; intros [= Hb]; lia. }
    destruct (c <? 2048) eqn:E2.
    { cbn [app take]. destruct (TextEncoder_encode r) as [|? ?];
        cbn [take]; intros [= Hb]; revert Hb; zdm. }
    destruct (c <? 65536) eqn:E3; [|exfalso; lia].
    cbn [app take]. intros [= Hb1 Hb2 Hb3]. apply Hhead. simpl. f_equal.
    revert Hb1 Hb2 Hb3. zdm.
Qed.

Lemma TextDecoder_TextEncoder s :
  plain_string s = true -> TextDecoder_decode (TextEncoder_encode s) = s.
Proof.
  unfold plain_string. intros Hs. apply andb_prop in Hs as [Hwf Hbom].
  apply negb_true_iff, bool_decide_eq_false in Hbom.
  unfold TextDecoder_decode.
  rewrite bool_decide_eq_false_2 by (by apply encode_no_bom).
  by apply (utf8_roundtrip (length s)).
Qed.

(** ** TLV round trip *)

Lemma value_ind' (P : value -> Prop) :
  P VUndef -> (forall s, P (VStr s)) -> (forall x, P (VNum x)) ->
  (forall items, Forall (fun item : list Z * value => P item.2) items -> P (VArr items)) ->
  forall v, P v.
Proof.
  intros Hu Hs Hn Ha. fix IH 1. intros [|s|x|items]; [done..|].
  apply Ha. induction items as [|[t v] items IHitems]; constructor; [apply IH|done].
Qed.

Lemma encodeTLV_unfold tag v :
  encodeTLV tag v
  = if negb (length tag =? 2)%nat then Throw TagLengthError else
      valueBytes ← encode_value v;
      Ok ([nth 0 tag 0 mod 256; nth 1 tag 0 mod 256] ++ le16 (len valueBytes) ++ valueBytes).
Proof.
  destruct v as [|s|x|items]; reflexivity.
Qed.

Lemma tag_ok_bytes tag :
  tag_ok tag = true ->
  (length tag =? 2)%nat = true
  /\ [nth 0 tag 0 mod 256; nth 1 tag 0 mod 256] = tag /\ len tag = 2.
Proof.
  unfold tag_ok. intros H. apply andb_prop in H as [Hlen Hall].
  split; [done|]. apply Nat.eqb_eq in Hlen.
  destruct tag as [|a [|b [|c r]]]; try done. simpl in Hall.
  split; [|done]. simpl. f_equal; [|f_equal]; zdm.
Qed.

Lemma tag_in_true tag cases :
  tag_in tag cases = true -> exists c, In c cases /\ tag = js c.
Proof.
  unfold tag_in. rewrite existsb_exists. intros (c & Hc & Heq).
  exists c. split; [done|]. by apply bool_decide_eq_true in Heq.
Qed.

Lemma decode_value_float tag vb nested :
  float_tag tag = true ->
  decode_value tag vb nested = (x ← getFloat32 vb 0; Ok (VNum x)).
Proof. intros H. unfold float_tag in H. tag_cases tag_in_true H; reflexivity. Qed.

Lemma decode_value_uint8 tag vb nested :
  uint8_tag tag = true ->
  decode_value tag vb nested
  = Ok (match byte_at vb 0 with Some b => VNum (NInt b) | None => VUndef end).
Proof. intros H. unfold uint8_tag in H. tag_cases tag_in_true H; reflexivity. Qed.

Lemma decode_value_uint16 tag vb nested :
  uint16_tag tag = true ->
  decode_value tag vb nested = (x ← getUint16 vb 0; Ok (VNum (NInt x))).
Proof. intros H. unfold uint16_tag in H. tag_cases tag_in_true H; reflexivity. Qed.

Lemma decode_value_uint64 tag vb nested :
  uint64_tag tag = true ->
  decode_value tag vb nested
  = (x ← getBigUint64 vb 0; Ok (VNum (NInt (number_of_bigint x)))).
Proof. intros H. unfold uint64_tag in H. tag_cases tag_in_true H; reflexivity. Qed.

Lemma decode_value_array tag vb nested :
  array_tag tag = true ->
  decode_value tag vb nested = (items ← nested; Ok (VArr items)).
Proof. intros H. unfold array_tag in H. tag_cases tag_in_true H; reflexivity. Qed.

Lemma decode_value_string tag vb nested :
  string_tag tag = true ->
  decode_value tag vb nested = Ok (VStr (TextDecoder_decode vb)).
Proof.
  unfold string_tag. intros H. apply negb_true_iff in H.
  repeat (apply orb_false_elim in H as [H ?]).
  unfold float_tag, uint8_tag, uint16_tag, uint64_tag, array_tag, tag_in in *.
  cbn [existsb] in *.
  repeat match goal with
         | H : _ || _ = false |- _ => apply orb_false_elim in H as [? ?]
         end.
  unfold decode_value, tag_in. cbn [existsb].
  repeat match goal with
         | H : str_eqb tag ?c = false |- _ => rewrite H; clear H
         end.
  cbn [orb]. by destruct (str_eqb tag (js "IN")), (str_eqb tag (js "ED")).
Qed.

Lemma encodeTLV_layout tag v bytes :
  tag_ok tag = true -> encodeTLV tag v = Ok bytes ->
  exists vb, encode_value v = Ok vb /\ bytes = tag ++ le16 (len vb) ++ vb
             /\ len bytes = 4 + len vb.
Proof.
  intros Htag. destruct (tag_ok_bytes tag Htag) as (Hlen & Hbytes & Hl2).
  rewrite encodeTLV_unfold, Hlen, Hbytes. simpl negb. cbv iota.
  destruct (encode_value v) as [vb|]; [|done]. intros [= <-].
  exists vb. split; [done|]. split; [done|].
  rewrite ?len_app, Hl2. unfold le16. rewrite ?len_app, ?len_cons, ?len_nil. lia.
Qed.

Lemma seq_bind_length (items : list (list Z * value)) vb :
  forallb (fun item => well_kinded item.1 item.2) items = true ->
  seq_bind (fun item : list Z * value => encodeTLV item.1 item.2) items = Ok vb ->
  4 * Z.of_nat (length items) <= len vb.
Proof.
  revert vb. induction items as [|[t v] items IH]; intros vb Hwk Henc.
  - simpl in *. injection Henc as <-. done.
  - cbn [forallb] in Hwk. apply andb_prop in Hwk as [Hit Hwk].
    cbn [seq_bind] in Henc. simpl in Henc.
    destruct (encodeTLV t v) as [b|] eqn:Hb; [|done]. simpl in Henc.
    destruct (seq_bind _ items) as [bs|] eqn:Hbs; [|done]. injection Henc as <-.
    assert (tag_ok t = true) as Htag by (destruct v; simpl in Hit; by apply andb_prop in Hit as [? _]).
    destruct (encodeTLV_layout t v b Htag Hb) as (vb' & _ & _ & Hlen).
    specialize (IH bs Hwk eq_refl). rewrite len_app. simpl length.
    pose proof (len_nonneg vb'). lia.
Qed.

(** One step of [decodeTLV] on a field laid out at [len pre] of the buffer. *)
Lemma decodeTLV_fuel_layout fuel tag vb pre post v :
  tag_ok tag = true -> len vb <= 65535 ->
  decode_value tag vb (decode_loop (decodeTLV_fuel fuel vb) (S fuel) (len vb) 0 []) = Ok v ->
  decodeTLV_fuel (S fuel) (pre ++ (tag ++ le16 (len vb) ++ vb) ++ post) (len pre)
  = Ok ((tag, v), len pre + (4 + len vb)).
Proof.
  intros Htag Hlen Hv. destruct (tag_ok_bytes tag Htag) as (_ & _ & Hl2).
  pose proof (len_nonneg vb). pose proof (len_nonneg pre). pose proof (len_nonneg post).
  set (data := pre ++ (tag ++ le16 (len vb) ++ vb) ++ post).
  assert (len data = len pre + (4 + len vb) + len post) as Hdata.
  { unfold data. rewrite !len_app, Hl2, len_le16. lia. }
  assert (slice data (len pre) (len pre + 2) = tag) as Hs1.
  { unfold data. rewrite <- !app_assoc. apply slice_middle; lia. }
  assert (slice data (len pre + 2) (len pre + 4) = le16 (len vb)) as Hs2.
  { unfold data. rewrite <- !app_assoc. rewrite (app_assoc pre tag).
    apply slice_middle; rewrite ?len_app, ?len_le16; lia. }
  assert (slice data (len pre + 4) (len pre + 4 + len vb) = vb) as Hs3.
  { unfold data. rewrite <- !app_assoc.
    rewrite (app_assoc tag), (app_assoc pre). 
    apply slice_middle; rewrite ?len_app, ?len_le16; lia. }
  cbn [decodeTLV_fuel]. fold data.
  destruct (len data <? len pre + 4) eqn:E1; [exfalso; lia|].
  rewrite Hs1, Hs2, le_value_le16 by zlia. rewrite Hs3.
  destruct (len data <? len pre + 4 + len vb) eqn:E2; [exfalso; lia|].
  rewrite Hv. simpl. do 2 f_equal. lia.
Qed.

Lemma getUint16_le16 n : 0 <= n < 2^16 -> getUint16 (le16 n) 0 = Ok n.
Proof. intros Hn. unfold getUint16. simpl. f_equal. pow2. zdm. Qed.

Lemma getUint32_le32 n : 0 <= n < 2^32 -> getUint32 (le32 n) 0 = Ok n.
Proof. intros Hn. unfold getUint32. simpl. f_equal. pow2. zdm. Qed.

Lemma getBigUint64_le64 n : 0 <= n < 2^64 -> getBigUint64 (le64 n) 0 = Ok n.
Proof.
  intros Hn. unfold getBigUint64.
  replace (len (le64 n) <? 0 + 8) with false by reflexivity.
  replace (slice (le64 n) 0 (0 + 8)) with (le64 n) by reflexivity.
  by rewrite le_value_le64.
Qed.

(** The loop over a nested array whose items decode one by one. *)
Lemma decode_loop_items (items : list (list Z * value)) :
  Forall (fun item : list Z * value =>
            forall tag bytes, well_kinded tag item.2 = true ->
              encodeTLV tag item.2 = Ok bytes -> len bytes <= 65539 ->
              forall (fuel : nat) pre post, (length bytes <= fuel)%nat ->
                decodeTLV_fuel fuel (pre ++ bytes ++ post) (len pre)
                = Ok ((tag, item.2), len pre + len bytes)) items ->
  forallb (fun item => well_kinded item.1 item.2) items = true ->
  forall vb, seq_bind (fun item : list Z * value => encodeTLV item.1 item.2) items = Ok vb ->
  len vb <= 65535 ->
  forall (fuel n : nat) pre acc,
    (length vb <= fuel)%nat -> (length items < n)%nat ->
    decode_loop (decodeTLV_fuel fuel (pre ++ vb)) n (len (pre ++ vb)) (len pre) acc
    = Ok (acc ++ items).
Proof.
  induction items as [|[t v] items IH]; intros HP Hwk vb Henc Hlen fuel n pre acc Hfuel Hn.
  - simpl in Henc. injection Henc as <-. destruct n as [|n]; [lia|].
    rewrite !app_nil_r. cbn [decode_loop].
    destruct (len pre <? len pre) eqn:H; [exfalso; lia|done].
  - apply Forall_cons in HP as [Hit HP].
    cbn [forallb] in Hwk. apply andb_prop in Hwk as [Hwkit Hwk].
    cbn [seq_bind] in Henc. simpl in Henc, Hit, Hwkit.
    destruct (encodeTLV t v) as [b|] eqn:Hb; [|done]. simpl in Henc.
    destruct (seq_bind _ items) as [bs|] eqn:Hbs; [|done]. injection Henc as <-.
    assert (tag_ok t = true) as Htag
        by (destruct v; simpl in Hwkit; by apply andb_prop in Hwkit as [? _]).
    destruct (encodeTLV_layout t v b Htag Hb) as (vb' & _ & _ & Hlb).
    pose proof (len_nonneg vb'). pose proof (len_nonneg bs).
    rewrite len_app in Hlen. rewrite length_app in Hfuel.
    destruct n as [|n]; [lia|]. cbn [decode_loop].
    destruct (len pre <? len (pre ++ b ++ bs)) eqn:E1;
      [|exfalso; rewrite !len_app in E1; lia].
    rewrite (Hit t b Hwkit Hb ltac:(lia) fuel pre bs ltac:(lia)).
    cbn [mbind result_bind fst snd].
    replace (pre ++ b ++ bs) with ((pre ++ b) ++ bs) by (by rewrite <- app_assoc).
    replace (len pre + len b) with (len (pre ++ b)) by (by rewrite len_app).
    etrans; [apply (IH HP Hwk bs eq_refl ltac:(lia) fuel n (pre ++ b) (acc ++ [(t, v)]));
             [lia|simpl in Hn; lia]|].
    by rewrite <- app_assoc.
Qed.

(** [decodeTLV] inverts [encodeTLV] on well-kinded fields, wherever the
    field lies in the buffer. *)
Lemma decodeTLV_fuel_encodeTLV : forall v tag bytes,
  well_kinded tag v = true -> encodeTLV tag v = Ok bytes -> len bytes <= 65539 ->
  forall (fuel : nat) pre post, (length bytes <= fuel)%nat ->
    decodeTLV_fuel fuel (pre ++ bytes ++ post) (len pre)
    = Ok ((tag, v), len pre + len bytes).
Proof.
  induction v as [|s|x|items IH] using value_ind';
    intros tag bytes Hwk Henc Hlen fuel pre post Hfuel.
  - simpl in Hwk. by rewrite andb_false_r in Hwk.
  - (* strings *)
    simpl in Hwk. apply andb_prop in Hwk as [Htag Hwk]. apply andb_prop in Hwk as [Hkind Hs].
    destruct (encodeTLV_layout tag _ bytes Htag Henc) as (vb & Hvb & -> & Hlb).
    simpl in Hvb. injection Hvb as <-. rewrite Hlb.
    destruct fuel as [|fuel]; [unfold len in *; simpl in *; lia|].
    apply decodeTLV_fuel_layout; [done|lia|].
    by rewrite decode_value_string, TextDecoder_TextEncoder.
  - (* numbers *)
    simpl in Hwk. apply andb_prop in Hwk as [Htag Hwk].
    destruct (encodeTLV_layout tag _ bytes Htag Henc) as (vb & Hvb & -> & Hlb).
    rewrite Hlb. destruct fuel as [|fuel]; [unfold len in *; simpl in *; lia|].
    apply decodeTLV_fuel_layout; [done|lia|].
    destruct x as [n|neg m e|neg|].
    + (* integers *)
      apply orb_prop in Hwk as [Hwk|Hwk]; [apply orb_prop in Hwk as [Hwk|Hwk]|].
      * apply andb_prop in Hwk as [Hwk H2]. apply andb_prop in Hwk as [Hkind H1].
        simpl in Hvb. assert ((n <=? 255) = true) as Hn by lia. rewrite Hn in Hvb.
        injection Hvb as <-. rewrite decode_value_uint8 by done.
        rewrite Z.mod_small by lia. reflexivity.
      * apply andb_prop in Hwk as [Hwk H2]. apply andb_prop in Hwk as [Hkind H1].
        simpl in Hvb. assert ((n <=? 255) = false) as Hn by lia. rewrite Hn in Hvb.
        assert ((n <=? 65535) = true) as Hn' by lia. rewrite Hn' in Hvb.
        injection Hvb as <-. rewrite decode_value_uint16 by done.
        by rewrite getUint16_le16 by zlia.
      * apply andb_prop in Hwk as [Hwk H3]. apply andb_prop in Hwk as [Hwk H2].
        apply andb_prop in Hwk as [Hkind H1].
        apply Z.ltb_lt in H1, H2. apply Z.eqb_eq in H3.
        simpl in Hvb. assert ((n <=? 255) = false) as Hn by lia. rewrite Hn in Hvb.
        assert ((n <=? 65535) = false) as Hn' by lia. rewrite Hn' in Hvb.
        assert ((n <=? 4294967295) = false) as Hn'' by lia. rewrite Hn'' in Hvb.
        injection Hvb as <-. rewrite decode_value_uint64 by done.
        rewrite Z.mod_small by lia. rewrite getBigUint64_le64 by lia. simpl.
        by rewrite H3.
    + (* fractions *)
      apply andb_prop in Hwk as [Hwk H4]. apply andb_prop in Hwk as [Hwk H3].
      apply andb_prop in Hwk as [Hwk H2]. apply andb_prop in Hwk as [Hkind H1].
      simpl in Hvb. injection Hvb as <-. rewrite decode_value_float by done.
      destruct (f32_roundtrip neg m e H1 ltac:(lia) ltac:(lia)) as [Hrange Hback].
      unfold getFloat32. rewrite getUint32_le32 by done. simpl. by rewrite Hback.
    + simpl in Hvb. injection Hvb as <-. rewrite decode_value_float by done.
      destruct neg; vm_compute; reflexivity.
    + simpl in Hvb. injection Hvb as <-. rewrite decode_value_float by done.
      vm_compute. reflexivity.
  - (* arrays *)
    cbn [well_kinded] in Hwk. apply andb_prop in Hwk as [Htag Hwk].
    apply andb_prop in Hwk as [Hkind Hitems].
    destruct (encodeTLV_layout tag _ bytes Htag Henc) as (vb & Hvb & -> & Hlb).
    simpl in Hvb. rewrite Hlb.
    pose proof (seq_bind_length items vb Hitems Hvb) as Hcount.
    assert (Z.of_nat (length vb) = len vb) as Hlv by reflexivity.
    assert (Z.of_nat (length (tag ++ le16 (len vb) ++ vb)) = 4 + len vb) as Hlt
        by (fold (len (tag ++ le16 (len vb) ++ vb)); done).
    destruct fuel as [|fuel]; [lia|].
    apply decodeTLV_fuel_layout; [done|lia|].
    rewrite decode_value_array by done.
    pose proof (decode_loop_items items IH Hitems vb Hvb ltac:(lia) fuel (S fuel) [] []
                                  ltac:(lia) ltac:(lia)) as Hloop.
    rewrite app_nil_l in Hloop. change (len []) with 0 in Hloop.
    etrans; [apply (f_equal (fun r => items ← r; Ok (VArr items))); exact Hloop|done].
Qed.

Lemma well_kinded_tag_ok tag v : well_kinded tag v = true -> tag_ok tag = true.
Proof. destruct v; simpl; intros H; by apply andb_prop in H as [? _]. Qed.

Lemma encodeTLV_ok : forall v tag,
  well_kinded tag v = true -> exists bytes, encodeTLV tag v = Ok bytes.
Proof.
  induction v as [|s|x|items IH] using value_ind'; intros tag Hwk.
  all: pose proof (well_kinded_tag_ok _ _ Hwk) as Htag.
  all: destruct (tag_ok_bytes tag Htag) as (Hlen & _ & _).
  all: rewrite encodeTLV_unfold, Hlen; simpl negb; cbv iota.
  - simpl in Hwk. by rewrite andb_false_r in Hwk.
  - simpl. eauto.
  - destruct x as [n| | |]; simpl; eauto.
    destruct (n <=? 255); [eauto|]. destruct (n <=? 65535); [eauto|].
    destruct (n <=? 4294967295); eauto.
  - cbn [well_kinded] in Hwk. apply andb_prop in Hwk as [_ Hwk].
    apply andb_prop in Hwk as [_ Hitems].
    assert (exists vb, encode_value (VArr items) = Ok vb) as [vb ->]; [|simpl; eauto].
    simpl. induction items as [|[t v] items IHitems]; [by exists []|].
    apply Forall_cons in IH as [Hv IH]. cbn [forallb] in Hitems.
    apply andb_prop in Hitems as [Hwv Hitems]. simpl in Hv, Hwv.
    destruct (Hv t Hwv) as [b Hb]. destruct (IHitems IH Hitems) as [bs Hbs].
    exists (b ++ bs). cbn [seq_bind]. simpl. rewrite Hb. simpl. by rewrite Hbs.
Qed.

(** C3, amended: for every 2-character tag and every supported value of
    the kind the decoder reads under that tag ([well_kinded]: an integer
    0..255 under a one-byte tag, 256..65535 under MX, a 64-bit integer above
    0xFFFFFFFF that a double represents exactly under TS, T1 or T2, a
    binary32 number that is not an integer under a float tag, a string
    without lone surrogates or leading U+FEFF under any other tag, an array
    of such fields under an array tag), [encodeTLV] succeeds, and decoding
    its bytes at offset 0 returns the same tag and the same value when the
    value fits the 16-bit length field. *)
Theorem tlv_roundtrip (tag : list Z) (v : value) :
  well_kinded tag v = true ->
  exists bytes,
    encodeTLV tag v = Ok bytes
    /\ (len bytes <= 4 + 0xFFFF -> decodeTLV bytes 0 = Ok ((tag, v), len bytes)).
Proof.
  intros Hwk. destruct (encodeTLV_ok v tag Hwk) as [bytes Henc].
  exists bytes. split; [done|]. intros Hlen.
  pose proof (decodeTLV_fuel_encodeTLV v tag bytes Hwk Henc Hlen
                (S (length bytes)) [] [] ltac:(lia)) as H.
  rewrite app_nil_r in H. exact H.
Qed.

(** C3 as stated fails: an integer under a tag the decoder does not know
    comes back as a string. *)
Lemma tlv_integer_comes_back_as_string :
  encodeTLV (js "ZZ") (VNum (NInt 5)) = Ok [0x5A; 0x5A; 0x01; 0x00; 0x05]
  /\ decodeTLV [0x5A; 0x5A; 0x01; 0x00; 0x05] 0 = Ok ((js "ZZ", VStr [5]), 5)
  /\ VStr [5] <> VNum (NInt 5).
Proof. split; [|split]; [vm_compute; reflexivity..|discriminate]. Qed.

(** ** Frames *)


Lemma packet_counter_bumped counter type fields responseNumber :
  (encodePacket counter type fields responseNumber).2 = (counter + 1) mod 128
  /\ 0 <= (encodePacket counter type fields responseNumber).2 < 128.
Proof.
  unfold encodePacket, getNextPacketNumber, MAX_PACKET_NUMBER. simpl.
  split; [done|]. apply Z.mod_pos_bound. lia.
Qed.

Lemma decode_loop_fields (fields : list TLVField) payload :
  forallb (fun f => well_kinded f.1 f.2) fields = true ->
  seq_bind (fun field : TLVField => encodeTLV field.1 field.2) fields = Ok payload ->
  len payload <= 65535 ->
  decode_loop (decodeTLV payload) (S (length payload)) (len payload) 0 [] = Ok fields.
Proof.
  intros Hwk Henc Hlen.
  pose proof (seq_bind_length fields payload Hwk Henc) as Hcount.
  assert (Z.of_nat (length payload) = len payload) as Hl by reflexivity.
  pose proof (decode_loop_items fields) as Hloop.
  specialize (Hloop ltac:(apply Forall_forall; intros [t v] _ tag bytes;
                          apply decodeTLV_fuel_encodeTLV)).
  specialize (Hloop Hwk payload Henc Hlen (S (length payload)) (S (length payload)) [] []
                    ltac:(lia) ltac:(lia)).
  rewrite app_nil_l in Hloop. exact Hloop.
Qed.

Lemma ToInt32_range x : - 2^31 <= ToInt32 x < 2^31.
Proof. unfold ToInt32. pose proof (Z.mod_pos_bound (x + 2^31) (2^32)). zlia. Qed.

Lemma lxor_nonneg_range a b n :
  0 <= n -> 0 <= a < 2^n -> 0 <= b < 2^n -> 0 <= Z.lxor a b < 2^n.
Proof.
  intros Hn Ha Hb.
  assert (0 <= Z.lxor a b) as Hnn by (apply Z.lxor_nonneg; lia).
  split; [done|].
  assert (0 < 2^n) by (apply Z.pow_pos_nonneg; lia).
  destruct (Z.eq_dec (Z.lxor a b) 0) as [->|Hne]; [lia|].
  assert (0 < Z.lxor a b) by (clear -Hnn Hne; lia).
  assert (0 < n) as Hn0.
  { destruct (Z.eq_dec n 0) as [->|]; [|lia]. exfalso.
    assert (a = 0) as -> by (simpl in Ha; lia). assert (b = 0) as -> by (simpl in Hb; lia).
    by apply Hne. }
  assert (forall x, 0 <= x < 2^n -> Z.log2 x < n) as Hlog.
  { intros x Hx. destruct (Z.eq_dec x 0) as [->|]; [simpl; lia|].
    apply Z.log2_lt_pow2; lia. }
  apply Z.log2_lt_pow2; [done|].
  eapply Z.le_lt_trans; [apply Z.log2_lxor; lia|].
  apply Z.max_lub_lt; apply Hlog; lia.
Qed.

Lemma lxor_int32_range a b :
  - 2^31 <= a < 2^31 -> - 2^31 <= b < 2^31 -> - 2^31 <= Z.lxor a b < 2^31.
Proof.
  intros Ha Hb.
  assert (forall x, x = Z.lnot (- x - 1)) as Hlnot by (intros x; unfold Z.lnot; lia).
  assert (forall x y, 0 <= x < 2^31 -> 0 <= y < 2^31 -> 0 <= Z.lxor x y < 2^31) as Hxy
      by (intros x y; apply lxor_nonneg_range; lia).
  destruct (Z.neg_nonneg_cases a) as [Ha0|Ha0], (Z.neg_nonneg_cases b) as [Hb0|Hb0].
  - rewrite (Hlnot a), (Hlnot b), Z.lxor_lnot_lnot.
    specialize (Hxy (- a - 1) (- b - 1) ltac:(lia) ltac:(lia)). lia.
  - rewrite (Hlnot a), <- Z.lnot_lxor_l. unfold Z.lnot, Z.pred.
    specialize (Hxy (- a - 1) b ltac:(lia) ltac:(lia)). lia.
  - rewrite (Hlnot b), <- Z.lnot_lxor_r. unfold Z.lnot, Z.pred.
    specialize (Hxy a (- b - 1) ltac:(lia) ltac:(lia)). lia.
  - specialize (Hxy a b ltac:(lia) ltac:(lia)). lia.
Qed.

Lemma calculateCRC32_range data : - 2^31 <= calculateCRC32 data < 2^31.
Proof. apply lxor_int32_range; apply ToInt32_range. Qed.

Lemma calculateCRC32_bytes data :
  is_bytes data -> ToUint32 (calculateCRC32 data) = spec_crc32 data.
Proof.
  intros Hdata. unfold ToUint32, calculateCRC32, spec_crc32. rewrite js_xor_mod.
  assert (forall crc, 0 <= crc < 2^32 ->
            fold_left crc_update data crc = fold_left spec_crc_byte data crc
            /\ 0 <= fold_left crc_update data crc < 2^32) as Hfold.
  { induction Hdata as [|b data Hb Hdata IH]; intros crc Hcrc; [done|].
    simpl. rewrite <- crc_update_spec by done. apply IH.
    unfold crc_update. rewrite js_ushr_0. apply Z.mod_pos_bound. lia. }
  destruct (Hfold 4294967295 ltac:(zlia)) as [Heq Hrange].
  rewrite <- Heq. rewrite Z.mod_small by done. reflexivity.
Qed.

(** The frame [encodePacket] lays out around an encoded payload is read
    back by [decodePacket] when the CRC, as [calculateCRC32] returns it, is
    not negative. *)
Lemma decodePacket_layout type counter responseNumber payload fields :
  0 <= type < 256 -> 0 <= counter < 2^16 -> 0 <= responseNumber < 2^16 ->
  len payload <= 65535 ->
  decode_loop (decodeTLV payload) (S (length payload)) (len payload) 0 [] = Ok fields ->
  0 <= calculateCRC32 (crcData VERSION type counter responseNumber (len payload) payload) ->
  decodePacket
    ([0xAA; 0x55; VERSION; type mod 256] ++ le16 counter ++ le16 responseNumber
       ++ le16 (len payload) ++ payload
       ++ le32 (ToUint32 (calculateCRC32
                            (crcData VERSION type counter responseNumber
                                     (len payload) payload)))
       ++ END_BYTES)
  = Ok {| version := VERSION; type := type; packetNumber := counter;
          responseNumber := responseNumber; data := fields |}.
Proof.
  intros Htype Hcounter Hrn Hlen Hfields Hcrc.
  pose proof (calculateCRC32_range
                (crcData VERSION type counter responseNumber (len payload) payload)) as Hr.
  set (crc := calculateCRC32 _) in *.
  pose proof (len_nonneg payload) as Hp.
  set (hdr := [0xAA; 0x55; VERSION; type mod 256] ++ le16 counter ++ le16 responseNumber
                ++ le16 (len payload)).
  set (frame := [0xAA; 0x55; VERSION; type mod 256] ++ le16 counter ++ le16 responseNumber
                  ++ le16 (len payload) ++ payload ++ le32 (ToUint32 crc) ++ END_BYTES).
  assert (frame = hdr ++ payload ++ le32 (ToUint32 crc) ++ END_BYTES) as Hframe
      by (unfold frame, hdr; by rewrite <- !app_assoc).
  assert (len hdr = 10) as Hhdr by reflexivity.
  assert (len frame = 16 + len payload) as Hlf.
  { rewrite Hframe, !len_app, Hhdr, len_le32. change (len END_BYTES) with 2. lia. }
  assert (slice frame 10 (10 + len payload) = payload) as Hs1.
  { rewrite Hframe. apply slice_middle; lia. }
  assert (slice frame (10 + len payload) (10 + len payload + 4) = le32 (ToUint32 crc)) as Hs2.
  { rewrite Hframe, (app_assoc hdr). apply slice_middle; rewrite ?len_app, ?len_le32; lia. }
  assert (slice frame (10 + len payload + 4) (10 + len payload + 4 + 2) = END_BYTES) as Hs3.
  { rewrite Hframe, (app_assoc payload), (app_assoc hdr).
    rewrite <- (app_nil_r END_BYTES) at 1.
    apply slice_middle; rewrite ?len_app, ?len_le32; [lia|]. change (len END_BYTES) with 2. lia. }
  unfold decodePacket. fold frame.
  destruct (len frame <? 16) eqn:E1; [exfalso; lia|].
  replace (slice frame 0 2) with START_BYTES by reflexivity.
  rewrite bool_decide_eq_true_2 by done. simpl negb. cbv iota.
  replace (nth 2 frame 0) with VERSION by reflexivity.
  replace (nth 3 frame 0) with (type mod 256) by reflexivity.
  assert (getUint16 frame 4 = Ok counter) as ->.
  { unfold getUint16. destruct (len frame <? 4 + 2) eqn:E; [exfalso; lia|].
    replace (slice frame 4 (4 + 2)) with (le16 counter) by reflexivity.
    by rewrite le_value_le16. }
  assert (getUint16 frame 6 = Ok responseNumber) as ->.
  { unfold getUint16. destruct (len frame <? 6 + 2) eqn:E; [exfalso; lia|].
    replace (slice frame 6 (6 + 2)) with (le16 responseNumber) by reflexivity.
    by rewrite le_value_le16. }
  assert (getUint16 frame 8 = Ok (len payload)) as ->.
  { unfold getUint16. destruct (len frame <? 8 + 2) eqn:E; [exfalso; lia|].
    replace (slice frame 8 (8 + 2)) with (le16 (len payload)) by reflexivity.
    rewrite le_value_le16 by zlia. done. }
  cbn [mbind result_bind].
  destruct (len frame <? 10 + len payload + 4 + 2) eqn:E2; [exfalso; lia|].
  rewrite Hs1. rewrite Hfields. cbn [mbind result_bind].
  assert (getUint32 frame (10 + len payload) = Ok crc) as ->.
  { unfold getUint32. destruct (len frame <? 10 + len payload + 4) eqn:E; [exfalso; lia|].
    rewrite Hs2, le_value_le32 by (apply Z.mod_pos_bound; lia).
    unfold ToUint32. rewrite Z.mod_small by zlia. done. }
  cbn [mbind result_bind].
  rewrite (Z.mod_small type) by lia.
  fold crc. rewrite Z.eqb_refl. simpl negb. cbv iota.
  rewrite Hs3. rewrite bool_decide_eq_true_2 by done. reflexivity.
Qed.

Lemma seq_bind_ok (fields : list TLVField) :
  forallb (fun f => well_kinded f.1 f.2) fields = true ->
  exists payload, seq_bind (fun field : TLVField => encodeTLV field.1 field.2) fields = Ok payload.
Proof.
  induction fields as [|[t v] fields IH]; intros Hwk; [by exists []|].
  cbn [forallb] in Hwk. apply andb_prop in Hwk as [Hv Hwk]. simpl in Hv.
  destruct (encodeTLV_ok v t Hv) as [b Hb]. destruct (IH Hwk) as [bs Hbs].
  exists (b ++ bs). cbn [seq_bind]. simpl. rewrite Hb. simpl. by rewrite Hbs.
Qed.

(** The CRC field of a frame laid out by [encodePacket]. *)
Lemma crc_field_of_layout hdr payload crc :
  len hdr = 10 ->
  slice (hdr ++ payload ++ le32 crc ++ END_BYTES)
        (len (hdr ++ payload ++ le32 crc ++ END_BYTES) - 6)
        (len (hdr ++ payload ++ le32 crc ++ END_BYTES) - 2)
  = le32 crc.
Proof.
  intros Hhdr. rewrite (app_assoc hdr).
  apply slice_middle; rewrite !len_app, ?len_le32; change (len END_BYTES) with 2; lia.
Qed.

Lemma ToUint32_top_bit x : - 2^31 <= x < 2^31 -> ToUint32 x < 2^31 -> 0 <= x.
Proof.
  unfold ToUint32. intros Hx Hu.
  destruct (Z.neg_nonneg_cases x) as [Hneg|]; [|done]. exfalso.
  assert (x mod 2^32 = x + 2^32) as Hm.
  { symmetry. apply (Z.mod_unique_pos _ _ (-1)); zlia. }
  zlia.
Qed.

(** C4, amended: for every frame type 0..255, response number 0..65535
    and payload of TLV fields of the kind the decoder reads under their tags
    ([well_kinded]), [encodePacket] succeeds and leaves the counter at
    (counter + 1) mod 128, within 0..127: it is bumped exactly once; and
    when the payload fits the 16-bit length field and the CRC field of the
    frame is below 2^31, [decodePacket] succeeds on the frame and returns
    the original type, response number and payload, with the packet number
    assigned at encode time. *)
Theorem packet_roundtrip (counter type : Z) (fields : list TLVField) (responseNumber : Z) :
  0 <= type < 256 -> 0 <= responseNumber < 2^16 ->
  forallb (fun f => well_kinded f.1 f.2) fields = true ->
  exists frame,
    encodePacket counter type fields responseNumber
    = (Ok frame, (counter + 1) mod 128)
    /\ 0 <= (counter + 1) mod 128 < 128
    /\ (len frame <= 16 + 0xFFFF ->
        le_value (slice frame (len frame - 6) (len frame - 2)) < 2^31 ->
        decodePacket frame
        = Ok {| version := VERSION; type := type; packetNumber := (counter + 1) mod 128;
                responseNumber := responseNumber; data := fields |}).
Proof.
  intros Htype Hrn Hwk.
  destruct (seq_bind_ok fields Hwk) as [payload Hpayload].
  assert (0 <= (counter + 1) mod 128 < 128) as Hc by (apply Z.mod_pos_bound; lia).
  set (c := (counter + 1) mod 128) in *.
  set (crc := calculateCRC32 (crcData VERSION type c responseNumber (len payload) payload)).
  exists ([0xAA; 0x55; VERSION; type mod 256] ++ le16 c ++ le16 responseNumber
            ++ le16 (len payload) ++ payload ++ le32 (ToUint32 crc) ++ END_BYTES).
  split; [|split; [done|]].
  - unfold encodePacket. rewrite Hpayload. reflexivity.
  - intros Hlen Hfield.
    set (hdr := [0xAA; 0x55; VERSION; type mod 256] ++ le16 c ++ le16 responseNumber
                  ++ le16 (len payload)).
    assert (len hdr = 10) as Hhdr by reflexivity.
    assert ([0xAA; 0x55; VERSION; type mod 256] ++ le16 c ++ le16 responseNumber
              ++ le16 (len payload) ++ payload ++ le32 (ToUint32 crc) ++ END_BYTES
            = hdr ++ payload ++ le32 (ToUint32 crc) ++ END_BYTES) as Hframe
        by (unfold hdr; by rewrite <- !app_assoc).
    rewrite Hframe in Hlen, Hfield.
    rewrite crc_field_of_layout in Hfield by done.
    rewrite !len_app, Hhdr, len_le32 in Hlen. change (len END_BYTES) with 2 in Hlen.
    pose proof (calculateCRC32_range
                  (crcData VERSION type c responseNumber (len payload) payload)) as Hr.
    fold crc in Hr.
    rewrite le_value_le32 in Hfield by (apply Z.mod_pos_bound; lia).
    apply decodePacket_layout; [done|zlia|done|lia| |].
    + apply decode_loop_fields; [done|done|lia].
    + by apply ToUint32_top_bit.
Qed.

Lemma packet_roundtrip_witness :
  exists frame,
    encodePacket 1 HOST_REQUEST [(js "IN", VStr (js "temp")); (js "DA", VArr [])] 0
    = (Ok frame, 2)
    /\ decodePacket frame
       = Ok {| version := VERSION; type := HOST_REQUEST; packetNumber := 2;
               responseNumber := 0;
               data := [(js "IN", VStr (js "temp")); (js "DA", VArr [])] |}.
Proof.
  destruct (packet_roundtrip 1 HOST_REQUEST
              [(js "IN", VStr (js "temp")); (js "DA", VArr [])] 0)
    as (frame & Henc & _ & Hdec).
  - vm_compute. split; [discriminate|reflexivity].
  - vm_compute. split; [discriminate|reflexivity].
  - vm_compute. reflexivity.
  - exists frame. split; [exact Henc|].
    vm_compute in Henc. injection Henc as <-.
    apply Hdec; vm_compute; [discriminate|reflexivity].
Defined.

(** C4 as stated fails: a frame that decodes, with another payload. *)
Lemma packet_payload_comes_back_changed :
  exists frame,
    encodePacket 0 HOST_REQUEST [(js "ZZ", VNum (NInt 5))] 0 = (Ok frame, 1)
    /\ decodePacket frame
       = Ok {| version := VERSION; type := HOST_REQUEST; packetNumber := 1;
               responseNumber := 0; data := [(js "ZZ", VStr [5])] |}
    /\ [(js "ZZ", VStr [5])] <> [(js "ZZ", VNum (NInt 5))].
Proof.
  eexists. split; [vm_compute; reflexivity|]. split; [vm_compute; reflexivity|discriminate].
Qed.

Lemma is_bytes_slice l a b : is_bytes l -> is_bytes (slice l a b).
Proof. intros H. unfold slice. by apply Forall_take, Forall_drop. Qed.

Lemma le_value_nonneg l : is_bytes l -> 0 <= le_value l.
Proof. induction 1 as [|b l Hb _ IH]; simpl; [done|]. unfold is_byte in Hb. lia. Qed.

Lemma le16_le_value a b : is_byte a -> is_byte b -> le16 (le_value [a; b]) = [a; b].
Proof.
  unfold is_byte, le16. intros Ha Hb. simpl le_value.
  replace (a + 256 * (b + 256 * 0)) with (a + b * 256) by lia.
  rewrite Z.mod_add, Z.div_add, (Z.mod_small a), (Z.div_small a) by lia.
  simpl. by rewrite Z.mod_small by lia.
Qed.


Lemma calculate_crc32_fallback hw bytes rest :
  hcrc hw = None -> calculate_crc32 hw (bytes ++ rest) (len bytes) = byte_sum bytes.
Proof.
  intros Hnone. unfold calculate_crc32, byte_sum, len. rewrite Hnone.
  by rewrite Nat2Z.id, take_app_length.
Qed.


Lemma is_bytes_check l :
  forallb (fun b => (0 <=? b) && (b <? 256)) l = true -> is_bytes l.
Proof.
  intros H. apply Forall_forall. intros b Hb.
  rewrite forallb_forall in H. specialize (H b).
  rewrite <- list_elem_of_In in H. specialize (H Hb).
  apply andb_prop in H as [H1 H2]. unfold is_byte. lia.
Qed.

Lemma no_start_marker_check l :
  forallb (fun b => negb (b =? 0xAA)) l = true -> no_start_marker l.
Proof.
  intros H i [Hi _]. rewrite forallb_forall in H. specialize (H 0xAA).
  rewrite <- list_elem_of_In in H.
  specialize (H (list_elem_of_lookup_2 _ _ _ Hi)). discriminate.
Qed.



Lemma second_send_overwrites_witness :
  let m := (sendRequest (new_manager (Some true)) [] (js "temp")).1 in
  (sendRequest m [] (js "temp")).2 = Ok 1%nat
  /\ pendingRequests (sendRequest m [] (js "temp")).1 !! js "temp"
     = Some {| pr_promise := 1; pr_timeout := 1; pr_command := js "temp" |}.
Proof.
  intros m.
  destruct (second_send_overwrites m [] (js "temp")
              {| pr_promise := 0; pr_timeout := 0; pr_command := js "temp" |})
    as (Hret & Hpending & _).
  - apply (reachable_step (new_manager (Some true))); [apply reachable_new|apply step_send].
  - reflexivity.
  - vm_compute. reflexivity.
  - split; [exact Hret|exact Hpending].
Defined.

Lemma tlv_roundtrip_witness :
  exists bytes,
    encodeTLV (js "T ") (VNum (NFrac false 45 (-1))) = Ok bytes
    /\ decodeTLV bytes 0 = Ok ((js "T ", VNum (NFrac false 45 (-1))), len bytes).
Proof.
  destruct (tlv_roundtrip (js "T ") (VNum (NFrac false 45 (-1)))) as (bytes & Henc & Hdec).
  - vm_compute. reflexivity.
  - exists bytes. split; [exact Henc|].
    vm_compute in Henc. injection Henc as <-.
    apply Hdec. vm_compute. discriminate.
Defined.

Lemma escape_unescape_roundtrip_witness :
  escape_data [0x02; 0xAA; 0x55; 0x00] 508 = Some (spec_escape [0x02; 0xAA; 0x55; 0x00])
  /\ unescape_data (spec_escape [0x02; 0xAA; 0x55; 0x00]) 512 = Some [0x02; 0xAA; 0x55; 0x00]
  /\ has_marker_pair (spec_escape [0x02; 0xAA; 0x55; 0x00]) = false.
Proof.
  apply (escape_unescape_roundtrip [0x02; 0xAA; 0x55; 0x00] 508 512).
  - vm_compute. discriminate.
  - vm_compute. discriminate.
Defined.

Lemma garbage_is_drained_witness :
  responseBuffer (handleReceivedData (new_manager (Some true)) (replicate 20 0x01)) = [].
Proof.
  destruct (garbage_is_drained (new_manager (Some true)) (replicate 20 0x01))
    as (Hbuffer & _).
  - apply no_start_marker_check. reflexivity.
  - exact Hbuffer.
Defined.

(** ** The size of what the handlers of the command table answer *)

Lemma write_tlv_uint8_len size tag v bytes :
  write_tlv_uint8 size tag v = Some bytes -> len bytes = 5.
Proof.
  unfold write_tlv_uint8. destruct (size <? 5); [done|]. intros [= <-].
  by rewrite !len_app, len_tag2.
Qed.

Lemma write_tlv_float32_len size tag v bytes :
  write_tlv_float32 size tag v = Some bytes -> len bytes = 8.
Proof.
  unfold write_tlv_float32. destruct (size <? 8); [done|]. intros [= <-].
  by rewrite !len_app, len_tag2.
Qed.

Lemma write_tlv_raw_len size tag data bytes :
  write_tlv_raw size tag data = Some bytes -> len bytes = 4 + len data.
Proof.
  unfold write_tlv_raw. destruct (size <? 4 + len data); [done|]. intros [= <-].
  rewrite !len_app, len_tag2, !len_cons. lia.
Qed.

Lemma write_uint8_fields_len size fields : forall out bytes,
  write_uint8_fields size fields out = Some bytes ->
  len bytes = len out + 5 * Z.of_nat (length fields).
Proof.
  induction fields as [|[tag v] fields IH]; intros out bytes; simpl.
  - intros [= <-]. lia.
  - destruct (write_tlv_uint8 _ tag v) as [b|] eqn:Hb; [|done].
    intros H. apply IH in H. apply write_tlv_uint8_len in Hb.
    rewrite len_app in H. lia.
Qed.

Lemma alarm_items_len d ids : forall alarm_list_data bytes,
  alarm_items d ids alarm_list_data = Some bytes ->
  len bytes = len alarm_list_data + 25 * Z.of_nat (length ids).
Proof.
  induction ids as [|i ids IH]; intros acc bytes.
  - simpl. intros [= <-]. lia.
  - cbn [alarm_items].
    destruct (write_tlv_uint8 64 _ _) as [id|] eqn:Hid; [|done]. cbn [mbind option_bind].
    destruct (write_tlv_float32 _ TAG_ALARM_LOW _) as [low|] eqn:Hlow; [|done].
    cbn [mbind option_bind].
    destruct (write_tlv_float32 _ TAG_ALARM_HIGH _) as [high|] eqn:Hhigh; [|done].
    cbn [mbind option_bind].
    destruct (write_tlv_raw _ TAG_ALARM_ITEM _) as [item|] eqn:Hitem; [|done].
    cbn [mbind option_bind]. intros H. apply IH in H.
    apply write_tlv_uint8_len in Hid. apply write_tlv_float32_len in Hlow, Hhigh.
    apply write_tlv_raw_len in Hitem. rewrite !len_app in *.
    rewrite length_cons. lia.
Qed.

Lemma find_handler_command_table instruction handler :
  find_handler command_table instruction = Some handler ->
  In handler (map snd command_table).
Proof.
  unfold command_table. cbn [find_handler map snd].
  repeat (destruct (bool_decide _); [intros [= <-]; cbn [In]; tauto|]).
  done.
Qed.

Lemma command_table_response_size instruction handler d request_data result d1 :
  find_handler command_table instruction = Some handler ->
  handler d request_data = Done (result, d1) ->
  len (response_data result) <= 54.
Proof.
  intros Hfind Hrun. apply find_handler_command_table in Hfind.
  cbn [command_table map snd In] in Hfind.
  destruct Hfind as [<-|[<-|[<-|[<-|[<-|[<-|[<-|[<-|[<-|[<-|[<-|[<-|[<-|[]]]]]]]]]]]]]].
  - handler_returns Hrun.
  - unfold handle_get_temp in Hrun.
    destruct (negb _); [handler_returns Hrun|].
    destruct (f32_le _ _); [handler_returns Hrun|].
    destruct (write_tlv_float32 _ _ _) as [t|] eqn:Hw; handler_returns Hrun.
    apply write_tlv_float32_len in Hw. lia.
  - unfold handle_get_rtc_date in Hrun.
    destruct (negb _); [handler_returns Hrun|].
    destruct (rtc_get_date d) as [date|]; [|handler_returns Hrun].
    destruct (write_uint8_fields _ _ _) as [out|] eqn:Hw; handler_returns Hrun.
    apply write_uint8_fields_len in Hw. cbn [length] in Hw. rewrite len_nil in Hw. lia.
  - unfold handle_get_rtc_time in Hrun.
    destruct (negb _); [handler_returns Hrun|].
    destruct (rtc_get_time d) as [time|]; [|handler_returns Hrun].
    destruct (write_uint8_fields _ _ _) as [out|] eqn:Hw; handler_returns Hrun.
    apply write_uint8_fields_len in Hw. cbn [length] in Hw. rewrite len_nil in Hw. lia.
  - unfold handle_set_rtc_date in Hrun.
    destruct (negb _); [handler_returns Hrun|].
    destruct (read_uint8_fields _ _) as [[|y [|m [|dd [|w [|]]]]]| |];
      try handler_returns Hrun.
    destruct (rtc_set_date d _) as [[] d']; handler_returns Hrun.
  - unfold handle_set_rtc_time in Hrun.
    destruct (negb _); [handler_returns Hrun|].
    destruct (read_uint8_fields _ _) as [[|h [|m [|s [|]]]]| |];
      try handler_returns Hrun.
    destruct (rtc_set_time d _) as [[] d']; handler_returns Hrun.
  - unfold handle_get_alarms in Hrun.
    destruct (alarm_items d [0; 1] []) as [items|] eqn:Hitems;
      cbn [mbind option_bind] in Hrun; [|handler_returns Hrun].
    destruct (write_tlv_raw _ _ items) as [al|] eqn:Hw; handler_returns Hrun.
    apply write_tlv_raw_len in Hw. apply alarm_items_len in Hitems.
    cbn [length] in Hitems. rewrite len_nil in Hitems. lia.
  - unfold handle_set_alarms in Hrun.
    destruct (read_tlv_raw _ _ _); handler_returns Hrun.
  - destruct (handle_get_log_empty _ _ _ _ Hrun) as [-> | Hneg]; [vm_compute; discriminate|].
    unfold handle_get_log in Hrun.
    destruct (read_or 0 _); [|done]. destruct (read_or 0 _); [|done].
    destruct (read_or 100 _); [|done].
    destruct (write_tlv_raw _ _ _); handler_returns Hrun. simpl in Hneg. lia.
  - handler_returns Hrun.
  - handler_returns Hrun.
  - handler_returns Hrun.
  - handler_returns Hrun.
Qed.

(** ** From the received frame to the response *)

(** For every dispatched request whose instruction is found in the
    command table and whose handler returns, the response payload is the IN
    TLV echoing the instruction and the ST TLV carrying the handler's
    status, followed by a DA TLV exactly when there is response data, framed
    as a DEVICE_RESPONSE (0x11); whenever the handler returns a negative
    value the status is INTERNAL_ERROR (0xFF) and the response data empty,
    whatever the handler wrote.  This holds for any table whose handler
    answers at most 225 bytes, and, through [process_received_data], for the
    command table of the firmware, where the response id of the frame sent
    is the packet id of the request parsed. *)
Theorem dispatcher_response :
  (forall (table : list (string * CommandHandler)) (d : Device) (packet_data : list Z)
          (response_id : Z) (bytes : list Z) (handler : CommandHandler)
          (result : HandlerResult) (d1 : Device),
      read_tlv_string packet_data TAG_INSTRUCTION 5 = Found bytes ->
      find_handler table (c_string bytes) = Some handler ->
      handler d (match read_tlv_raw packet_data TAG_DATA MAX_DATA_SIZE with
                 | Found request_data => request_data
                 | _ => []
                 end) = Done (result, d1) ->
      len (response_data result) <= 225 ->
      let instruction := c_string bytes in
      let failed := ret result <? 0 in
      let status := if failed then STATUS_INTERNAL_ERROR else handler_status result in
      let response := if failed then [] else response_data result in
      let payload :=
        tlv TAG_INSTRUCTION instruction ++ tlv TAG_STATUS [status mod 256]
          ++ (if 0 <? len response then tlv TAG_DATA response else []) in
      exists frame crc,
        process_command_packet_with table d packet_data response_id = Done (Some frame, d1)
        /\ frame_body frame
           = Some (header_bytes {| h_version := PROTOCOL_VERSION;
                                   h_type := PKT_TYPE_SLAVE_RESPONSE;
                                   h_packet_id := 0x8000;
                                   h_response_id := response_id;
                                   h_data_length := len payload |}
                     ++ payload ++ le32 crc))
  /\ (forall (d : Device) (packet_data : list Z) (header : PacketHeader) (bytes : list Z)
             (handler : CommandHandler) (result : HandlerResult) (d1 : Device),
        4 <= len (rx_buffer d) ->
        parse_packet (hw d) (rx_buffer d) (header_of_bytes (stack_garbage (hw d)))
                     MAX_DATA_SIZE
        = (Some packet_data, header) ->
        h_type header = PKT_TYPE_HOST_REQUEST ->
        read_tlv_string packet_data TAG_INSTRUCTION 5 = Found bytes ->
        find_handler command_table (c_string bytes) = Some handler ->
        handler (packet_counted d)
                (match read_tlv_raw packet_data TAG_DATA MAX_DATA_SIZE with
                 | Found request_data => request_data
                 | _ => []
                 end) = Done (result, d1) ->
        let instruction := c_string bytes in
        let failed := ret result <? 0 in
        let status := if failed then STATUS_INTERNAL_ERROR else handler_status result in
        let response := if failed then [] else response_data result in
        let payload :=
          tlv TAG_INSTRUCTION instruction ++ tlv TAG_STATUS [status mod 256]
            ++ (if 0 <? len response then tlv TAG_DATA response else []) in
        exists frame crc,
          process_received_data d = Done (0, send_response_packet d1 frame)
          /\ frame_body frame
             = Some (header_bytes {| h_version := PROTOCOL_VERSION;
                                     h_type := PKT_TYPE_SLAVE_RESPONSE;
                                     h_packet_id := 0x8000;
                                     h_response_id := h_packet_id header;
                                     h_data_length := len payload |}
                       ++ payload ++ le32 crc)).
Proof.
  split; [exact process_command_packet_with_response|].
  intros d packet_data header bytes handler result d1.
  intros Hrx Hparse Htype Hin Hfind Hrun instruction failed status response payload.
  pose proof (command_table_response_size _ _ _ _ _ _ Hfind Hrun) as Hsize.
  destruct (process_command_packet_with_response
              command_table (packet_counted d) packet_data (h_packet_id header)
              bytes handler result d1 Hin Hfind Hrun ltac:(lia))
    as (frame & crc & Hprocess & Hbody).
  exists frame, crc. split; [|exact Hbody].
  unfold process_received_data.
  destruct (len (rx_buffer d) <? 4) eqn:E; [exfalso; lia|].
  destruct (find_packet_boundaries (rx_buffer d)) as [bounds|] eqn:Hbounds.
  - rewrite Hparse, Htype. rewrite Z.eqb_refl. cbn [negb].
    fold (packet_counted d). unfold process_command_packet. by rewrite Hprocess.
  - unfold parse_packet in Hparse. by rewrite Hbounds in Hparse.
Qed.

Lemma dispatcher_response_witness :
  let request :=
    [0xAA; 0x55; 0x02; 0x00; 0x05; 0x00; 0x00; 0x00; 0x08; 0x00;
     0x49; 0x4E; 0x04; 0x00; 0x74; 0x65; 0x6D; 0x70;
     0x60; 0x02; 0x00; 0x00; 0x55; 0xAA] in
  let d := with_rx_buffer scenario_device request in
  let d1 := match handle_get_temp (packet_counted d) [] with
            | Done (_, d1) => d1
            | Undefined => d
            end in
  exists frame crc,
    process_received_data d = Done (0, send_response_packet d1 frame)
    /\ frame_body frame
       = Some (header_bytes {| h_version := PROTOCOL_VERSION;
                               h_type := PKT_TYPE_SLAVE_RESPONSE;
                               h_packet_id := 0x8000;
                               h_response_id := 5;
                               h_data_length := 25 |}
                 ++ (tlv TAG_INSTRUCTION (js "temp") ++ tlv TAG_STATUS [STATUS_OK]
                       ++ tlv TAG_DATA (tlv TAG_TEMPERATURE (le32 0x41B40000)))
                 ++ le32 crc).
Proof.
  intros request d d1.
  destruct dispatcher_response as [_ Hreceived].
  apply (Hreceived d (tlv TAG_INSTRUCTION (js "temp"))
           {| h_version := PROTOCOL_VERSION; h_type := PKT_TYPE_HOST_REQUEST;
              h_packet_id := 5; h_response_id := 0; h_data_length := 8 |}
           (js "temp") handle_get_temp
           {| ret := 0; response_data := tlv TAG_TEMPERATURE (le32 0x41B40000);
              handler_status := STATUS_OK |}
           d1).
  - vm_compute. discriminate.
  - vm_compute. reflexivity.
  - reflexivity.
  - vm_compute. reflexivity.
  - reflexivity.
  - vm_compute. reflexivity.
Defined.

(** ** Parameters shorter than one TLV header *)

Lemma read_tlv_short accept buffer tag : len buffer < 4 -> read_tlv accept buffer tag = Overrun.
Proof. intros H. unfold read_tlv. destruct (len buffer <? 4) eqn:E; [done|lia]. Qed.

(** The handlers that scan their parameters do so whatever their length. *)
Lemma scanning_handlers_overrun d instruction request_data :
  instruction = js "glog" \/ instruction = js "salm"
  \/ (rtc_is_initialized d = true
      /\ (instruction = js "sdat" \/ instruction = js "stim")) ->
  len request_data < 4 ->
  exists handler,
    find_handler command_table instruction = Some handler
    /\ handler d request_data = Undefined.
Proof.
  intros Hcmd Hshort.
  destruct Hcmd as [->|[->|[Hrtc [->| ->]]]].
  - exists handle_get_log. split; [reflexivity|].
    unfold handle_get_log, read_tlv_uint64. by rewrite read_tlv_short.
  - exists handle_set_alarms. split; [reflexivity|].
    unfold handle_set_alarms, read_tlv_raw. by rewrite read_tlv_short.
  - exists handle_set_rtc_date. split; [reflexivity|].
    unfold handle_set_rtc_date. rewrite Hrtc. cbn [negb read_uint8_fields].
    unfold read_tlv_uint8. by rewrite read_tlv_short.
  - exists handle_set_rtc_time. split; [reflexivity|].
    unfold handle_set_rtc_time. rewrite Hrtc. cbn [negb read_uint8_fields].
    unfold read_tlv_uint8. by rewrite read_tlv_short.
Qed.

Lemma process_command_packet_overrun d packet_data response_id bytes :
  read_tlv_string packet_data TAG_INSTRUCTION 5 = Found bytes ->
  c_string bytes = js "glog" \/ c_string bytes = js "salm"
  \/ (rtc_is_initialized d = true
      /\ (c_string bytes = js "sdat" \/ c_string bytes = js "stim")) ->
  (forall request_data,
      read_tlv_raw packet_data TAG_DATA MAX_DATA_SIZE = Found request_data ->
      len request_data < 4) ->
  process_command_packet d packet_data response_id = Undefined.
Proof.
  intros Hin Hcmd Hda.
  unfold process_command_packet, process_command_packet_with. rewrite Hin.
  destruct (read_tlv_raw packet_data TAG_DATA MAX_DATA_SIZE) as [request_data| |] eqn:Hraw.
  - destruct (scanning_handlers_overrun d (c_string bytes) request_data Hcmd
                (Hda request_data eq_refl)) as (handler & -> & ->). done.
  - destruct (scanning_handlers_overrun d (c_string bytes) [] Hcmd
                ltac:(vm_compute; reflexivity)) as (handler & -> & ->). done.
  - destruct (scanning_handlers_overrun d (c_string bytes) [] Hcmd
                ltac:(vm_compute; reflexivity)) as (handler & -> & _). done.
Qed.

(** C8, as the code runs it: a dispatched request for "glog" or "salm", or
    for "sdat" or "stim" on a device whose RTC is initialised, whose DA
    field is missing or holds fewer than 4 bytes, gets no response payload
    at all: the dispatcher hands the handler an empty or short parameter
    buffer, and the handler's TLV scan, bounded by [buffer_size - 4] on
    [size_t], leaves that buffer.  This holds for [process_command_packet]
    and, through it, for [process_received_data] on the frame received. *)
Theorem dispatcher_overruns_short_parameters :
  (forall (d : Device) (packet_data : list Z) (response_id : Z) (bytes : list Z),
      read_tlv_string packet_data TAG_INSTRUCTION 5 = Found bytes ->
      c_string bytes = js "glog" \/ c_string bytes = js "salm"
      \/ (rtc_is_initialized d = true
          /\ (c_string bytes = js "sdat" \/ c_string bytes = js "stim")) ->
      (forall request_data,
          read_tlv_raw packet_data TAG_DATA MAX_DATA_SIZE = Found request_data ->
          len request_data < 4) ->
      process_command_packet d packet_data response_id = Undefined)
  /\ (forall (d : Device) (packet_data : list Z) (header : PacketHeader) (bytes : list Z),
        4 <= len (rx_buffer d) ->
        parse_packet (hw d) (rx_buffer d) (header_of_bytes (stack_garbage (hw d)))
                     MAX_DATA_SIZE
        = (Some packet_data, header) ->
        h_type header = PKT_TYPE_HOST_REQUEST ->
        read_tlv_string packet_data TAG_INSTRUCTION 5 = Found bytes ->
        c_string bytes = js "glog" \/ c_string bytes = js "salm"
        \/ (rtc_is_initialized d = true
            /\ (c_string bytes = js "sdat" \/ c_string bytes = js "stim")) ->
        (forall request_data,
            read_tlv_raw packet_data TAG_DATA MAX_DATA_SIZE = Found request_data ->
            len request_data < 4) ->
        process_received_data d = Undefined).
Proof.
  split; [exact process_command_packet_overrun|].
  intros d packet_data header bytes Hrx Hparse Htype Hin Hcmd Hda.
  unfold process_received_data.
  destruct (len (rx_buffer d) <? 4) eqn:E; [exfalso; lia|].
  destruct (find_packet_boundaries (rx_buffer d)) as [bounds|] eqn:Hbounds.
  - rewrite Hparse, Htype. rewrite Z.eqb_refl. cbn [negb].
    fold (packet_counted d).
    by rewrite (process_command_packet_overrun (packet_counted d) packet_data
                  (h_packet_id header) bytes Hin Hcmd Hda).
  - unfold parse_packet in Hparse. by rewrite Hbounds in Hparse.
Qed.

Lemma dispatcher_overruns_short_parameters_witness :
  let request :=
    [0xAA; 0x55; 0x02; 0x00; 0x05; 0x00; 0x00; 0x00; 0x08; 0x00;
     0x49; 0x4E; 0x04; 0x00; 0x67; 0x6C; 0x6F; 0x67;
     0x53; 0x02; 0x00; 0x00; 0x55; 0xAA] in
  process_command_packet scenario_device (tlv TAG_INSTRUCTION (js "glog")) 5 = Undefined
  /\ process_command_packet scenario_device (tlv TAG_INSTRUCTION (js "sdat")) 5 = Undefined
  /\ process_received_data (with_rx_buffer scenario_device request) = Undefined.
Proof.
  intros request.
  destruct dispatcher_overruns_short_parameters as [Hcommand Hreceived].
  split; [|split].
  - apply (Hcommand scenario_device (tlv TAG_INSTRUCTION (js "glog")) 5 (js "glog")).
    + reflexivity.
    + left. reflexivity.
    + intros request_data H. vm_compute in H. discriminate.
  - apply (Hcommand scenario_device (tlv TAG_INSTRUCTION (js "sdat")) 5 (js "sdat")).
    + reflexivity.
    + right. right. split; [reflexivity|]. left. reflexivity.
    + intros request_data H. vm_compute in H. discriminate.
  - apply (Hreceived (with_rx_buffer scenario_device request)
                     (tlv TAG_INSTRUCTION (js "glog"))
                     {| h_version := PROTOCOL_VERSION; h_type := PKT_TYPE_HOST_REQUEST;
                        h_packet_id := 5; h_response_id := 0; h_data_length := 8 |}
                     (js "glog")).
    + vm_compute. discriminate.
    + reflexivity.
    + reflexivity.
    + reflexivity.
    + left. reflexivity.
    + intros request_data H. vm_compute in H. discriminate.
Defined.

(** ** The packet ids of the device *)

Lemma process_command_packet_dispatched d packet_data response_id bytes handler result d1 :
  read_tlv_string packet_data TAG_INSTRUCTION 5 = Found bytes ->
  find_handler command_table (c_string bytes) = Some handler ->
  handler d (match read_tlv_raw packet_data TAG_DATA MAX_DATA_SIZE with
             | Found request_data => request_data
             | _ => []
             end) = Done (result, d1) ->
  exists frame,
    process_command_packet d packet_data response_id = Done (Some frame, d1)
    /\ h_packet_id <$> frame_header frame = Some 0x8000.
Proof.
  intros Hin Hfind Hrun.
  pose proof (command_table_response_size _ _ _ _ _ _ Hfind Hrun) as Hsize.
  destruct (process_command_packet_with_response
              command_table d packet_data response_id bytes handler result d1
              Hin Hfind Hrun ltac:(lia)) as (frame & crc & Hprocess & _).
  exists frame. split; [exact Hprocess|].
  exact (process_command_packet_id _ _ _ _ _ _ Hprocess).
Qed.

(** C10: every response frame the device builds for a dispatched command
    carries the constant packet id 0x8000, and a dispatched command of the
    command table whose handler returns does yield such a frame; the
    counter of the error frames starts at 0x8000, each error frame carries
    its current value and leaves it incremented by one as a 16-bit value;
    so the n-th error frame of a freshly booted device carries
    (0x8000 + n) mod 2^16, which for n < 0x8000 is none of the packet
    numbers 0..127 the host hands out. *)
Theorem device_packet_ids :
  (forall table d packet_data response_id frame d',
     process_command_packet_with table d packet_data response_id = Done (Some frame, d') ->
     h_packet_id <$> frame_header frame = Some 0x8000)
  /\ (forall d packet_data response_id bytes handler result d1,
        read_tlv_string packet_data TAG_INSTRUCTION 5 = Found bytes ->
        find_handler command_table (c_string bytes) = Some handler ->
        handler d (match read_tlv_raw packet_data TAG_DATA MAX_DATA_SIZE with
                   | Found request_data => request_data
                   | _ => []
                   end) = Done (result, d1) ->
        exists frame,
          process_command_packet d packet_data response_id = Done (Some frame, d1)
          /\ h_packet_id <$> frame_header frame = Some 0x8000)
  /\ (forall hardware, packet_id_counter (initial_device hardware) = 0x8000)
  /\ (forall d response_id error_code error_desc,
        len error_desc <= 230 ->
        exists frame,
          error_packet d response_id error_code error_desc
          = (Some frame, (packet_id_counter d + 1) mod 2^16)
          /\ h_packet_id <$> frame_header frame = Some (packet_id_counter d mod 2^16)
          /\ packet_id_counter (send_error_response d response_id error_code error_desc).2
             = (packet_id_counter d + 1) mod 2^16)
  /\ (forall hardware calls (n : nat) call,
        Forall (fun c : Z * Z * list Z => len c.2 <= 230) calls ->
        calls !! n = Some call ->
        exists frame id,
          error_packets (initial_device hardware) calls !! n = Some (Some frame)
          /\ h_packet_id <$> frame_header frame = Some id
          /\ id = (0x8000 + Z.of_nat n) mod 2^16
          /\ (Z.of_nat n < 0x8000 ->
              forall counter, id <> getNextPacketNumber counter)).
Proof.
  split; [|split; [|split; [|split]]].
  - apply process_command_packet_id.
  - exact process_command_packet_dispatched.
  - reflexivity.
  - intros d rid code desc Hdesc.
    destruct (error_packet_ok d rid code desc Hdesc) as (frame & He & Hid).
    exists frame. split; [done|]. split; [done|].
    by rewrite send_error_response_counter, He.
  - intros hardware calls n call Hall Hn.
    destruct (error_packets_ids calls (initial_device hardware) n call Hall Hn)
      as (frame & Hf & Hid).
    exists frame, ((0x8000 + Z.of_nat n) mod 2^16). split; [done|]. split; [done|].
    split; [done|]. intros Hlt counter. unfold getNextPacketNumber, MAX_PACKET_NUMBER.
    rewrite Z.mod_small by lia.
    pose proof (Z.mod_pos_bound (counter + 1) (127 + 1)). lia.
Qed.

Lemma device_packet_ids_witness :
  let response :=
    [0xAA; 0x55; 0x02; 0x11; 0x00; 0x80; 0x05; 0x00; 0x0D; 0x00;
     0x49; 0x4E; 0x04; 0x00; 0x70; 0x69; 0x6E; 0x67;
     0x53; 0x54; 0x01; 0x00; 0x00;
     0x96; 0x03; 0x00; 0x00; 0x55; 0xAA] in
  process_command_packet scenario_device (tlv TAG_INSTRUCTION (js "ping")) 5
  = Done (Some response, scenario_device)
  /\ h_packet_id <$> frame_header response = Some 0x8000
  /\ (exists frame,
        process_command_packet scenario_device (tlv TAG_INSTRUCTION (js "temp")) 6
        = Done (Some frame,
                match handle_get_temp scenario_device [] with
                | Done (_, d1) => d1
                | Undefined => scenario_device
                end)
        /\ h_packet_id <$> frame_header frame = Some 0x8000)
  /\ (exists frame,
        error_packet (initial_device scenario_hardware) 1 ERROR_CODE_CORRUPT (js "bad")
        = (Some frame, 0x8001)
        /\ h_packet_id <$> frame_header frame = Some 0x8000
        /\ packet_id_counter
             (send_error_response (initial_device scenario_hardware) 1
                                  ERROR_CODE_CORRUPT (js "bad")).2
           = 0x8001)
  /\ (exists frame id,
        error_packets (initial_device scenario_hardware)
                      [(1, ERROR_CODE_CORRUPT, js "bad"); (2, ERROR_CODE_UNKNOWN, js "worse")]
          !! 1%nat
        = Some (Some frame)
        /\ h_packet_id <$> frame_header frame = Some id
        /\ id = 0x8001
        /\ (Z.of_nat 1 < 0x8000 -> forall counter, id <> getNextPacketNumber counter)).
Proof.
  intros response.
  destruct device_packet_ids as (Hframe & Hdispatched & _ & Herror & Hnth).
  assert (process_command_packet scenario_device (tlv TAG_INSTRUCTION (js "ping")) 5
          = Done (Some response, scenario_device)) as Hping by reflexivity.
  split; [exact Hping|]. split; [|split; [|split]].
  - exact (Hframe command_table scenario_device (tlv TAG_INSTRUCTION (js "ping")) 5
                  response scenario_device Hping).
  - apply (Hdispatched scenario_device (tlv TAG_INSTRUCTION (js "temp")) 6 (js "temp")
                       handle_get_temp
                       (match handle_get_temp scenario_device [] with
                        | Done (result, _) => result
                        | Undefined =>
                          {| ret := 0; response_data := []; handler_status := 0 |}
                        end)).
    + reflexivity.
    + reflexivity.
    + reflexivity.
  - apply (Herror (initial_device scenario_hardware) 1 ERROR_CODE_CORRUPT (js "bad")).
    vm_compute. discriminate.
  - apply (Hnth scenario_hardware
             [(1, ERROR_CODE_CORRUPT, js "bad"); (2, ERROR_CODE_UNKNOWN, js "worse")]
             1%nat (2, ERROR_CODE_UNKNOWN, js "worse")).
    + repeat constructor; vm_compute; discriminate.
    + reflexivity.
Defined.

(** ** The CRC detects every single inverted bit *)

Lemma spec_crc_byte_lxor_init s e b :
  spec_crc_byte (Z.lxor s e) b
  = Z.lxor (spec_crc_byte s b) (Nat.iter 8 spec_crc_bit e).
Proof.
  unfold spec_crc_byte. rewrite <- iter_spec_crc_bit_lxor. f_equal.
  rewrite !Z.lxor_assoc. f_equal. apply Z.lxor_comm.
Qed.

Lemma fold_spec_crc_byte_lxor_init data : forall s e,
  fold_left spec_crc_byte data (Z.lxor s e)
  = Z.lxor (fold_left spec_crc_byte data s)
           (Nat.iter (8 * length data) spec_crc_bit e).
Proof.
  induction data as [|b data IH]; intros s e; [done|].
  cbn [fold_left length]. rewrite spec_crc_byte_lxor_init, IH. f_equal.
  replace (8 * S (length data))%nat with (8 * length data + 8)%nat by lia.
  by rewrite Nat.iter_add.
Qed.

Lemma spec_crc_byte_flip s b j :
  0 <= j ->
  spec_crc_byte s (Z.lxor b (2^j))
  = Z.lxor (spec_crc_byte s b) (Nat.iter 8 spec_crc_bit (2^(24 + j))).
Proof.
  intros Hj. unfold spec_crc_byte. rewrite <- iter_spec_crc_bit_lxor. f_equal.
  rewrite lxor_mul_pow2 by lia. rewrite Z.lxor_assoc. do 2 f_equal.
  rewrite <- Z.pow_add_r by lia. f_equal. lia.
Qed.

Lemma fold_spec_crc_byte_flip data : forall s (i : nat) j,
  (i < length data)%nat -> 0 <= j ->
  fold_left spec_crc_byte (flip_bit data i j) s
  = Z.lxor (fold_left spec_crc_byte data s)
           (Nat.iter (8 * (length data - i)) spec_crc_bit (2^(24 + j))).
Proof.
  induction data as [|b data IH]; intros s i j Hi Hj; [simpl in Hi; lia|].
  destruct i as [|i]; unfold flip_bit; cbn [alter list_alter fold_left length].
  - rewrite spec_crc_byte_flip by done. rewrite fold_spec_crc_byte_lxor_init. f_equal.
    replace (8 * (S (length data) - 0))%nat with (8 * length data + 8)%nat by lia.
    by rewrite Nat.iter_add.
  - fold (flip_bit data i j). rewrite IH by (simpl in Hi; lia). do 2 f_equal.
Qed.

Lemma spec_crc_bit_pos x : 0 < x < 2^32 -> 0 < spec_crc_bit x < 2^32.
Proof.
  intros Hx. unfold spec_crc_bit.
  assert (0 <= (2 * x) mod 2^32 < 2^32) as Hm by (apply Z.mod_pos_bound; lia).
  destruct (Z.testbit x 31) eqn:Hb.
  - pose proof (lxor_nonneg_range ((2 * x) mod 2^32) 0x04C11DB7 32
                  ltac:(lia) Hm ltac:(zlia)) as Hr.
    split; [|lia].
    assert (Z.lxor ((2 * x) mod 2^32) 0x04C11DB7 <> 0) as Hne; [|lia].
    intros H0. apply Z.lxor_eq in H0.
    assert (Z.odd ((2 * x) mod 2^32) = true) as Ho by (rewrite H0; reflexivity).
    rewrite <- Z.bit0_odd in Ho.
    rewrite Z.mod_pow2_bits_low in Ho by lia.
    rewrite Z.bit0_odd, Z.odd_mul in Ho. discriminate.
  - assert (x < 2^31) as Hlt.
    { destruct (Z.lt_ge_cases x (2^31)) as [|Hge]; [done|]. exfalso.
      assert (Z.testbit x 31 = true) as Ht; [|congruence].
      apply Z.testbit_true; [lia|].
      replace (x / 2^31) with 1; [done|].
      apply Z.div_unique with (r := x - 2^31); zlia. }
    rewrite Z.mod_small by zlia. zlia.
Qed.

Lemma iter_spec_crc_bit_pos (k : nat) x :
  0 < x < 2^32 -> 0 < Nat.iter k spec_crc_bit x < 2^32.
Proof. intros Hx. induction k as [|k IH]; [done|]. simpl. by apply spec_crc_bit_pos. Qed.

Lemma lxor_cancel_r a b c : Z.lxor a c = Z.lxor b c -> a = b.
Proof.
  intros H. apply (f_equal (fun x => Z.lxor x c)) in H.
  by rewrite !Z.lxor_assoc, Z.lxor_nilpotent, !Z.lxor_0_r in H.
Qed.

Lemma spec_crc32_flip data (i : nat) j :
  (i < length data)%nat -> 0 <= j < 8 ->
  spec_crc32 (flip_bit data i j) <> spec_crc32 data.
Proof.
  intros Hi Hj. unfold spec_crc32.
  rewrite fold_spec_crc_byte_flip by lia.
  set (crc := fold_left spec_crc_byte data 4294967295).
  set (e := Nat.iter _ spec_crc_bit _).
  assert (0 < e < 2^32) as He.
  { apply iter_spec_crc_bit_pos. split; [apply Z.pow_pos_nonneg; lia|].
    apply Z.pow_lt_mono_r; lia. }
  intros H. apply lxor_cancel_r in H.
  rewrite <- (Z.lxor_0_r crc) in H at 2.
  rewrite !(Z.lxor_comm crc) in H. apply lxor_cancel_r in H. lia.
Qed.

Lemma is_bytes_flip_bit data i j :
  is_bytes data -> 0 <= j < 8 -> is_bytes (flip_bit data i j).
Proof.
  intros Hdata Hj. unfold flip_bit. apply Forall_alter; [done|].
  intros b _ Hb. unfold is_byte in *. 
  apply (lxor_nonneg_range b (2^j) 8); [lia|done|].
  split; [apply Z.pow_nonneg; lia|apply Z.pow_lt_mono_r; lia].
Qed.

Lemma calculateCRC32_flip_bit (data : list Z) (i : nat) (j : Z) :
  is_bytes data -> (i < length data)%nat -> 0 <= j < 8 ->
  calculateCRC32 (flip_bit data i j) <> calculateCRC32 data.
Proof.
  intros Hdata Hi Hj Heq.
  apply (spec_crc32_flip data i j Hi Hj).
  rewrite <- !calculateCRC32_bytes by (try apply is_bytes_flip_bit; done).
  by rewrite Heq.
Qed.

(** Inverting any one bit of the input changes the value
    [calculateCRC32] returns. *)
Theorem crc_detects_bit_flip (data : list Z) (i : nat) (j : Z) :
  is_bytes data -> (i < length data)%nat -> 0 <= j < 8 ->
  calculateCRC32 (flip_bit data i j) <> calculateCRC32 data.
Proof. exact (calculateCRC32_flip_bit data i j). Qed.

Lemma crc_detects_bit_flip_witness :
  calculateCRC32 (flip_bit [0x02; 0x00; 0x01] 1 7) <> calculateCRC32 [0x02; 0x00; 0x01].
Proof.
  apply (crc_detects_bit_flip [0x02; 0x00; 0x01] 1 7).
  - apply is_bytes_check. reflexivity.
  - simpl. lia.
  - lia.
Defined.

(** ** What [decodePacket] accepts *)

Lemma crcData_of_frame buffer n :
  is_bytes buffer -> 16 <= len buffer -> 0 <= n ->
  crcData (nth 2 buffer 0) (nth 3 buffer 0) (le_value (slice buffer 4 6))
          (le_value (slice buffer 6 8)) (le_value (slice buffer 8 10))
          (slice buffer 10 (10 + n))
  = slice buffer 2 (10 + n).
Proof.
  intros Hbytes Hlen Hn.
  destruct buffer as [|b0 [|b1 [|b2 [|b3 [|b4 [|b5 [|b6 [|b7 [|b8 [|b9 rest]]]]]]]]]];
    try (exfalso; clear -Hlen; vm_compute in Hlen; by apply Hlen).
  repeat (apply Forall_cons in Hbytes as [? Hbytes]).
  unfold crcData.
  change (slice (b0 :: b1 :: b2 :: b3 :: b4 :: b5 :: b6 :: b7 :: b8 :: b9 :: rest) 4 6)
    with [b4; b5].
  change (slice (b0 :: b1 :: b2 :: b3 :: b4 :: b5 :: b6 :: b7 :: b8 :: b9 :: rest) 6 8)
    with [b6; b7].
  change (slice (b0 :: b1 :: b2 :: b3 :: b4 :: b5 :: b6 :: b7 :: b8 :: b9 :: rest) 8 10)
    with [b8; b9].
  rewrite !le16_le_value by done.
  change (nth 2 _ 0) with b2. change (nth 3 _ 0) with b3.
  rewrite !Z.mod_small by done.
  unfold slice. replace (Z.to_nat (10 + n - 2)) with (8 + Z.to_nat n)%nat by lia.
  replace (Z.to_nat (10 + n - 10)) with (Z.to_nat n) by lia.
  reflexivity.
Qed.

Lemma decodePacket_accepts buffer packet :
  is_bytes buffer -> decodePacket buffer = Ok packet ->
  let n := le_value (slice buffer 8 10) in
  0 <= n /\ 16 + n <= len buffer
  /\ slice buffer 0 2 = START_BYTES
  /\ le_value (slice buffer (10 + n) (14 + n)) = calculateCRC32 (slice buffer 2 (10 + n))
  /\ slice buffer (14 + n) (16 + n) = END_BYTES
  /\ decode_loop (decodeTLV (slice buffer 10 (10 + n)))
                 (S (length (slice buffer 10 (10 + n))))
                 (len (slice buffer 10 (10 + n))) 0 []
     = Ok (data packet)
  /\ version packet = nth 2 buffer 0 /\ type packet = nth 3 buffer 0
  /\ packetNumber packet = le_value (slice buffer 4 6)
  /\ responseNumber packet = le_value (slice buffer 6 8).
Proof.
  intros Hbytes. unfold decodePacket.
  destruct (len buffer <? 16) eqn:Hlen; [done|].
  destruct (bool_decide (slice buffer 0 2 = START_BYTES)) eqn:Hstart; [|done].
  apply bool_decide_eq_true in Hstart. cbn [negb].
  unfold getUint16.
  destruct (len buffer <? 4 + 2) eqn:E1; [exfalso; lia|].
  destruct (len buffer <? 6 + 2) eqn:E2; [exfalso; lia|].
  destruct (len buffer <? 8 + 2) eqn:E3; [exfalso; lia|].
  cbn [mbind result_bind].
  change (4 + 2) with 6. change (6 + 2) with 8. change (8 + 2) with 10.
  pose proof (le_value_nonneg _ (is_bytes_slice buffer 8 10 Hbytes)) as Hn.
  set (n := le_value (slice buffer 8 10)) in *.
  destruct (len buffer <? 10 + n + 4 + 2) eqn:E4; [done|].
  destruct (decode_loop _ _ _ _ _) as [fields|] eqn:Hfields; [|done].
  cbn [mbind result_bind]. unfold getUint32.
  destruct (len buffer <? 10 + n + 4) eqn:E5; [exfalso; lia|].
  cbn [mbind result_bind].
  destruct (_ =? _) eqn:Hcrc; [|done]. cbn [negb].
  destruct (bool_decide (slice buffer (10 + n + 4) (10 + n + 4 + 2) = END_BYTES)) eqn:Hend;
    [|done].
  apply bool_decide_eq_true in Hend. cbn [negb]. intros [= <-].
  apply Z.eqb_eq in Hcrc.
  rewrite crcData_of_frame in Hcrc by (done || lia).
  replace (14 + n) with (10 + n + 4) by lia.
  replace (16 + n) with (10 + n + 4 + 2) by lia.
  cbn [data version type packetNumber responseNumber].
  repeat split; try done; lia.
Qed.

(** A frame is only accepted when its CRC field, read as an unsigned
    number, is below 2^31: [calculateCRC32] returns a signed value. *)
Theorem decodePacket_needs_clear_top_bit (buffer : list Z) (packet : ProtocolPacket) :
  is_bytes buffer -> decodePacket buffer = Ok packet ->
  let n := le_value (slice buffer 8 10) in
  le_value (slice buffer (10 + n) (14 + n)) < 2^31.
Proof.
  intros Hbytes Hok n.
  destruct (decodePacket_accepts buffer packet Hbytes Hok) as (_ & _ & _ & Hcrc & _).
  fold n in Hcrc. rewrite Hcrc.
  apply calculateCRC32_range.
Qed.

Lemma decodePacket_needs_clear_top_bit_witness :
  exists frame,
    createGetTempRequest 1 = (Ok frame, 2)
    /\ le_value (slice frame (10 + le_value (slice frame 8 10))
                             (14 + le_value (slice frame 8 10))) < 2^31.
Proof.
  eexists. split; [vm_compute; reflexivity|].
  eapply decodePacket_needs_clear_top_bit;
    [apply is_bytes_check; reflexivity|vm_compute; reflexivity].
Defined.

Lemma slice_flip_bit_outside l i j a b :
  0 <= a -> (Z.of_nat i < a \/ b <= Z.of_nat i) ->
  slice (flip_bit l i j) a b = slice l a b.
Proof.
  intros Ha Hi. unfold slice, flip_bit.
  destruct (Z.lt_ge_cases (Z.of_nat i) a) as [Hlt|Hge].
  - by rewrite drop_alter_lt by lia.
  - rewrite drop_alter_ge by lia. rewrite take_alter_ge by lia. done.
Qed.

Lemma slice_flip_bit_inside l i j a b :
  0 <= a <= Z.of_nat i -> Z.of_nat i < b ->
  slice (flip_bit l i j) a b = flip_bit (slice l a b) (i - Z.to_nat a) j.
Proof.
  intros Ha Hb. unfold slice, flip_bit.
  rewrite drop_alter_ge by lia. rewrite take_alter_lt by lia. done.
Qed.

Lemma nth_flip_bit_ne l i j k : i <> k -> nth k (flip_bit l i j) 0 = nth k l 0.
Proof.
  intros Hne. unfold flip_bit. rewrite !nth_lookup.
  by rewrite list_lookup_alter_ne.
Qed.

(** Once a frame is accepted, the same frame with one bit inverted in its
    version, type, packet number, response number or payload is refused. *)
Theorem decodePacket_detects_bit_flip (buffer : list Z) (packet : ProtocolPacket)
    (i : nat) (j : Z) :
  is_bytes buffer -> decodePacket buffer = Ok packet ->
  2 <= Z.of_nat i < 8
  \/ 10 <= Z.of_nat i < 10 + le_value (slice buffer 8 10) ->
  0 <= j < 8 ->
  exists e, decodePacket (flip_bit buffer i j) = Throw e.
Proof.
  intros Hbytes Hok Hi Hj.
  destruct (decodePacket (flip_bit buffer i j)) as [packet'|e] eqn:Hok'; [|by exists e].
  exfalso.
  pose proof (is_bytes_flip_bit buffer i j Hbytes Hj) as Hbytes'.
  destruct (decodePacket_accepts buffer packet Hbytes Hok) as (Hn & Hlen & _ & Hcrc & _).
  destruct (decodePacket_accepts _ packet' Hbytes' Hok') as (_ & _ & _ & Hcrc' & _).
  rewrite (slice_flip_bit_outside buffer i j 8 10) in Hcrc' by lia.
  set (n := le_value (slice buffer 8 10)) in *.
  rewrite (slice_flip_bit_outside buffer i j (10 + n) (14 + n)) in Hcrc' by lia.
  rewrite (slice_flip_bit_inside buffer i j 2 (10 + n)) in Hcrc' by lia.
  rewrite Hcrc in Hcrc'. symmetry in Hcrc'. revert Hcrc'.
  apply calculateCRC32_flip_bit; [by apply is_bytes_slice| |done].
  unfold slice. rewrite length_take, length_drop.
  unfold len in Hlen. lia.
Qed.

Lemma decodePacket_detects_bit_flip_witness :
  let frame :=
    [0xAA; 0x55; 0x02; 0x00; 0x02; 0x00; 0x00; 0x00; 0x0C; 0x00;
     0x49; 0x4E; 0x04; 0x00; 0x74; 0x65; 0x6D; 0x70; 0x44; 0x41; 0x00; 0x00;
     0x88; 0xF4; 0xD1; 0x32; 0x55; 0xAA] in
  createGetTempRequest 1 = (Ok frame, 2)
  /\ exists e, decodePacket (flip_bit frame 14 0) = Throw e.
Proof.
  intros frame. split; [vm_compute; reflexivity|].
  apply (decodePacket_detects_bit_flip frame
           {| version := VERSION; type := HOST_REQUEST; packetNumber := 2;
              responseNumber := 0;
              data := [(js "IN", VStr (js "temp")); (js "DA", VArr [])] |} 14 0).
  - apply is_bytes_check. reflexivity.
  - vm_compute. reflexivity.
  - right. vm_compute. split; [discriminate|reflexivity].
  - lia.
Defined.

(** ** Device frames in the host's reassembler *)

Lemma spec_escape_app a b : spec_escape (a ++ b) = spec_escape a ++ spec_escape b.
Proof. unfold spec_escape. by rewrite map_app, concat_app. Qed.

Lemma spec_escape_marker_free l : marker_free l = true -> spec_escape l = l.
Proof.
  induction l as [|x l IH]; [done|]. cbn [marker_free forallb].
  intros H. apply andb_prop in H as [Hx Hl]. rewrite spec_escape_cons.
  apply negb_true_iff in Hx. rewrite Hx. simpl. f_equal. by apply IH.
Qed.

Lemma build_packet_size hw type pid rid data size frame :
  build_packet hw type pid rid data size = Some frame -> len frame <= size.
Proof.
  unfold build_packet.
  destruct (size <? 16 + len data * 2); [done|].
  destruct (escape_data _ _) as [escaped|]; [|done].
  destruct (size <? 2 + len escaped + 2) eqn:E; [done|].
  intros [= <-]. cbn [app]. rewrite !len_cons, len_app.
  change (len [END_MARK_1; END_MARK_2]) with 2. lia.
Qed.

Lemma build_packet_min hw type pid rid data frame :
  build_packet hw type pid rid data MAX_PACKET_SIZE = Some frame -> 16 <= len frame.
Proof.
  intros Hbuild. apply build_packet_prefix in Hbuild as (k & -> & Hk).
  cbn [app]. rewrite !len_cons, len_app. change (len [END_MARK_1; END_MARK_2]) with 2.
  destruct Hk as [->|Hk]; [|lia].
  rewrite take_ge by lia.
  pose proof (len_spec_escape_ge (raw_packet hw type pid rid data)) as Hge.
  rewrite len_raw_packet in Hge. pose proof (len_nonneg data). lia.
Qed.

(** The first twelve bytes of a frame whose header needs no stuffing. *)
Lemma build_packet_head hw type pid rid t0 t1 rest frame :
  build_packet hw type pid rid (t0 :: t1 :: rest) MAX_PACKET_SIZE = Some frame ->
  marker_free (header_bytes {| h_version := PROTOCOL_VERSION; h_type := type;
                               h_packet_id := pid; h_response_id := rid;
                               h_data_length := len (t0 :: t1 :: rest) |} ++ [t0]) = true ->
  exists tail,
    frame = [START_MARK_1; START_MARK_2]
              ++ header_bytes {| h_version := PROTOCOL_VERSION; h_type := type;
                                 h_packet_id := pid; h_response_id := rid;
                                 h_data_length := len (t0 :: t1 :: rest) |}
              ++ [t0; t1] ++ tail
    /\ 2 <= len tail.
Proof.
  intros Hbuild Hfree.
  apply build_packet_prefix in Hbuild as (k & -> & Hk).
  set (h := header_bytes _) in *.
  assert (len h = 8) as Hh by apply len_header_bytes.
  assert (raw_packet hw type pid rid (t0 :: t1 :: rest)
          = (h ++ [t0]) ++ t1 :: rest
              ++ le32 (calculate_crc32 hw ((h ++ t0 :: t1 :: rest) ++ stack_garbage hw)
                                       (len (h ++ t0 :: t1 :: rest)))) as Hraw.
  { unfold raw_packet. fold h. rewrite <- !app_assoc. reflexivity. }
  set (crc := le32 _) in Hraw.
  assert (10 <= k)%nat as Hk10.
  { destruct Hk as [->|Hk].
    - rewrite Hraw. rewrite !length_app. simpl. lia.
    - pose proof (len_spec_escape_le (take k (raw_packet hw type pid rid (t0 :: t1 :: rest)))).
      assert (len (take k (raw_packet hw type pid rid (t0 :: t1 :: rest))) <= Z.of_nat k).
      { unfold len. rewrite length_take. lia. }
      lia. }
  rewrite Hraw in *.
  assert (length (h ++ [t0]) = 9%nat) as Hl9.
  { rewrite length_app. unfold len in Hh. simpl. lia. }
  rewrite take_app_ge by lia. rewrite Hl9.
  replace (k - 9)%nat with (S (k - 10)) by lia. cbn [take].
  rewrite spec_escape_app, spec_escape_marker_free by done.
  rewrite spec_escape_cons.
  set (tail := spec_escape (take (k - 10) (rest ++ crc))).
  destruct ((t1 =? 170) || (t1 =? 85)).
  - exists ([0] ++ tail ++ [END_MARK_1; END_MARK_2]). split.
    + rewrite <- !app_assoc. reflexivity.
    + rewrite !len_app. pose proof (len_nonneg tail).
      change (len [0]) with 1. change (len [END_MARK_1; END_MARK_2]) with 2. lia.
  - exists (tail ++ [END_MARK_1; END_MARK_2]). split.
    + rewrite <- !app_assoc. reflexivity.
    + rewrite !len_app. pose proof (len_nonneg tail).
      change (len [END_MARK_1; END_MARK_2]) with 2. lia.
Qed.

(** A frame built by the device whose header needs no stuffing, arriving
    alone at a host with an empty receive buffer, is neither delivered nor
    dropped when the first two bytes of its payload, read as a 16-bit
    length, exceed the frame: [tryParsePackets] takes the length from
    offset 10, where the payload starts. *)
Theorem device_frame_is_retained (m : Manager) (hw : Hardware) (type pid rid : Z)
    (t0 t1 : Z) (rest frame : list Z) :
  responseBuffer m = [] ->
  build_packet hw type pid rid (t0 :: t1 :: rest) MAX_PACKET_SIZE = Some frame ->
  marker_free (header_bytes {| h_version := PROTOCOL_VERSION; h_type := type;
                               h_packet_id := pid; h_response_id := rid;
                               h_data_length := len (t0 :: t1 :: rest) |} ++ [t0]) = true ->
  MAX_PACKET_SIZE < 16 + (t0 + 256 * t1) ->
  let m' := handleReceivedData m frame in
  responseBuffer m' = frame
  /\ handled m' = handled m
  /\ promises m' = promises m
  /\ pendingRequests m' = pendingRequests m.
Proof.
  intros Hbuf Hbuild Hfree Hlen.
  pose proof (build_packet_size _ _ _ _ _ _ _ Hbuild) as Hsize.
  destruct (build_packet_head _ _ _ _ _ _ _ _ Hbuild Hfree) as (tail & Hframe & Htail).
  set (h := header_bytes _) in *.
  assert (len h = 8) as Hh by apply len_header_bytes.
  pose proof (build_packet_min _ _ _ _ _ _ Hbuild) as H16.
  assert (slice frame 10 12 = [t0; t1]) as Hslice.
  { rewrite Hframe. rewrite (app_assoc _ h).
    apply slice_middle; rewrite ?len_app, ?Hh; reflexivity. }
  assert (find_start frame 0 = Some 0) as Hstart by (rewrite Hframe; reflexivity).
  unfold handleReceivedData, tryParsePackets.
  rewrite Hbuf. cbn [app set_responseBuffer responseBuffer tryParsePackets_fuel].
  destruct (len frame <? 16) eqn:E1; [exfalso; lia|].
  rewrite Hstart. cbn [Z.ltb Z.compare responseBuffer set_responseBuffer].
  rewrite E1, Hslice. cbn [le_value].
  destruct (len frame <? 16 + (t0 + 256 * (t1 + 256 * 0))) eqn:E2.
  - done.
  - exfalso. unfold MAX_PACKET_SIZE in *. lia.
Qed.

Lemma device_frame_is_retained_witness :
  exists frame,
    build_packet scenario_hardware PKT_TYPE_SLAVE_RESPONSE 0x8000 7
                 (tlv TAG_INSTRUCTION (js "ping") ++ tlv TAG_STATUS [STATUS_OK])
                 MAX_PACKET_SIZE
    = Some frame
    /\ responseBuffer (handleReceivedData (new_manager (Some true)) frame) = frame
    /\ handled (handleReceivedData (new_manager (Some true)) frame) = [].
Proof.
  eexists. split; [vm_compute; reflexivity|].
  destruct (device_frame_is_retained (new_manager (Some true)) scenario_hardware
              PKT_TYPE_SLAVE_RESPONSE 0x8000 7 0x49 0x4E
              [0x04; 0x00; 0x70; 0x69; 0x6E; 0x67; 0x53; 0x54; 0x01; 0x00; 0x00]
              [0xAA; 0x55; 0x02; 0x11; 0x00; 0x80; 0x07; 0x00; 0x0D; 0x00;
               0x49; 0x4E; 0x04; 0x00; 0x70; 0x69; 0x6E; 0x67;
               0x53; 0x54; 0x01; 0x00; 0x00; 0x98; 0x03; 0x00; 0x00; 0x55; 0xAA])
    as (Hbuffer & Hhandled & _).
  - reflexivity.
  - vm_compute. reflexivity.
  - vm_compute. reflexivity.
  - vm_compute. reflexivity.
  - split; [exact Hbuffer|exact Hhandled].
Defined.

(** ** The correlator *)

(** A frame that does not decode, or that is a DEVICE_ERROR frame, is parsed
    into a failure without command: it is filed under the key "unknown" and
    settles no request. *)
Theorem error_frames_settle_nothing (m : Manager) (buffer : list Z) :
  (forall packet, decodePacket buffer = Ok packet -> type packet = DEVICE_ERROR) ->
  pendingRequests m !! js "unknown" = None ->
  let response := parseResponse buffer in
  let m' := handleParsedResponse m response in
  success response = false
  /\ command response = VUndef
  /\ pendingRequests m' = pendingRequests m
  /\ promises m' = promises m
  /\ timers m' = timers m
  /\ handled m' = handled m ++ [response].
Proof.
  intros Herror Hunknown response m'.
  assert (success response = false /\ command response = VUndef) as [Hs Hc].
  { unfold response, parseResponse.
    destruct (decodePacket buffer) as [packet|e]; [|done].
    rewrite (Herror packet eq_refl). done. }
  split; [done|]. split; [done|].
  unfold m', handleParsedResponse, requestKey. rewrite Hc. cbn [truthy].
  cbn [pendingRequests]. rewrite Hunknown. done.
Qed.

Lemma error_frames_settle_nothing_witness :
  let m := (sendRequest (new_manager (Some true)) [] (js "temp")).1 in
  exists frame,
    encodePacket 3 DEVICE_ERROR
                 [(js "EC", VNum (NInt 1)); (js "ED", VStr (js "Packet corrupted"))] 5
    = (Ok frame, 4)
    /\ error_code (parseResponse frame) = Some (VNum (NInt 1))
    /\ promises (handleParsedResponse m (parseResponse frame)) !! 0%nat = Some Unsettled
    /\ pendingRequests (handleParsedResponse m (parseResponse frame)) = pendingRequests m.
Proof.
  intros m. eexists. split; [vm_compute; reflexivity|].
  split; [vm_compute; reflexivity|].
  match goal with
  | |- context [parseResponse ?f] =>
    destruct (error_frames_settle_nothing m f) as (_ & _ & Hpending & Hpromises & _)
  end.
  - intros packet H. vm_compute in H. injection H as <-. reflexivity.
  - vm_compute. reflexivity.
  - split; [|exact Hpending]. rewrite Hpromises. vm_compute. reflexivity.
Defined.

(** Two overlapping requests for the same command: the response resolves the
    later one, whatever packet numbers are involved; the earlier promise
    stays unsettled until its own timer fires. *)
Theorem response_resolves_latest_request (m : Manager) (rd1 rd2 c : list Z)
    (response : ParsedResponse) :
  device m = Some true ->
  command response = VStr c -> c <> [] ->
  let first := next_id m in
  let second := S (next_id m) in
  let m2 := (sendRequest (sendRequest m rd1 c).1 rd2 c).1 in
  let m3 := handleParsedResponse m2 response in
  promises m3 !! second = Some (Resolved response)
  /\ promises m3 !! first = Some Unsettled
  /\ pendingRequests m3 !! c = None
  /\ timers m3 !! second = None
  /\ timers m3 !! first = Some (c, first)
  /\ promises (timer_fired m3 first) !! first = Some (Rejected (RequestTimeout c))
  /\ promises (timer_fired m3 first) !! second = Some (Resolved response).
Proof.
  intros Hdev Hcmd Hc first second m2 m3.
  assert (truthy (VStr c) = true) as Htruthy.
  { cbn [truthy]. by rewrite bool_decide_eq_false_2. }
  assert (promises m3 = <[second := Resolved response]>
                          (<[second := Unsettled]> (<[first := Unsettled]> (promises m)))
          /\ pendingRequests m3 = delete c (<[c := {| pr_promise := second;
                                                      pr_timeout := second;
                                                      pr_command := c |}]>
                                 (<[c := {| pr_promise := first; pr_timeout := first;
                                            pr_command := c |}]> (pendingRequests m)))
          /\ timers m3 = delete second (<[second := (c, second)]>
                                          (<[first := (c, first)]> (timers m))))
    as (Hp & Hk & Ht).
  { unfold m3, m2, sendRequest. rewrite Hdev. cbn [fst device].
    rewrite ?Hdev. cbn [fst]. unfold handleParsedResponse, requestKey.
    rewrite Hcmd, Htruthy. cbn [pendingRequests next_id promises timers].
    rewrite lookup_insert_eq. unfold set_tables. cbn [pendingRequests promises timers].
    unfold settle. cbn [pr_promise pr_timeout]. rewrite lookup_insert_eq. done. }
  assert (first <> second) as Hne by (unfold first, second; lia).
  assert (promises m3 !! second = Some (Resolved response)) as H1
      by (rewrite Hp; apply lookup_insert_eq).
  assert (promises m3 !! first = Some Unsettled) as H2.
  { rewrite Hp. rewrite !lookup_insert_ne by done. apply lookup_insert_eq. }
  assert (timers m3 !! first = Some (c, first)) as H3.
  { rewrite Ht. rewrite lookup_delete_ne by done.
    rewrite lookup_insert_ne by done. apply lookup_insert_eq. }
  split; [done|]. split; [done|].
  split; [rewrite Hk; apply lookup_delete_eq|].
  split; [rewrite Ht; apply lookup_delete_eq|].
  split; [done|].
  unfold timer_fired. rewrite H3. unfold set_tables. cbn [promises].
  unfold settle. rewrite H2. split.
  - apply lookup_insert_eq.
  - by rewrite lookup_insert_ne.
Qed.

(** The timer of a request that was overwritten removes the request that
    replaced it: the response that then arrives finds nothing to resolve,
    and the later promise is left unsettled. *)
Theorem stale_timeout_drops_newer_request (m : Manager) (rd1 rd2 c : list Z)
    (response : ParsedResponse) :
  device m = Some true ->
  command response = VStr c -> c <> [] ->
  let first := next_id m in
  let second := S (next_id m) in
  let m2 := (sendRequest (sendRequest m rd1 c).1 rd2 c).1 in
  let m3 := timer_fired m2 first in
  let m4 := handleParsedResponse m3 response in
  promises m3 !! first = Some (Rejected (RequestTimeout c))
  /\ promises m3 !! second = Some Unsettled
  /\ pendingRequests m3 !! c = None
  /\ timers m3 !! second = Some (c, second)
  /\ promises m4 = promises m3
  /\ pendingRequests m4 = pendingRequests m3
  /\ handled m4 = handled m ++ [response].
Proof.
  intros Hdev Hcmd Hc first second m2 m3 m4.
  assert (truthy (VStr c) = true) as Htruthy.
  { cbn [truthy]. by rewrite bool_decide_eq_false_2. }
  assert (first <> second) as Hne by (unfold first, second; lia).
  assert (promises m3 = <[first := Rejected (RequestTimeout c)]>
                          (<[second := Unsettled]> (<[first := Unsettled]> (promises m)))
          /\ pendingRequests m3 = delete c (<[c := {| pr_promise := second;
                                                      pr_timeout := second;
                                                      pr_command := c |}]>
                                 (<[c := {| pr_promise := first; pr_timeout := first;
                                            pr_command := c |}]> (pendingRequests m)))
          /\ timers m3 = delete first (<[second := (c, second)]>
                                         (<[first := (c, first)]> (timers m)))
          /\ handled m3 = handled m)
    as (Hp & Hk & Ht & Hh).
  { unfold m3, m2, sendRequest. rewrite Hdev. cbn [fst device].
    rewrite ?Hdev. cbn [fst]. unfold timer_fired. cbn [timers next_id].
    fold first. fold second. rewrite lookup_insert_ne by done.
    rewrite lookup_insert_eq. unfold set_tables.
    cbn [pendingRequests promises timers handled].
    unfold settle. rewrite lookup_insert_ne by done. rewrite lookup_insert_eq. done. }
  assert (pendingRequests m3 !! c = None) as Hnone
      by (rewrite Hk; apply lookup_delete_eq).
  split; [rewrite Hp; apply lookup_insert_eq|].
  split; [rewrite Hp; rewrite lookup_insert_ne by done; apply lookup_insert_eq|].
  split; [done|].
  split; [rewrite Ht, lookup_delete_ne by done; apply lookup_insert_eq|].
  unfold m4, handleParsedResponse, requestKey. rewrite Hcmd, Htruthy.
  cbn [pendingRequests]. rewrite Hnone. cbn [promises pendingRequests handled].
  by rewrite Hh.
Qed.

Lemma response_resolves_latest_request_witness :
  let response := {| success := true; command := VStr (js "temp");
                     status := VNum (NInt STATUS_OK); error_code := None |} in
  let m2 := (sendRequest (sendRequest (new_manager (Some true)) [] (js "temp")).1
                         [] (js "temp")).1 in
  promises (handleParsedResponse m2 response) !! 1%nat = Some (Resolved response)
  /\ promises (handleParsedResponse m2 response) !! 0%nat = Some Unsettled.
Proof.
  intros response m2.
  destruct (response_resolves_latest_request (new_manager (Some true)) [] [] (js "temp")
              response) as (H1 & H2 & _).
  - reflexivity.
  - reflexivity.
  - discriminate.
  - split; [exact H1|exact H2].
Defined.

Lemma stale_timeout_drops_newer_request_witness :
  let response := {| success := true; command := VStr (js "temp");
                     status := VNum (NInt STATUS_OK); error_code := None |} in
  let m2 := (sendRequest (sendRequest (new_manager (Some true)) [] (js "temp")).1
                         [] (js "temp")).1 in
  promises (timer_fired m2 0) !! 1%nat = Some Unsettled
  /\ promises (handleParsedResponse (timer_fired m2 0) response)
     = promises (timer_fired m2 0).
Proof.
  intros response m2.
  destruct (stale_timeout_drops_newer_request (new_manager (Some true)) [] [] (js "temp")
              response) as (_ & H2 & _ & _ & H5 & _).
  - reflexivity.
  - reflexivity.
  - discriminate.
  - split; [exact H2|exact H5].
Defined.

Lemma settle_ne ps p q s : p <> q -> settle ps p s !! q = ps !! q.
Proof.
  intros Hne. unfold settle. destruct (ps !! p) as [[]|]; try done.
  by rewrite lookup_insert_ne.
Qed.

Lemma settle_settled ps p q s x :
  ps !! q = Some x -> x <> Unsettled -> settle ps p s !! q = Some x.
Proof.
  intros Hq Hx. destruct (decide (p = q)) as [->|Hne].
  - unfold settle. rewrite Hq. by destruct x.
  - by rewrite settle_ne.
Qed.

Lemma settle_unsettled ps p s : ps !! p = Some Unsettled -> settle ps p s !! p = Some s.
Proof. intros Hp. unfold settle. rewrite Hp. apply lookup_insert_eq. Qed.

(** [disconnectDevice()] on a manager with a device: every tracked request
    whose promise is still open is rejected with 'Device disconnected' and
    its timer cleared, the table and the receive buffer are emptied, nothing
    else is settled, and further requests are refused. *)
Theorem disconnect_rejects_pending (m : Manager) :
  device m <> None ->
  let m' := disconnectDevice m in
  device m' = None /\ responseBuffer m' = [] /\ pendingRequests m' = ∅
  /\ (forall k pr, pendingRequests m !! k = Some pr ->
        promises m !! pr_promise pr = Some Unsettled ->
        promises m' !! pr_promise pr = Some (Rejected Disconnected))
  /\ (forall k pr, pendingRequests m !! k = Some pr -> timers m' !! pr_timeout pr = None)
  /\ (forall p, (forall k pr, pendingRequests m !! k = Some pr -> pr_promise pr <> p) ->
        promises m' !! p = promises m !! p)
  /\ (forall requestData c, (sendRequest m' requestData c).2 = Throw DeviceNotConnected).
Proof.
  intros Hdev m'. unfold m', disconnectDevice.
  destruct (device m) as [connected|] eqn:Hd; [clear Hdev|done].
  cbn [device responseBuffer pendingRequests promises timers].
  unfold clearPendingRequests, set_tables. cbn [pendingRequests promises timers].
  split; [done|]. split; [done|]. split; [done|].
  assert ((forall k pr, pendingRequests m !! k = Some pr ->
             promises m !! pr_promise pr = Some Unsettled ->
             map_fold (fun _ pr ps => settle ps (pr_promise pr) (Rejected Disconnected))
                      (promises m) (pendingRequests m) !! pr_promise pr
             = Some (Rejected Disconnected))
          /\ (forall p, (forall k pr, pendingRequests m !! k = Some pr -> pr_promise pr <> p) ->
                map_fold (fun _ pr ps => settle ps (pr_promise pr) (Rejected Disconnected))
                         (promises m) (pendingRequests m) !! p
                = promises m !! p)
          /\ (forall p, promises m !! p = Some Unsettled ->
                map_fold (fun _ pr ps => settle ps (pr_promise pr) (Rejected Disconnected))
                         (promises m) (pendingRequests m) !! p = Some Unsettled
                \/ map_fold (fun _ pr ps => settle ps (pr_promise pr) (Rejected Disconnected))
                            (promises m) (pendingRequests m) !! p
                   = Some (Rejected Disconnected)))
    as (Ha & Hb & _).
  { apply (map_fold_weak_ind
             (fun ps (sub : gmap (list Z) PendingRequest) =>
                (forall k pr, sub !! k = Some pr ->
                   promises m !! pr_promise pr = Some Unsettled ->
                   ps !! pr_promise pr = Some (Rejected Disconnected))
                /\ (forall p, (forall k pr, sub !! k = Some pr -> pr_promise pr <> p) ->
                      ps !! p = promises m !! p)
                /\ (forall p, promises m !! p = Some Unsettled ->
                      ps !! p = Some Unsettled \/ ps !! p = Some (Rejected Disconnected)))).
    - split; [|split].
      + intros k pr. by rewrite lookup_empty.
      + done.
      + intros p Hp. by left.
    - intros i x sub ps Hi (IHa & IHb & IHc). split; [|split].
      + intros k pr Hk Hopen. destruct (decide (k = i)) as [->|Hne].
        * rewrite lookup_insert_eq in Hk. injection Hk as <-.
          destruct (IHc _ Hopen) as [Hu|Hr].
          -- by apply settle_unsettled.
          -- by apply settle_settled.
        * rewrite lookup_insert_ne in Hk by done.
          apply settle_settled; [by apply (IHa k)|done].
      + intros p Hp. rewrite settle_ne.
        * apply IHb. intros k pr Hk. apply (Hp k).
          rewrite lookup_insert_ne; [done|]. intros ->. congruence.
        * apply (Hp i). apply lookup_insert_eq.
      + intros p Hp. destruct (decide (pr_promise x = p)) as [<-|Hne].
        * right. destruct (IHc _ Hp) as [Hu|Hr].
          -- by apply settle_unsettled.
          -- by apply settle_settled.
        * rewrite settle_ne by done. by apply IHc. }
  split; [exact Ha|]. split; [|split; [exact Hb|done]].
  apply (map_fold_weak_ind
           (fun ts (sub : gmap (list Z) PendingRequest) =>
              forall k pr, sub !! k = Some pr -> ts !! pr_timeout pr = None)).
  - intros k pr. by rewrite lookup_empty.
  - intros i x sub ts Hi IH k pr Hk. destruct (decide (k = i)) as [->|Hne].
    + rewrite lookup_insert_eq in Hk. injection Hk as <-. apply lookup_delete_eq.
    + rewrite lookup_insert_ne in Hk by done.
      apply lookup_delete_None. right. by apply (IH k).
Qed.

Lemma disconnect_rejects_pending_witness :
  let m := (sendRequest (new_manager (Some true)) [] (js "temp")).1 in
  promises (disconnectDevice m) !! 0%nat = Some (Rejected Disconnected)
  /\ (sendRequest (disconnectDevice m) [] (js "temp")).2 = Throw DeviceNotConnected.
Proof.
  intros m.
  destruct (disconnect_rejects_pending m) as (_ & _ & _ & Hrejected & _ & _ & Hrefused).
  - discriminate.
  - split; [|apply Hrefused].
    apply (Hrejected (js "temp")
             {| pr_promise := 0; pr_timeout := 0; pr_command := js "temp" |});
      vm_compute; reflexivity.
Defined.

(** ** Stuffing into a buffer that is too small *)

Lemma escape_data_from_bound input : forall out size r,
  len out <= size -> escape_data_from input out size = Some r -> len r <= size.
Proof.
  induction input as [|byte rest IH]; intros out size r Hout; simpl.
  - by intros [= <-].
  - destruct (len out <? size) eqn:Hlt; [|by intros [= <-]].
    destruct ((byte =? 170) || (byte =? 85)).
    + destruct (size <=? len out + 1) eqn:Hfit; [done|].
      apply IH. rewrite len_app. change (len [byte; ESCAPE_BYTE]) with 2. lia.
    + apply IH. rewrite len_app. change (len [byte]) with 1. lia.
Qed.

Lemma escape_data_from_marker_free input : forall out size,
  marker_free input = true ->
  escape_data_from input out size
  = Some (out ++ take (Z.to_nat (size - len out)) input).
Proof.
  induction input as [|byte rest IH]; intros out size Hfree.
  - simpl. by rewrite take_nil, app_nil_r.
  - cbn [marker_free forallb] in Hfree. apply andb_prop in Hfree as [Hb Hrest].
    apply negb_true_iff in Hb. cbn [escape_data_from]. rewrite Hb.
    destruct (len out <? size) eqn:Hlt.
    + rewrite IH by done. rewrite len_app. change (len [byte]) with 1.
      replace (Z.to_nat (size - len out)) with (S (Z.to_nat (size - (len out + 1)))) by lia.
      cbn [take]. by rewrite <- app_assoc.
    + replace (Z.to_nat (size - len out)) with 0%nat by lia.
      by rewrite take_0, app_nil_r.
Qed.

(** [escape_data] reports no error when the output buffer is too small
    unless a byte to stuff falls on its last position: what it returns is
    then the stuffed bytes cut at [output_size]; an input without 0xAA and
    0x55 is simply cut. *)
Theorem escape_data_cuts_silently (input : list Z) (output_size : Z) :
  0 <= output_size ->
  (forall r, output_size < len (spec_escape input) ->
             escape_data input output_size = Some r ->
             r = take (Z.to_nat output_size) (spec_escape input)
             /\ len r = output_size)
  /\ (marker_free input = true ->
      escape_data input output_size = Some (take (Z.to_nat output_size) input)).
Proof.
  intros Hsize. split.
  - intros r Hover Hr. unfold escape_data in Hr.
    pose proof (escape_data_from_bound input [] output_size r
                  ltac:(rewrite len_nil; lia) Hr) as Hbound.
    apply escape_data_from_prefix in Hr as (k & -> & Hk). cbn [app] in *.
    assert (len (spec_escape (take k input)) = output_size) as Hlen.
    { destruct Hk as [->|Hk]; [|lia]. rewrite take_ge in Hbound by lia. lia. }
    split; [|done].
    rewrite <- (take_drop k input) at 2. rewrite spec_escape_app.
    rewrite take_app_length'; [done|]. unfold len in Hlen. lia.
  - intros Hfree. unfold escape_data. rewrite escape_data_from_marker_free by done.
    rewrite len_nil, Z.sub_0_r. reflexivity.
Qed.

Lemma escape_data_cuts_silently_witness :
  escape_data [0x01; 0x02; 0x03; 0x04; 0x05] 3 = Some [0x01; 0x02; 0x03].
Proof.
  destruct (escape_data_cuts_silently [0x01; 0x02; 0x03; 0x04; 0x05] 3) as [_ Hcut].
  - lia.
  - apply Hcut. reflexivity.
Defined.

(** ** Unstuffed marker pairs *)

Lemma unescape_data_from_marker_pair (x y : Z) (b : list Z) (size : Z) :
  (x = 0xAA /\ y = 0x55) \/ (x = 0x55 /\ y = 0xAA) ->
  forall (n : nat) a out,
    (length a <= n)%nat -> len out + len a < size ->
    unescape_data_from (a ++ x :: y :: b) out size = None.
Proof.
  intros Hxy. induction n as [|n IH]; intros a out Hn Hsize.
  - destruct a; [|simpl in Hn; lia]. rewrite len_nil in Hsize.
    cbn [app unescape_data_from].
    destruct (len out <? size) eqn:E; [|exfalso; lia].
    destruct Hxy as [[-> ->]|[-> ->]]; reflexivity.
  - destruct a as [|a0 [|a1 a]].
    + apply IH; [simpl; lia|done].
    + cbn [app unescape_data_from]. rewrite len_cons, len_nil in Hsize.
      destruct (len out <? size) eqn:E; [|exfalso; lia].
      destruct (((a0 =? 170) || (a0 =? 85)) && (x =? ESCAPE_BYTE)) eqn:Hesc.
      { exfalso. apply andb_prop in Hesc as [_ Hx]. unfold ESCAPE_BYTE in Hx.
        destruct Hxy as [[-> _]|[-> _]]; discriminate. }
      destruct (((a0 =? 170) && (x =? 85)) || ((a0 =? 85) && (x =? 170))); [done|].
      apply (IH [] (out ++ [a0])); [simpl; lia|].
      rewrite len_app, len_nil. change (len [a0]) with 1. lia.
    + cbn [app unescape_data_from]. rewrite !len_cons in Hsize.
      pose proof (len_nonneg a).
      destruct (len out <? size) eqn:E; [|exfalso; lia].
      destruct (((a0 =? 170) || (a0 =? 85)) && (a1 =? ESCAPE_BYTE)).
      { apply (IH a (out ++ [a0])); [simpl in Hn; lia|].
        rewrite len_app. change (len [a0]) with 1. lia. }
      destruct (((a0 =? 170) && (a1 =? 85)) || ((a0 =? 85) && (a1 =? 170))); [done|].
      apply (IH (a1 :: a) (out ++ [a0])); [clear -Hn; cbn [length] in *; lia|].
      rewrite len_app, !len_cons, len_nil. lia.
Qed.

(** [unescape_data] refuses every input that holds an unstuffed marker pair
    0xAA 0x55 or 0x55 0xAA, wherever it stands, provided the output buffer
    has room for the bytes in front of it. *)
Theorem unescape_data_rejects_marker_pair (a b : list Z) (x y : Z) (output_size : Z) :
  (x = 0xAA /\ y = 0x55) \/ (x = 0x55 /\ y = 0xAA) ->
  len a < output_size ->
  unescape_data (a ++ x :: y :: b) output_size = None.
Proof.
  intros Hxy Hsize. unfold unescape_data.
  apply (unescape_data_from_marker_pair x y b output_size Hxy (length a)); [done|].
  rewrite len_nil. lia.
Qed.

Lemma unescape_data_rejects_marker_pair_witness :
  unescape_data ([0x02; 0x11] ++ 0x55 :: 0xAA :: [0x07]) MAX_PACKET_SIZE = None.
Proof.
  apply (unescape_data_rejects_marker_pair [0x02; 0x11] [0x07] 0x55 0xAA MAX_PACKET_SIZE).
  - right. split; reflexivity.
  - vm_compute. reflexivity.
Defined.

(** ** The TLV readers of the device *)

Lemma len_tlv tag value : len (tlv tag value) = 4 + len value.
Proof. unfold tlv. rewrite !len_app, len_tag2, len_le16. lia. Qed.

Lemma tlv_fields_cons f fields : tlv_fields (f :: fields) = tlv f.1 f.2 ++ tlv_fields fields.
Proof. reflexivity. Qed.

Lemma len_tlv_fields fields : 4 * Z.of_nat (length fields) <= len (tlv_fields fields).
Proof.
  induction fields as [|f fields IH]; [done|].
  rewrite tlv_fields_cons, len_app, len_tlv. cbn [length].
  pose proof (len_nonneg f.2). lia.
Qed.

Lemma read_tlv_from_fields accept tag fields : forall fuel pre,
  Forall (fun f : string * list Z => len f.2 < 2^16) fields ->
  (length fields <= fuel)%nat ->
  read_tlv_from fuel accept (pre ++ tlv_fields fields) tag (len pre)
  = match List.find (fun f : string * list Z =>
                       bool_decide (tag2 f.1 = tag2 tag) && accept (len f.2))
                    (visited_fields fields) with
    | Some f => Found f.2
    | None => Missing
    end.
Proof.
  induction fields as [|f fields IH]; intros fuel pre Hlen Hfuel.
  - cbn [tlv_fields map concat visited_fields List.find]. rewrite app_nil_r.
    destruct fuel as [|fuel]; [done|]. cbn [read_tlv_from].
    destruct (len pre <? len pre - 4) eqn:E; [exfalso; lia|done].
  - destruct fuel as [|fuel]; [simpl in Hfuel; lia|].
    apply Forall_cons in Hlen as [Hf Hlen].
    pose proof (len_nonneg f.2) as Hv. pose proof (len_nonneg pre) as Hpre.
    pose proof (len_tlv_fields fields) as Hrest.
    rewrite tlv_fields_cons. cbn [read_tlv_from].
    rewrite !len_app, len_tlv.
    assert (slice (pre ++ tlv f.1 f.2 ++ tlv_fields fields) (len pre) (len pre + 2)
            = tag2 f.1) as Htag.
    { unfold tlv. rewrite <- !app_assoc.
      apply slice_middle; [done|by rewrite len_tag2]. }
    assert (slice (pre ++ tlv f.1 f.2 ++ tlv_fields fields) (len pre + 2) (len pre + 4)
            = le16 (len f.2)) as Hlength.
    { unfold tlv. rewrite <- !app_assoc. rewrite (app_assoc pre).
      apply slice_middle; rewrite ?len_app, ?len_tag2, ?len_le16; lia. }
    assert (slice (pre ++ tlv f.1 f.2 ++ tlv_fields fields) (len pre + 4)
                  (len pre + 4 + len f.2) = f.2) as Hvalue.
    { unfold tlv. rewrite <- !app_assoc. rewrite (app_assoc pre), (app_assoc _ (le16 _)).
      apply slice_middle; rewrite ?len_app, ?len_tag2, ?len_le16; lia. }
    rewrite Htag, Hlength, le_value_le16 by lia. rewrite Hvalue.
    assert ((len pre + 4 + len f.2 <=? len pre + (4 + len f.2 + len (tlv_fields fields)))
            = true) as -> by lia.
    rewrite andb_true_r.
    assert (read_tlv_from fuel accept (pre ++ tlv f.1 f.2 ++ tlv_fields fields) tag
                          (len pre + 4 + len f.2)
            = match List.find (fun f : string * list Z =>
                                 bool_decide (tag2 f.1 = tag2 tag) && accept (len f.2))
                              (visited_fields fields) with
              | Some f => Found f.2
              | None => Missing
              end) as Hnext.
    { rewrite app_assoc.
      replace (len pre + 4 + len f.2) with (len (pre ++ tlv f.1 f.2))
        by (rewrite len_app, len_tlv; lia).
      apply IH; [done|simpl in Hfuel; lia]. }
    destruct fields as [|g fields].
    + cbn [visited_fields]. cbn [tlv_fields map concat] in *. rewrite len_nil.
      destruct (len f.2 =? 0) eqn:E0.
      * destruct (len pre <? len pre + (4 + len f.2 + 0) - 4) eqn:E; [exfalso; lia|done].
      * destruct (len pre <? len pre + (4 + len f.2 + 0) - 4) eqn:E; [|exfalso; lia].
        cbn [List.find]. destruct (_ && _); [done|].
        rewrite Hnext. reflexivity.
    + cbn [length] in Hrest.
      destruct (len pre <? len pre + (4 + len f.2 + len (tlv_fields (g :: fields))) - 4)
        eqn:E; [|exfalso; lia].
      cbn [visited_fields List.find]. destruct (_ && _); [done|].
      rewrite Hnext. reflexivity.
Qed.

Lemma read_tlv_tlv_fields (accept : Z -> bool) (fields : list (string * list Z))
    (tag : string) :
  Forall (fun f : string * list Z => len f.2 < 2^16) fields ->
  fields <> [] ->
  read_tlv accept (tlv_fields fields) tag
  = match List.find (fun f : string * list Z =>
                       bool_decide (tag2 f.1 = tag2 tag) && accept (len f.2))
                    (visited_fields fields) with
    | Some f => Found f.2
    | None => Missing
    end.
Proof.
  intros Hlen Hne. unfold read_tlv.
  pose proof (len_tlv_fields fields) as Hsize.
  destruct (len (tlv_fields fields) <? 4) eqn:E.
  - destruct fields; [done|]. cbn [length] in Hsize. exfalso. lia.
  - apply (read_tlv_from_fields accept tag fields (length (tlv_fields fields)) []); [done|].
    unfold len in Hsize. lia.
Qed.

(** What the six readers find in a buffer of well-formed fields: the value
    of the first field with the tag and an accepted length, among the
    fields the scan visits. *)
Theorem read_tlv_finds_first (accept : Z -> bool) (fields : list (string * list Z))
    (tag : string) :
  Forall (fun f : string * list Z => len f.2 < 2^16) fields ->
  fields <> [] ->
  read_tlv accept (tlv_fields fields) tag
  = match List.find (fun f : string * list Z =>
                       bool_decide (tag2 f.1 = tag2 tag) && accept (len f.2))
                    (visited_fields fields) with
    | Some f => Found f.2
    | None => Missing
    end.
Proof. exact (read_tlv_tlv_fields accept fields tag). Qed.

Lemma read_tlv_finds_first_witness :
  read_tlv (fun length => length =? 1)
           (tlv_fields [(TAG_HOUR, [0x0E]); (TAG_MINUTE, [0x1E]); (TAG_SECOND, [0x00])])
           TAG_MINUTE
  = Found [0x1E].
Proof.
  rewrite (read_tlv_finds_first (fun length => length =? 1)
             [(TAG_HOUR, [0x0E]); (TAG_MINUTE, [0x1E]); (TAG_SECOND, [0x00])] TAG_MINUTE).
  - reflexivity.
  - repeat constructor.
  - discriminate.
Defined.

Lemma read_tlv_single accept tag value :
  len value < 2^16 -> accept (len value) = true ->
  read_tlv accept (tlv tag value) tag
  = if len value =? 0 then Missing else Found value.
Proof.
  intros Hlen Haccept.
  pose proof (read_tlv_tlv_fields accept [(tag, value)] tag) as H.
  cbn [tlv_fields map concat fst snd] in H. rewrite app_nil_r in H.
  rewrite H; [|by repeat constructor|done].
  cbn [visited_fields snd]. destruct (len value =? 0); [done|].
  cbn [List.find fst snd]. rewrite bool_decide_eq_true_2 by done.
  rewrite Haccept. reflexivity.
Qed.

(** What a writer has written, the matching reader reads back; but a field
    written with an empty value is not found again. *)
Theorem tlv_write_read (buffer_size : Z) (tag : string) :
  (forall v b, 0 <= v < 2^8 -> write_tlv_uint8 buffer_size tag v = Some b ->
               read_tlv_uint8 b tag = Found v)
  /\ (forall v b, 0 <= v < 2^16 -> write_tlv_uint16 buffer_size tag v = Some b ->
                  read_tlv_uint16 b tag = Found v)
  /\ (forall v b, 0 <= v < 2^64 -> write_tlv_uint64 buffer_size tag v = Some b ->
                  read_tlv_uint64 b tag = Found v)
  /\ (forall v b, 0 <= v < 2^32 -> write_tlv_float32 buffer_size tag v = Some b ->
                  read_tlv_float32 b tag = Found v)
  /\ (forall str str_size b,
        len (c_string str) < 2^16 -> len (c_string str) < str_size ->
        write_tlv_string buffer_size tag str = Some b ->
        read_tlv_string b tag str_size
        = if len (c_string str) =? 0 then Missing else Found (c_string str))
  /\ (forall data capacity b,
        len data < 2^16 -> len data <= capacity ->
        write_tlv_raw buffer_size tag data = Some b ->
        read_tlv_raw b tag capacity
        = if len data =? 0 then Missing else Found data).
Proof.
  repeat split.
  - intros v b Hv. unfold write_tlv_uint8, read_tlv_uint8.
    destruct (buffer_size <? 5); [done|]. intros [= <-].
    match goal with
    | |- context [read_tlv _ ?buf tag] => change buf with (tlv tag [v mod 256])
    end.
    rewrite read_tlv_single by done. change (len [v mod 256] =? 0) with false.
    cbn [scan_map le_value]. f_equal. rewrite Z.mod_small by zlia. lia.
  - intros v b Hv. unfold write_tlv_uint16, read_tlv_uint16.
    destruct (buffer_size <? 6); [done|]. intros [= <-].
    match goal with
    | |- context [read_tlv _ ?buf tag] => change buf with (tlv tag (le16 v))
    end.
    rewrite read_tlv_single by done. change (len (le16 v) =? 0) with false.
    cbn [scan_map]. f_equal. apply le_value_le16. done.
  - intros v b Hv. unfold write_tlv_uint64, read_tlv_uint64.
    destruct (buffer_size <? 12); [done|]. intros [= <-].
    match goal with
    | |- context [read_tlv _ ?buf tag] => change buf with (tlv tag (le64 v))
    end.
    rewrite read_tlv_single by done. change (len (le64 v) =? 0) with false.
    cbn [scan_map]. f_equal. apply (le_value_le64 v). done.
  - intros v b Hv. unfold write_tlv_float32, read_tlv_float32.
    destruct (buffer_size <? 8); [done|]. intros [= <-].
    match goal with
    | |- context [read_tlv _ ?buf tag] => change buf with (tlv tag (le32 v))
    end.
    rewrite read_tlv_single by done. change (len (le32 v) =? 0) with false.
    cbn [scan_map]. f_equal. apply (le_value_le32 v). done.
  - intros str str_size b Hlen Hsize. unfold write_tlv_string, read_tlv_string.
    pose proof (len_nonneg (c_string str)).
    rewrite Z.mod_small by lia.
    destruct (buffer_size <? 4 + len (c_string str)); [done|]. intros [= <-].
    rewrite take_len. fold (tlv tag (c_string str)).
    apply read_tlv_single; [done|lia].
  - intros data capacity b Hlen Hcap. unfold write_tlv_raw, read_tlv_raw.
    destruct (buffer_size <? 4 + len data); [done|]. intros [= <-].
    fold (tlv tag data). apply read_tlv_single; [done|lia].
Qed.

Lemma tlv_write_read_witness :
  read_tlv_float32 (tlv TAG_TEMPERATURE (le32 0x41B40000)) TAG_TEMPERATURE
  = Found 0x41B40000
  /\ read_tlv_raw (tlv TAG_DATA []) TAG_DATA MAX_DATA_SIZE = Missing.
Proof.
  destruct (tlv_write_read 8 TAG_TEMPERATURE) as (_ & _ & _ & Hfloat & _).
  destruct (tlv_write_read 4 TAG_DATA) as (_ & _ & _ & _ & _ & Hraw).
  split.
  - apply (Hfloat 0x41B40000); [lia|reflexivity].
  - apply (Hraw [] MAX_DATA_SIZE); [reflexivity|vm_compute; discriminate|reflexivity].
Defined.

(** ** Finding a frame in the receive buffer *)

Lemma nth_len_app (pre : list Z) x rest : nth (Z.to_nat (len pre)) (pre ++ x :: rest) 0 = x.
Proof. unfold len. rewrite Nat2Z.id. by rewrite app_nth2, Nat.sub_diag by lia. Qed.

Lemma nth_len_app_succ (pre : list Z) x y rest :
  nth (Z.to_nat (len pre + 1)) (pre ++ x :: y :: rest) 0 = y.
Proof.
  unfold len. replace (Z.to_nat (Z.of_nat (length pre) + 1)) with (S (length pre)) by lia.
  rewrite app_nth2 by lia. by replace (S (length pre) - length pre)%nat with 1%nat by lia.
Qed.

Lemma find_packet_boundaries_from_step fuel buffer i start :
  find_packet_boundaries_from (S fuel) buffer i start
  = if i <? (len buffer - 1) mod 2^32 then
      let b0 := nth (Z.to_nat i) buffer 0 in
      let b1 := nth (Z.to_nat (i + 1)) buffer 0 in
      match start with
      | None =>
        if (b0 =? START_MARK_1) && (b1 =? START_MARK_2)
        then find_packet_boundaries_from fuel buffer (i + 2) (Some (i + 2))
        else find_packet_boundaries_from fuel buffer (i + 1) start
      | Some start_pos =>
        if (b0 =? END_MARK_1) && (b1 =? END_MARK_2) then
          let is_escaped :=
            (0 <? i) && (nth (Z.to_nat (i - 1)) buffer 0 =? ESCAPE_BYTE)
            && (1 <? i) && (nth (Z.to_nat (i - 2)) buffer 0 =? 0x55) in
          if negb is_escaped then Some (start_pos, i)
          else find_packet_boundaries_from fuel buffer (i + 1) start
        else find_packet_boundaries_from fuel buffer (i + 1) start
      end
    else None.
Proof. reflexivity. Qed.

(** Past the start marker the scan runs over stuffed bytes without
    stopping. *)
Lemma find_packet_boundaries_from_body (s : Z) (body : list Z) : forall (pre : list Z) fuel,
  has_marker_pair body = false ->
  len (pre ++ body ++ [END_MARK_1; END_MARK_2]) <= 2^32 ->
  (length body <= fuel)%nat ->
  find_packet_boundaries_from fuel (pre ++ body ++ [END_MARK_1; END_MARK_2]) (len pre) (Some s)
  = find_packet_boundaries_from (fuel - length body)
      (pre ++ body ++ [END_MARK_1; END_MARK_2]) (len (pre ++ body)) (Some s).
Proof.
  induction body as [|x body IH]; intros pre fuel Hpair Hlen Hfuel.
  - rewrite app_nil_r. cbn [length]. by rewrite Nat.sub_0_r.
  - destruct fuel as [|fuel]; [simpl in Hfuel; lia|].
    rewrite find_packet_boundaries_from_step. cbv zeta.
    assert ((len (pre ++ (x :: body) ++ [END_MARK_1; END_MARK_2]) - 1) mod 2^32
            = len (pre ++ (x :: body) ++ [END_MARK_1; END_MARK_2]) - 1) as Hmod.
    { apply Z.mod_small. rewrite !len_app, len_cons in *. pose proof (len_nonneg pre).
      pose proof (len_nonneg body). change (len [END_MARK_1; END_MARK_2]) with 2 in *. lia. }
    rewrite Hmod.
    destruct (len pre <? len (pre ++ (x :: body) ++ [END_MARK_1; END_MARK_2]) - 1) eqn:E.
    2:{ exfalso. rewrite !len_app, len_cons in E. pose proof (len_nonneg body).
        change (len [END_MARK_1; END_MARK_2]) with 2 in E. lia. }
    assert (has_marker_pair body = false
            /\ ((x =? END_MARK_1)
                && (nth (Z.to_nat (len pre + 1))
                        (pre ++ (x :: body) ++ [END_MARK_1; END_MARK_2]) 0 =? END_MARK_2)
                = false)) as [Hbody Hno].
    { destruct body as [|y body].
      - split; [done|]. cbn [app]. rewrite nth_len_app_succ. apply andb_false_r.
      - cbn [app]. rewrite nth_len_app_succ.
        cbn [has_marker_pair] in Hpair. apply orb_false_iff in Hpair as [Hxy Hbody].
        apply orb_false_iff in Hxy as [_ Hxy]. split; [exact Hbody|exact Hxy]. }
    cbn [app] in *. rewrite nth_len_app. rewrite Hno.
    replace (pre ++ x :: body ++ [END_MARK_1; END_MARK_2])
      with ((pre ++ [x]) ++ body ++ [END_MARK_1; END_MARK_2]) in *
      by (by rewrite <- app_assoc).
    replace (len pre + 1) with (len (pre ++ [x])) by (rewrite len_app; reflexivity).
    rewrite IH by (done || simpl in Hfuel; lia).
    cbn [length]. replace (S fuel - S (length body))%nat with (fuel - length body)%nat by lia.
    by rewrite <- !app_assoc.
Qed.

(** The end marker after stuffed bytes [body]: it is taken for a stuffed
    byte when the two bytes in front of it are 0x55 0x00. *)
Lemma find_packet_boundaries_stuffed (body : list Z) :
  has_marker_pair body = false ->
  len body + 4 <= 2^32 ->
  find_packet_boundaries ([START_MARK_1; START_MARK_2] ++ body ++ [END_MARK_1; END_MARK_2])
  = if bool_decide (drop (length body - 1)%nat (START_MARK_2 :: body) = [0x55; ESCAPE_BYTE])
    then None
    else Some (2, 2 + len body).
Proof.
  intros Hpair Hlen.
  destruct (decide (body = [])) as [->|Hne]; [reflexivity|].
  assert (length body <> 0%nat) as H0 by (by destruct body).
  unfold find_packet_boundaries.
  set (buffer := [START_MARK_1; START_MARK_2] ++ body ++ [END_MARK_1; END_MARK_2]).
  assert (len buffer = 4 + len body) as Hbuf.
  { unfold buffer. rewrite !len_app. change (len [START_MARK_1; START_MARK_2]) with 2.
    change (len [END_MARK_1; END_MARK_2]) with 2. lia. }
  pose proof (len_nonneg body) as Hb.
  assert ((len buffer - 1) mod 2^32 = len buffer - 1) as Hmod.
  { apply Z.mod_small. lia. }
  assert (length buffer = S (S (S (S (length body))))) as Hfuel.
  { unfold len in Hbuf. lia. }
  rewrite Hfuel. rewrite find_packet_boundaries_from_step. cbv zeta. rewrite Hmod.
  destruct (0 <? len buffer - 1) eqn:E0; [|exfalso; lia].
  change (nth (Z.to_nat 0) buffer 0) with START_MARK_1.
  change (nth (Z.to_nat (0 + 1)) buffer 0) with START_MARK_2.
  rewrite !Z.eqb_refl. cbn [andb]. change (0 + 2) with (len [START_MARK_1; START_MARK_2]).
  unfold buffer.
  rewrite (find_packet_boundaries_from_body _ body [START_MARK_1; START_MARK_2])
    by (done || (fold buffer; lia) || lia).
  fold buffer.
  replace (S (S (S (length body))) - length body)%nat with 3%nat by lia.
  rewrite find_packet_boundaries_from_step. cbv zeta. rewrite Hmod.
  rewrite len_app. change (len [START_MARK_1; START_MARK_2]) with 2.
  destruct (2 + len body <? len buffer - 1) eqn:E1; [|exfalso; lia].
  assert (nth (Z.to_nat (2 + len body)) buffer 0 = END_MARK_1) as ->.
  { unfold buffer. rewrite app_assoc.
    replace (2 + len body) with (len ([START_MARK_1; START_MARK_2] ++ body))
      by (rewrite len_app; reflexivity).
    apply nth_len_app. }
  assert (nth (Z.to_nat (2 + len body + 1)) buffer 0 = END_MARK_2) as ->.
  { unfold buffer. rewrite app_assoc.
    replace (2 + len body) with (len ([START_MARK_1; START_MARK_2] ++ body))
      by (rewrite len_app; reflexivity).
    apply nth_len_app_succ. }
  rewrite !Z.eqb_refl. cbn [andb].
  destruct (0 <? 2 + len body) eqn:E2; [|exfalso; lia].
  destruct (1 <? 2 + len body) eqn:E3; [|exfalso; lia].
  cbn [andb]. rewrite andb_true_r.
  assert (drop (length body - 1)%nat (START_MARK_2 :: body)
          = [nth (Z.to_nat (2 + len body - 2)) buffer 0;
             nth (Z.to_nat (2 + len body - 1)) buffer 0]) as Hlast.
  { unfold buffer, len. cbn [app].
    replace (Z.to_nat (2 + Z.of_nat (length body) - 2)) with (length body) by lia.
    replace (Z.to_nat (2 + Z.of_nat (length body) - 1)) with (S (length body)) by lia.
    cbn [nth].
    { destruct (lookup_lt_is_Some_2 (START_MARK_2 :: body) (length body - 1)) as [a Ha];
        [simpl; lia|].
      destruct (lookup_lt_is_Some_2 (START_MARK_2 :: body) (length body)) as [b Hb'];
        [simpl; lia|].
      rewrite (drop_S _ a _ Ha).
      replace (S (length body - 1)) with (length body) by lia.
      rewrite (drop_S _ b _ Hb'). rewrite drop_ge by (simpl; lia).
      assert (forall k c, (START_MARK_2 :: body) !! k = Some c ->
                nth k (START_MARK_2 :: body ++ [END_MARK_1; END_MARK_2]) 0 = c) as Hnth.
      { intros k c Hk. rewrite nth_lookup.
        change (START_MARK_2 :: body ++ [END_MARK_1; END_MARK_2])
          with ((START_MARK_2 :: body) ++ [END_MARK_1; END_MARK_2]).
        by rewrite (lookup_app_l_Some _ _ _ _ Hk). }
      f_equal; [|f_equal].
      + symmetry. replace (length body) with (S (length body - 1)) at 1 by lia.
        cbn [nth]. apply (Hnth (length body - 1)%nat) in Ha.
        destruct (length body - 1)%nat eqn:Hk; exact Ha.
      + symmetry. by apply (Hnth (length body)). } }
  rewrite Hlast.
  destruct (nth (Z.to_nat (2 + len body - 1)) buffer 0 =? ESCAPE_BYTE) eqn:Ha;
    destruct (nth (Z.to_nat (2 + len body - 2)) buffer 0 =? 85) eqn:Hb'.
  - apply Z.eqb_eq in Ha, Hb'. rewrite Ha, Hb'. rewrite bool_decide_eq_true_2 by done.
    cbn [andb negb]. rewrite find_packet_boundaries_from_step. rewrite Hmod.
    destruct (2 + len body + 1 <? len buffer - 1) eqn:E4; [exfalso; lia|done].
  - rewrite bool_decide_eq_false_2; [done|].
    intros [= H1 H2]. apply Z.eqb_neq in Hb'. done.
  - rewrite bool_decide_eq_false_2; [done|].
    intros [= H1 H2]. apply Z.eqb_neq in Ha. done.
  - rewrite bool_decide_eq_false_2; [done|].
    intros [= H1 H2]. apply Z.eqb_neq in Ha. done.
Qed.

Lemma spec_escape_snoc body x :
  spec_escape (body ++ [x])
  = spec_escape body ++ (if (x =? 0xAA) || (x =? 0x55) then [x; 0x00] else [x]).
Proof. rewrite spec_escape_app. f_equal. unfold spec_escape. simpl. by rewrite app_nil_r. Qed.

Lemma last_spec_escape_not_marker body front z :
  spec_escape body = front ++ [z] -> z <> 0x55.
Proof.
  destruct body as [|y body _] using rev_ind.
  - intros H. by destruct front.
  - rewrite spec_escape_snoc. destruct ((y =? 170) || (y =? 85)) eqn:Hy.
    + change [y; 0] with ([y] ++ [0]). rewrite app_assoc.
      intros H. apply app_inj_tail in H as [_ <-]. done.
    + intros H. apply app_inj_tail in H as [_ <-].
      apply orb_false_iff in Hy as [_ Hy]. apply Z.eqb_neq in Hy. done.
Qed.

(** The two bytes in front of the end marker are 0x55 0x00 exactly when the
    frame content ends in 0x55. *)
Lemma stuffed_tail body x :
  body <> [] ->
  drop (length (spec_escape (body ++ [x])) - 1)%nat
       (START_MARK_2 :: spec_escape (body ++ [x])) = [0x55; ESCAPE_BYTE]
  <-> x = 0x55.
Proof.
  intros Hne. rewrite spec_escape_snoc.
  destruct ((x =? 170) || (x =? 85)) eqn:Hx.
  - rewrite length_app. cbn [length].
    replace (length (spec_escape body) + 2 - 1)%nat
      with (length (START_MARK_2 :: spec_escape body)) by (simpl; lia).
    change (START_MARK_2 :: spec_escape body ++ [x; 0])
      with ((START_MARK_2 :: spec_escape body) ++ [x; 0]).
    rewrite drop_app_length. unfold ESCAPE_BYTE. split; [by intros [= ->]|by intros ->].
  - assert (spec_escape body <> []) as Hs.
    { intros H. by apply spec_escape_nil_inv in H. }
    destruct (spec_escape body) as [|z front _] eqn:Hbody using rev_ind; [done|].
    pose proof (last_spec_escape_not_marker body front z Hbody) as Hz.
    rewrite !length_app. cbn [length].
    replace (length front + 1 + 1 - 1)%nat with (length (START_MARK_2 :: front))
      by (simpl; lia).
    replace (START_MARK_2 :: (front ++ [z]) ++ [x])
      with ((START_MARK_2 :: front) ++ [z; x]) by (by rewrite <- !app_assoc).
    rewrite drop_app_length. split.
    + intros [= -> _]. done.
    + intros ->. discriminate.
Qed.

Lemma find_packet_boundaries_spec_escape (content : list Z) :
  2 <= len content -> len (spec_escape content) + 4 <= 2^32 ->
  find_packet_boundaries
    ([START_MARK_1; START_MARK_2] ++ spec_escape content ++ [END_MARK_1; END_MARK_2])
  = if bool_decide (last content = Some 0x55) then None
    else Some (2, 2 + len (spec_escape content)).
Proof.
  intros Hlen Hsize.
  rewrite find_packet_boundaries_stuffed by (apply spec_escape_no_marker || done).
  destruct content as [|x body _] using rev_ind; [rewrite len_nil in Hlen; lia|].
  assert (body <> []) as Hne.
  { intros ->. rewrite len_app, len_nil in Hlen. change (len [x]) with 1 in Hlen. lia. }
  rewrite last_snoc.
  destruct (decide (x = 0x55)) as [->|Hx].
  - rewrite !bool_decide_eq_true_2; [done|done|]. by apply stuffed_tail.
  - rewrite !bool_decide_eq_false_2; [done|by intros [= ?]|].
    intros H. by apply stuffed_tail in H.
Qed.

(** A frame whose content, before stuffing, ends in 0x55 is not found in
    the receive buffer: the scan takes its end marker for a stuffed byte;
    every other stuffed frame is found, with its content between the two
    positions returned. *)
Theorem find_packet_boundaries_of_frame (content : list Z) :
  2 <= len content -> len (spec_escape content) + 4 <= 2^32 ->
  find_packet_boundaries
    ([START_MARK_1; START_MARK_2] ++ spec_escape content ++ [END_MARK_1; END_MARK_2])
  = if bool_decide (last content = Some 0x55) then None
    else Some (2, 2 + len (spec_escape content)).
Proof. exact (find_packet_boundaries_spec_escape content). Qed.

Lemma find_packet_boundaries_of_frame_witness :
  find_packet_boundaries
    ([START_MARK_1; START_MARK_2]
       ++ spec_escape [0x02; 0x00; 0x05; 0x00; 0x00; 0x00; 0x00; 0x00;
                       0x11; 0x22; 0x33; 0x55]
       ++ [END_MARK_1; END_MARK_2])
  = None.
Proof.
  rewrite (find_packet_boundaries_of_frame
             [0x02; 0x00; 0x05; 0x00; 0x00; 0x00; 0x00; 0x00; 0x11; 0x22; 0x33; 0x55]).
  - reflexivity.
  - vm_compute. discriminate.
  - vm_compute. discriminate.
Defined.

(** ** Frames of the device, parsed by the device *)

Lemma fold_byte_sum_bound l : forall acc,
  is_bytes l -> 0 <= acc -> acc + 255 * len l < 2^32 ->
  0 <= fold_left (fun sum b => (sum + b) mod 2^32) l acc <= acc + 255 * len l.
Proof.
  induction l as [|b l IH]; intros acc Hl Hacc Hbound.
  - simpl. rewrite len_nil. lia.
  - apply Forall_cons in Hl as [Hb Hl]. unfold is_byte in Hb.
    rewrite len_cons in *. pose proof (len_nonneg l). cbn [fold_left].
    rewrite Z.mod_small by lia.
    specialize (IH (acc + b) Hl ltac:(lia) ltac:(lia)). lia.
Qed.

Lemma byte_sum_bound l : is_bytes l -> 255 * len l < 2^32 -> 0 <= byte_sum l <= 255 * len l.
Proof. intros Hl Hb. apply (fold_byte_sum_bound l 0 Hl); lia. Qed.

Lemma is_bytes_header_bytes h : is_bytes (header_bytes h).
Proof.
  unfold header_bytes, le16, is_bytes. cbn [app].
  repeat (apply Forall_cons_2; [unfold is_byte; apply Z.mod_pos_bound; lia|]).
  apply Forall_nil_2.
Qed.

Lemma parse_packet_of_build_packet (hw : Hardware) (type pid rid : Z) (data : list Z)
    (header0 : PacketHeader) :
  hcrc hw = None -> is_bytes data -> len data <= 242 ->
  0 <= type < 256 -> 0 <= pid < 2^16 -> 0 <= rid < 2^16 ->
  exists frame,
    build_packet hw type pid rid data MAX_PACKET_SIZE = Some frame
    /\ parse_packet hw frame header0 MAX_DATA_SIZE
       = (Some data,
          {| h_version := PROTOCOL_VERSION; h_type := type; h_packet_id := pid;
             h_response_id := rid; h_data_length := len data |}).
Proof.
  intros Hcrc Hdata Hlen Htype Hpid Hrid.
  eexists. split; [by apply build_packet_ok|].
  pose proof (len_nonneg data) as Hd.
  set (h := {| h_version := PROTOCOL_VERSION; h_type := type; h_packet_id := pid;
               h_response_id := rid; h_data_length := len data |}).
  assert (raw_packet hw type pid rid data
          = header_bytes h ++ data ++ le32 (byte_sum (header_bytes h ++ data))) as Hraw.
  { unfold raw_packet. fold h. rewrite calculate_crc32_fallback by done.
    by rewrite <- app_assoc. }
  pose proof (len_header_bytes h) as Hh.
  assert (0 <= byte_sum (header_bytes h ++ data) < 2^24) as Hsum.
  { assert (is_bytes (header_bytes h ++ data)) as Hb
        by (apply Forall_app; split; [apply is_bytes_header_bytes|done]).
    pose proof (byte_sum_bound _ Hb) as Hs. rewrite len_app, Hh in Hs.
    specialize (Hs ltac:(zlia)). zlia. }
  set (crc := byte_sum (header_bytes h ++ data)) in *.
  set (raw := raw_packet hw type pid rid data) in *.
  assert (len raw = 12 + len data) as Hlraw by apply len_raw_packet.
  pose proof (len_spec_escape_le raw) as Hle. pose proof (len_spec_escape_ge raw) as Hge.
  assert (last raw = Some 0) as Hlast.
  { rewrite Hraw. unfold le32. rewrite !app_assoc.
    change [crc mod 256; (crc / 256) mod 256; (crc / 65536) mod 256;
            (crc / 16777216) mod 256]
      with ([crc mod 256; (crc / 256) mod 256; (crc / 65536) mod 256]
              ++ [(crc / 16777216) mod 256]).
    rewrite !app_assoc, last_snoc. f_equal.
    rewrite Z.div_small by zlia. reflexivity. }
  unfold parse_packet.
  rewrite find_packet_boundaries_spec_escape by zlia.
  rewrite Hlast. rewrite bool_decide_eq_false_2 by discriminate.
  assert (slice ([START_MARK_1; START_MARK_2] ++ spec_escape raw ++ [END_MARK_1; END_MARK_2])
                2 (2 + len (spec_escape raw)) = spec_escape raw) as ->
      by (by apply slice_middle).
  unfold unescape_data. rewrite unescape_data_from_spec
    by (rewrite len_nil; unfold MAX_PACKET_SIZE; lia).
  cbn [app]. fold raw. rewrite Hlraw.
  destruct (12 + len data <? 8 + 4) eqn:E1; [exfalso; lia|].
  assert (header_of_bytes raw = h) as ->.
  { rewrite Hraw. apply header_of_header_bytes; cbn; unfold PROTOCOL_VERSION; zlia. }
  cbn [h_version h h_data_length]. rewrite Z.eqb_refl. cbn [negb].
  destruct (12 + len data =? 8 + len data + 4) eqn:E2; [|exfalso; lia]. cbn [negb].
  assert (le_value (slice raw (12 + len data - 4) (12 + len data)) = crc) as ->.
  { rewrite Hraw, (app_assoc (header_bytes h)).
    rewrite <- (app_nil_r (le32 crc)) at 1.
    rewrite slice_middle by (rewrite ?len_app, ?len_le32, ?Hh; lia).
    apply le_value_le32. zlia. }
  assert (calculate_crc32 hw raw (12 + len data - 4) = crc) as ->.
  { rewrite Hraw, (app_assoc (header_bytes h)).
    replace (12 + len data - 4) with (len (header_bytes h ++ data))
      by (rewrite len_app, Hh; lia).
    by apply calculate_crc32_fallback. }
  rewrite Z.eqb_refl. cbn [negb].
  destruct ((0 <? len data) && (MAX_DATA_SIZE <? len data)) eqn:E3.
  { exfalso. apply andb_prop in E3 as [_ E3]. unfold MAX_DATA_SIZE, MAX_PACKET_SIZE in E3. lia. }
  do 2 f_equal. rewrite Hraw. apply slice_middle; lia.
Qed.

(** Without the CRC peripheral, a packet [build_packet] has built is parsed
    back by [parse_packet] into the same header and data. *)
Theorem parse_packet_build_packet (hw : Hardware) (type pid rid : Z) (data : list Z)
    (header0 : PacketHeader) :
  hcrc hw = None -> is_bytes data -> len data <= 242 ->
  0 <= type < 256 -> 0 <= pid < 2^16 -> 0 <= rid < 2^16 ->
  exists frame,
    build_packet hw type pid rid data MAX_PACKET_SIZE = Some frame
    /\ parse_packet hw frame header0 MAX_DATA_SIZE
       = (Some data,
          {| h_version := PROTOCOL_VERSION; h_type := type; h_packet_id := pid;
             h_response_id := rid; h_data_length := len data |}).
Proof. exact (parse_packet_of_build_packet hw type pid rid data header0). Qed.

Lemma parse_packet_build_packet_witness :
  exists frame,
    build_packet scenario_hardware PKT_TYPE_HOST_REQUEST 5 0
                 (tlv TAG_INSTRUCTION (js "temp")) MAX_PACKET_SIZE
    = Some frame
    /\ parse_packet scenario_hardware frame (header_of_bytes []) MAX_DATA_SIZE
       = (Some (tlv TAG_INSTRUCTION (js "temp")),
          {| h_version := PROTOCOL_VERSION; h_type := PKT_TYPE_HOST_REQUEST;
             h_packet_id := 5; h_response_id := 0;
             h_data_length := len (tlv TAG_INSTRUCTION (js "temp")) |}).
Proof.
  apply (parse_packet_build_packet scenario_hardware PKT_TYPE_HOST_REQUEST 5 0
           (tlv TAG_INSTRUCTION (js "temp")) (header_of_bytes [])).
  - reflexivity.
  - apply is_bytes_check. reflexivity.
  - vm_compute. discriminate.
  - vm_compute. split; [discriminate|reflexivity].
  - vm_compute. split; [discriminate|reflexivity].
  - vm_compute. split; [discriminate|reflexivity].
Defined.

(** ** The temperature log *)

Lemma log_wf_init d : log_wf (temp_log_init d).
Proof. unfold log_wf, temp_log_init, MAX_LOG_ENTRIES. cbn. repeat split; lia. Qed.

Lemma log_entries_init d : log_entries (temp_log_init d) = [].
Proof. reflexivity. Qed.

Lemma length_log_entries d :
  log_wf d -> Z.of_nat (length (log_entries d)) = g_log_count d.
Proof.
  intros (Hlen & Hc & Hw & Hcw). unfold log_entries, MAX_LOG_ENTRIES in *.
  destruct (g_log_count d <? 100) eqn:E.
  - rewrite length_take. lia.
  - rewrite length_app, length_drop, length_take. lia.
Qed.

Lemma insert_last {A} (l : list A) (n : nat) (x : A) :
  length l = S n -> <[n := x]> l = take n l ++ [x].
Proof.
  intros Hlen. apply list_eq. intros i.
  destruct (decide (i < n)%nat) as [Hi|Hi].
  - rewrite list_lookup_insert_ne by lia.
    rewrite lookup_app_l by (rewrite length_take; lia).
    by rewrite lookup_take_lt by lia.
  - destruct (decide (i = n)) as [->|Hi2].
    + rewrite list_lookup_insert_eq by lia.
      rewrite lookup_app_r by (rewrite length_take; lia).
      rewrite length_take. by replace (n - n `min` length l)%nat with 0%nat by lia.
    + rewrite lookup_ge_None_2 by (rewrite length_insert; lia).
      rewrite lookup_ge_None_2; [done|].
      rewrite length_app, length_take. cbn. lia.
Qed.

Lemma rtc_get_timestamp_set_log d log count index :
  rtc_get_timestamp (set_log d log count index) = rtc_get_timestamp d.
Proof. reflexivity. Qed.

Lemma temp_log_add_entry_entries d t :
  log_wf d ->
  log_wf (temp_log_add_entry d t)
  /\ log_entries (temp_log_add_entry d t)
     = (if g_log_count d <? MAX_LOG_ENTRIES then log_entries d else drop 1 (log_entries d))
         ++ [{| timestamp := rtc_get_timestamp d; temperature := t |}].
Proof.
  intros (Hlen & Hc & Hw & Hcw).
  set (e := {| timestamp := rtc_get_timestamp d; temperature := t |}).
  unfold log_wf, log_entries, temp_log_add_entry. fold e. cbn.
  unfold MAX_LOG_ENTRIES in *.
  destruct (g_log_count d <? 100) eqn:E.
  - rewrite Hcw by lia. set (c := g_log_count d) in *.
    assert (Z.to_nat c < length (g_temp_log d))%nat as Hlt by lia.
    split.
    + rewrite length_insert. repeat split; try lia; try (apply Z.mod_pos_bound; lia).
      intros Hs. rewrite Z.mod_small by lia. reflexivity.
    + destruct (c + 1 <? 100) eqn:E2.
      * replace (Z.to_nat (c + 1)) with (S (Z.to_nat c)) by lia.
        erewrite take_S_r by (apply list_lookup_insert_eq; lia).
        rewrite take_insert_ge by lia. reflexivity.
      * assert (c = 99) as Hc99 by lia. rewrite Hc99. change ((99 + 1) mod 100) with 0.
        change (Z.to_nat 0) with 0%nat. rewrite drop_0, take_0, app_nil_r.
        apply insert_last. lia.
  - assert (g_log_count d = 100) as Hfull by lia. rewrite Hfull.
    change (100 <? 100) with false. cbn iota.
    set (w := g_log_write_index d) in *.
    split.
    + rewrite length_insert. repeat split; try lia; try (apply Z.mod_pos_bound; lia).
    + destruct (decide (w = 99)) as [Hw99|Hw99].
      * rewrite Hw99. change ((99 + 1) mod 100) with 0.
        change (Z.to_nat 0) with 0%nat. rewrite drop_0, take_0, app_nil_r.
        rewrite drop_app_le by (rewrite length_drop; lia).
        rewrite drop_drop. rewrite (drop_ge (g_temp_log d)) by lia. cbn [app].
        apply insert_last. lia.
      * rewrite Z.mod_small by lia.
        replace (Z.to_nat (w + 1)) with (S (Z.to_nat w)) by lia.
        rewrite drop_insert_lt by lia.
        erewrite take_S_r by (apply list_lookup_insert_eq; lia).
        rewrite take_insert_ge by lia.
        rewrite drop_app_le by (rewrite length_drop; lia).
        rewrite drop_drop. rewrite <- app_assoc. do 2 f_equal. lia.
Qed.

Lemma log_entries_lookup d i :
  log_wf d -> 0 <= i < g_log_count d ->
  log_entries d !! Z.to_nat i
  = Some (nth (Z.to_nat
                 ((((g_log_write_index d + MAX_LOG_ENTRIES - g_log_count d) mod 2^32)
                     mod MAX_LOG_ENTRIES + i) mod MAX_LOG_ENTRIES))
              (g_temp_log d) empty_entry).
Proof.
  intros (Hlen & Hc & Hw & Hcw) Hi. unfold log_entries, MAX_LOG_ENTRIES in *.
  assert (forall k, (k < 100)%nat ->
            g_temp_log d !! k = Some (nth k (g_temp_log d) empty_entry)) as Hnth.
  { intros k Hk. destruct (lookup_lt_is_Some_2 (g_temp_log d) k ltac:(lia)) as [x Hx].
    rewrite Hx. f_equal. symmetry. by apply nth_lookup_Some. }
  destruct (g_log_count d <? 100) eqn:E.
  - rewrite Hcw by lia.
    replace (g_log_count d + 100 - g_log_count d) with 100 by lia.
    change ((100 mod 2^32) mod 100) with 0. rewrite Z.add_0_l, Z.mod_small by lia.
    rewrite lookup_take_lt by lia. apply Hnth. lia.
  - assert (g_log_count d = 100) as Hfull by lia. rewrite Hfull in *.
    replace (g_log_write_index d + 100 - 100) with (g_log_write_index d) by lia.
    set (w := g_log_write_index d) in *.
    rewrite (Z.mod_small w (2^32)) by zlia. rewrite (Z.mod_small w 100) by lia.
    destruct (decide (w + i < 100)) as [Hlt|Hge].
    + rewrite Z.mod_small by lia.
      rewrite lookup_app_l by (rewrite length_drop; lia).
      rewrite lookup_drop. replace (Z.to_nat w + Z.to_nat i)%nat with (Z.to_nat (w + i)) by lia.
      apply Hnth. lia.
    + replace ((w + i) mod 100) with (w + i - 100)
        by (apply (Z.mod_unique_pos _ _ 1); lia).
      rewrite lookup_app_r by (rewrite length_drop; lia).
      rewrite length_drop. rewrite lookup_take_lt by lia.
      replace (Z.to_nat i - (length (g_temp_log d) - Z.to_nat w))%nat
        with (Z.to_nat (w + i - 100)) by lia.
      apply Hnth. lia.
Qed.

Lemma temp_log_scan_entries d start_time end_time max_entries read_index L :
  (forall i, 0 <= i < g_log_count d ->
     L !! Z.to_nat i
     = Some (nth (Z.to_nat ((read_index + i) mod MAX_LOG_ENTRIES)) (g_temp_log d)
                 empty_entry)) ->
  Z.of_nat (length L) = g_log_count d ->
  forall fuel i found,
    0 <= i -> g_log_count d - i <= Z.of_nat fuel ->
    Z.of_nat (length found) <= max_entries ->
    temp_log_scan fuel d start_time end_time max_entries read_index i found
    = found ++ take (Z.to_nat (max_entries - Z.of_nat (length found)))
                    (List.filter (in_window start_time end_time) (drop (Z.to_nat i) L)).
Proof.
  intros HL Hlen. induction fuel as [|fuel IH]; intros i found Hi Hfuel Hfound.
  - cbn [temp_log_scan]. rewrite drop_ge by lia. cbn. by rewrite take_nil, app_nil_r.
  - cbn [temp_log_scan].
    destruct (i <? g_log_count d) eqn:E1; cbn [andb].
    2:{ rewrite drop_ge by lia. cbn. by rewrite take_nil, app_nil_r. }
    destruct (Z.of_nat (length found) <? max_entries) eqn:E2.
    2:{ replace (Z.to_nat (max_entries - Z.of_nat (length found))) with 0%nat by lia.
        by rewrite take_0, app_nil_r. }
    set (entry := nth _ (g_temp_log d) empty_entry).
    rewrite (drop_S L entry (Z.to_nat i)) by (apply HL; lia).
    cbn [List.filter]. unfold in_window at 1.
    replace (S (Z.to_nat i)) with (Z.to_nat (i + 1)) by lia.
    destruct ((start_time <=? timestamp entry) && (timestamp entry <=? end_time)).
    + rewrite IH by (rewrite ?length_app; cbn; lia).
      rewrite <- app_assoc. f_equal. rewrite length_app. cbn [length app].
      replace (Z.to_nat (max_entries - Z.of_nat (length found)))
        with (S (Z.to_nat (max_entries - Z.of_nat (length found + 1)))) by lia.
      reflexivity.
    + apply IH; lia.
Qed.

Lemma temp_log_get_entries_window d start_time end_time max_entries :
  log_wf d ->
  temp_log_get_entries d start_time end_time max_entries
  = take (Z.to_nat max_entries)
         (List.filter (in_window start_time end_time) (log_entries d)).
Proof.
  intros Hwf. unfold temp_log_get_entries.
  destruct (max_entries =? 0) eqn:E0.
  { replace max_entries with 0 by lia. reflexivity. }
  destruct (decide (max_entries < 0)) as [Hneg|Hpos].
  { replace (Z.to_nat max_entries) with 0%nat by lia. rewrite take_0.
    destruct (Z.to_nat (g_log_count d)); cbn [temp_log_scan]; [done|].
    replace (Z.of_nat (length (@nil TempLogEntry)) <? max_entries) with false
      by (symmetry; apply Z.ltb_ge; cbn; lia).
    by rewrite andb_false_r. }
  rewrite (temp_log_scan_entries d start_time end_time max_entries _ (log_entries d)).
  - cbn [length app]. rewrite Z.sub_0_r. reflexivity.
  - intros i Hi. by apply log_entries_lookup.
  - by apply length_log_entries.
  - lia.
  - destruct Hwf as (_ & Hc & _). lia.
  - cbn. lia.
Qed.

Lemma rtc_get_timestamp_set_hw d1 d2 hardware :
  rtc_get_timestamp (set_hw d1 hardware) = rtc_get_timestamp (set_hw d2 hardware).
Proof. reflexivity. Qed.

Lemma log_entries_fold steps : forall d0 d,
  log_wf d ->
  log_wf (fold_left log_step steps d)
  /\ log_entries (fold_left log_step steps d)
     = drop (length (log_entries d) + length steps - 100)
            (log_entries d ++ map (log_step_entry d0) steps).
Proof.
  induction steps as [|[hardware t] steps IH]; intros d0 d Hwf.
  - cbn [fold_left map length]. split; [done|].
    pose proof (length_log_entries d Hwf) as Hlen. destruct Hwf as (_ & Hc & _).
    unfold MAX_LOG_ENTRIES in Hc.
    replace (length (log_entries d) + 0 - 100)%nat with 0%nat by lia.
    by rewrite drop_0, app_nil_r.
  - cbn [fold_left map length]. unfold log_step at 2 4. cbn [fst snd].
    assert (log_wf (set_hw d hardware)) as Hwf0 by exact Hwf.
    destruct (temp_log_add_entry_entries (set_hw d hardware) t Hwf0) as [Hwf' Hadd].
    destruct (IH d0 _ Hwf') as [Hwf'' Hfold]. split; [done|].
    rewrite Hfold, Hadd. clear Hfold Hadd IH.
    change (log_entries (set_hw d hardware)) with (log_entries d).
    change (g_log_count (set_hw d hardware)) with (g_log_count d).
    pose proof (length_log_entries d Hwf) as Hlen. destruct Hwf as (_ & Hc & _).
    unfold MAX_LOG_ENTRIES in *.
    unfold log_step_entry at 2. cbn [fst snd].
    rewrite (rtc_get_timestamp_set_hw d0 d hardware).
    destruct (g_log_count d <? 100) eqn:E.
    + rewrite length_app. cbn [length]. rewrite <- app_assoc. cbn [app].
      f_equal. lia.
    + destruct (log_entries d) as [|x L] eqn:HL; [cbn in Hlen; lia|].
      cbn [drop]. rewrite drop_0. rewrite length_app. cbn [length] in *.
      rewrite <- app_assoc. cbn [app].
      replace (S (length L) + S (length steps) - 100)%nat
        with (S (length L + 1 + length steps - 100)) by lia.
      reflexivity.
Qed.

(** After [temp_log_init] and any number of [temp_log_add_entry] calls, made
    at any readings of the clock, [temp_log_get_entries] returns the entries
    of the last 100 calls whose time stamp lies in the window, oldest first,
    cut after [max_entries]. *)
Theorem temp_log_keeps_latest (d : Device) (steps : list (Hardware * Z))
    (start_time end_time max_entries : Z) :
  temp_log_get_entries (fold_left log_step steps (temp_log_init d))
                       start_time end_time max_entries
  = take (Z.to_nat max_entries)
      (List.filter (in_window start_time end_time)
         (drop (length steps - 100) (map (log_step_entry d) steps))).
Proof.
  destruct (log_entries_fold steps d (temp_log_init d) (log_wf_init d)) as [Hwf Hfold].
  rewrite temp_log_get_entries_window by done. rewrite Hfold.
  rewrite log_entries_init. reflexivity.
Qed.

(** ** Frames the device refuses *)

Lemma send_error_response_sent d rid code desc data reply :
  tx_complete d = true ->
  (ec ← write_tlv_uint8 256 TAG_ERROR_CODE code;
   if 0 <? len (c_string desc) then
     ed ← write_tlv_string (256 - len ec) TAG_ERROR_DESC desc; Some (ec ++ ed)
   else Some ec) = Some data ->
  build_packet (hw d) PKT_TYPE_SLAVE_ERROR (packet_id_counter d) rid data MAX_PACKET_SIZE
  = Some reply ->
  let d' := (send_error_response d rid code desc).2 in
  transmitted d' = transmitted d ++ [reply]
  /\ packet_id_counter d' = (packet_id_counter d + 1) mod 2^16
  /\ packets_received d' = packets_received d
  /\ crc_errors d' = crc_errors d.
Proof.
  intros Htx Hdata Hbuild. unfold send_error_response, error_packet.
  rewrite Hdata, Hbuild. cbn [snd].
  pose proof (build_packet_size _ _ _ _ _ _ _ Hbuild) as Hsize.
  unfold send_response_packet. cbn [tx_complete set_comm].
  rewrite Htx. cbn [negb orb].
  destruct (COMM_TX_BUFFER_SIZE <? len reply) eqn:E.
  { unfold COMM_TX_BUFFER_SIZE, MAX_PACKET_SIZE in *. lia. }
  done.
Qed.

Lemma process_received_data_of_frame d type pid rid data :
  hcrc (hw d) = None -> is_bytes data -> len data <= 242 ->
  0 <= type < 256 -> 0 <= pid < 2^16 -> 0 <= rid < 2^16 ->
  build_packet (hw d) type pid rid data MAX_PACKET_SIZE = Some (rx_buffer d) ->
  process_received_data d
  = if negb (type =? PKT_TYPE_HOST_REQUEST) then
      Done (-1, (send_error_response (packet_counted d) pid ERROR_CODE_UNEXPECTED_RESP
                                     (js "Unexpected packet type")).2)
    else
      match process_command_packet (packet_counted d) data pid with
      | Undefined => Undefined
      | Done (None, d) =>
        Done (-1, (send_error_response d pid ERROR_CODE_UNKNOWN
                                       (js "Command processing failed")).2)
      | Done (Some response_packet, d) => Done (0, send_response_packet d response_packet)
      end.
Proof.
  intros Hcrc Hdata Hlen Htype Hpid Hrid Hbuild.
  destruct (parse_packet_of_build_packet (hw d) type pid rid data
              (header_of_bytes (stack_garbage (hw d))) Hcrc Hdata Hlen Htype Hpid Hrid)
    as (frame & Hframe & Hparse).
  rewrite Hbuild in Hframe. injection Hframe as <-.
  pose proof (build_packet_min _ _ _ _ _ _ Hbuild) as Hmin.
  unfold process_received_data.
  destruct (len (rx_buffer d) <? 4) eqn:E; [exfalso; lia|].
  destruct (find_packet_boundaries (rx_buffer d)) as [bounds|] eqn:Hbounds.
  2:{ unfold parse_packet in Hparse. by rewrite Hbounds in Hparse. }
  rewrite Hparse. cbn [h_type h_packet_id]. reflexivity.
Qed.

(** A well-formed frame that is not a host request is counted as received
    and answered with error code 0x02, "Unexpected packet type": the error
    frame carries the device counter as its packet id and the packet id of
    the frame received as its response id. *)
Theorem unexpected_type_is_refused (d : Device) (type pid rid : Z) (data : list Z) :
  hcrc (hw d) = None -> tx_complete d = true ->
  is_bytes data -> len data <= 242 ->
  0 <= type < 256 -> type <> PKT_TYPE_HOST_REQUEST ->
  0 <= pid < 2^16 -> 0 <= rid < 2^16 ->
  build_packet (hw d) type pid rid data MAX_PACKET_SIZE = Some (rx_buffer d) ->
  exists d' reply,
    process_received_data d = Done (-1, d')
    /\ build_packet (hw d) PKT_TYPE_SLAVE_ERROR (packet_id_counter d) pid
                    (tlv TAG_ERROR_CODE [ERROR_CODE_UNEXPECTED_RESP]
                       ++ tlv TAG_ERROR_DESC (js "Unexpected packet type"))
                    MAX_PACKET_SIZE = Some reply
    /\ transmitted d' = transmitted d ++ [reply]
    /\ packet_id_counter d' = (packet_id_counter d + 1) mod 2^16
    /\ packets_received d' = (packets_received d + 1) mod 2^32
    /\ crc_errors d' = crc_errors d.
Proof.
  intros Hcrc Htx Hdata Hlen Htype Hne Hpid Hrid Hbuild.
  rewrite (process_received_data_of_frame d type pid rid data) by done.
  destruct (type =? PKT_TYPE_HOST_REQUEST) eqn:E; [exfalso; lia|]. cbn [negb].
  set (error_data := tlv TAG_ERROR_CODE [ERROR_CODE_UNEXPECTED_RESP]
                       ++ tlv TAG_ERROR_DESC (js "Unexpected packet type")).
  pose proof (build_packet_ok (hw d) PKT_TYPE_SLAVE_ERROR (packet_id_counter d) pid
                error_data ltac:(vm_compute; discriminate)) as Hreply.
  eexists _, _. split; [reflexivity|]. split; [exact Hreply|].
  apply (send_error_response_sent (packet_counted d) pid ERROR_CODE_UNEXPECTED_RESP
           (js "Unexpected packet type") error_data); [exact Htx|reflexivity|exact Hreply].
Qed.

Lemma unexpected_type_is_refused_witness :
  let d := with_rx_buffer scenario_device
             [0xAA; 0x55; 0x02; 0x11; 0x07; 0x00; 0x00; 0x00; 0x00; 0x00;
              0x1A; 0x00; 0x00; 0x00; 0x55; 0xAA] in
  exists d' reply,
    process_received_data d = Done (-1, d')
    /\ build_packet (hw d) PKT_TYPE_SLAVE_ERROR (packet_id_counter d) 7
                    (tlv TAG_ERROR_CODE [ERROR_CODE_UNEXPECTED_RESP]
                       ++ tlv TAG_ERROR_DESC (js "Unexpected packet type"))
                    MAX_PACKET_SIZE = Some reply
    /\ transmitted d' = transmitted d ++ [reply]
    /\ packet_id_counter d' = (packet_id_counter d + 1) mod 2^16
    /\ packets_received d' = (packets_received d + 1) mod 2^32
    /\ crc_errors d' = crc_errors d.
Proof.
  intros d.
  apply (unexpected_type_is_refused d PKT_TYPE_SLAVE_RESPONSE 7 0 []).
  - reflexivity.
  - reflexivity.
  - apply is_bytes_check. reflexivity.
  - vm_compute. discriminate.
  - vm_compute. split; [discriminate|reflexivity].
  - discriminate.
  - vm_compute. split; [discriminate|reflexivity].
  - vm_compute. split; [discriminate|reflexivity].
  - reflexivity.
Defined.

(** A host request of at least 4 payload bytes whose instruction field is
    missing, or names no entry of the command table, leaves the device as
    it is apart from the counters, and is answered with error code 0xFF,
    "Command processing failed", not with a response carrying a status.
    With fewer than 4 payload bytes the scan for the instruction field
    starts with its bound [buffer_size - 4] wrapped around and leaves the
    buffer: the behaviour is undefined, and no error frame is sent by the
    code as written. *)
Theorem unknown_command_is_refused (d : Device) (pid rid : Z) (data : list Z) :
  hcrc (hw d) = None -> tx_complete d = true ->
  is_bytes data -> len data <= 242 ->
  0 <= pid < 2^16 -> 0 <= rid < 2^16 ->
  build_packet (hw d) PKT_TYPE_HOST_REQUEST pid rid data MAX_PACKET_SIZE
  = Some (rx_buffer d) ->
  (4 <= len data ->
   (forall bytes, read_tlv_string data TAG_INSTRUCTION 5 = Found bytes ->
                  find_handler command_table (c_string bytes) = None) ->
   exists d' reply,
     process_received_data d = Done (-1, d')
     /\ build_packet (hw d) PKT_TYPE_SLAVE_ERROR (packet_id_counter d) pid
                     (tlv TAG_ERROR_CODE [ERROR_CODE_UNKNOWN]
                        ++ tlv TAG_ERROR_DESC (js "Command processing failed"))
                     MAX_PACKET_SIZE = Some reply
     /\ transmitted d' = transmitted d ++ [reply]
     /\ packet_id_counter d' = (packet_id_counter d + 1) mod 2^16
     /\ packets_received d' = (packets_received d + 1) mod 2^32
     /\ crc_errors d' = crc_errors d)
  /\ (len data < 4 -> process_received_data d = Undefined).
Proof.
  intros Hcrc Htx Hdata Hlen Hpid Hrid Hbuild.
  rewrite (process_received_data_of_frame d PKT_TYPE_HOST_REQUEST pid rid data)
    by (done || (vm_compute; split; [discriminate|reflexivity])).
  change (negb (PKT_TYPE_HOST_REQUEST =? PKT_TYPE_HOST_REQUEST)) with false. cbv iota.
  split.
  - intros Hsize Hcmd.
    assert (process_command_packet (packet_counted d) data pid
            = Done (None, packet_counted d)) as ->.
    { unfold process_command_packet, process_command_packet_with.
      destruct (read_tlv_string data TAG_INSTRUCTION 5) as [bytes| |] eqn:Hin.
      - by rewrite (Hcmd bytes).
      - done.
      - exfalso. by apply (read_tlv_not_overrun (fun length => length <? 5)
                                                 data TAG_INSTRUCTION Hsize). }
    set (error_data := tlv TAG_ERROR_CODE [ERROR_CODE_UNKNOWN]
                         ++ tlv TAG_ERROR_DESC (js "Command processing failed")).
    pose proof (build_packet_ok (hw d) PKT_TYPE_SLAVE_ERROR (packet_id_counter d) pid
                  error_data ltac:(vm_compute; discriminate)) as Hreply.
    eexists _, _. split; [reflexivity|]. split; [exact Hreply|].
    apply (send_error_response_sent (packet_counted d) pid ERROR_CODE_UNKNOWN
             (js "Command processing failed") error_data);
      [exact Htx|reflexivity|exact Hreply].
  - intros Hshort.
    unfold process_command_packet, process_command_packet_with, read_tlv_string, read_tlv.
    destruct (len data <? 4) eqn:E; [done|lia].
Qed.

Lemma unknown_command_is_refused_witness :
  let d := with_rx_buffer scenario_device
             [0xAA; 0x55; 0x02; 0x00; 0x07; 0x00; 0x00; 0x00; 0x08; 0x00;
              0x49; 0x4E; 0x04; 0x00; 0x62; 0x6F; 0x6F; 0x74;
              0x60; 0x02; 0x00; 0x00; 0x55; 0xAA] in
  let d2 := with_rx_buffer scenario_device
              [0xAA; 0x55; 0x02; 0x00; 0x07; 0x00; 0x00; 0x00; 0x00; 0x00;
               0x09; 0x00; 0x00; 0x00; 0x55; 0xAA] in
  (exists d' reply,
     process_received_data d = Done (-1, d')
     /\ build_packet (hw d) PKT_TYPE_SLAVE_ERROR (packet_id_counter d) 7
                     (tlv TAG_ERROR_CODE [ERROR_CODE_UNKNOWN]
                        ++ tlv TAG_ERROR_DESC (js "Command processing failed"))
                     MAX_PACKET_SIZE = Some reply
     /\ transmitted d' = transmitted d ++ [reply]
     /\ packet_id_counter d' = (packet_id_counter d + 1) mod 2^16
     /\ packets_received d' = (packets_received d + 1) mod 2^32
     /\ crc_errors d' = crc_errors d)
  /\ process_received_data d2 = Undefined.
Proof.
  intros d d2. split.
  - apply (proj1 (unknown_command_is_refused d 7 0 (tlv TAG_INSTRUCTION (js "boot"))
                    eq_refl eq_refl
                    ltac:(apply is_bytes_check; reflexivity)
                    ltac:(vm_compute; discriminate)
                    ltac:(vm_compute; split; [discriminate|reflexivity])
                    ltac:(vm_compute; split; [discriminate|reflexivity])
                    eq_refl)).
    + vm_compute. discriminate.
    + intros bytes [= <-]. reflexivity.
  - apply (proj2 (unknown_command_is_refused d2 7 0 []
                    eq_refl eq_refl
                    ltac:(apply is_bytes_check; reflexivity)
                    ltac:(vm_compute; discriminate)
                    ltac:(vm_compute; split; [discriminate|reflexivity])
                    ltac:(vm_compute; split; [discriminate|reflexivity])
                    eq_refl)).
    reflexivity.
Defined.

(** ** What no request changes *)

Lemma send_response_packet_alarms d packet :
  g_alarm_configs (send_response_packet d packet) = g_alarm_configs d.
Proof. unfold send_response_packet. by destruct (_ || _). Qed.

Lemma send_error_response_alarms d rid code desc :
  g_alarm_configs (send_error_response d rid code desc).2 = g_alarm_configs d.
Proof.
  unfold send_error_response. destruct (error_packet d rid code desc) as [[p|] c]; cbn [snd].
  - by rewrite send_response_packet_alarms.
  - done.
Qed.

Lemma alarm_check_temperature_alarms d temperature :
  g_alarm_configs (alarm_check_temperature d temperature) = g_alarm_configs d.
Proof.
  unfold alarm_check_temperature.
  generalize (take (Z.to_nat MAX_ALARMS) (g_alarm_configs d)). intros configs.
  revert d. induction configs as [|config configs IH]; intros d; [done|].
  cbn [fold_left]. rewrite IH.
  destruct (_ || _); [|done].
  destruct (alarm_id config =? 0); [done|]. by destruct (alarm_id config =? 1).
Qed.

Lemma command_table_alarms instruction handler d request_data result d1 :
  find_handler command_table instruction = Some handler ->
  handler d request_data = Done (result, d1) ->
  g_alarm_configs d1 = g_alarm_configs d.
Proof.
  intros Hfind Hrun. apply find_handler_command_table in Hfind.
  cbn [command_table map snd In] in Hfind.
  destruct Hfind as [<-|[<-|[<-|[<-|[<-|[<-|[<-|[<-|[<-|[<-|[<-|[<-|[<-|[]]]]]]]]]]]]]].
  - keeps_alarms Hrun.
  - unfold handle_get_temp in Hrun.
    destruct (negb _); [keeps_alarms Hrun|].
    destruct (f32_le _ _); [keeps_alarms Hrun|].
    assert (g_alarm_configs
              (temp_log_add_entry
                 (alarm_check_temperature d (current_temperature (hw d)))
                 (current_temperature (hw d))) = g_alarm_configs d) as Hkeep
        by (cbn; apply alarm_check_temperature_alarms).
    destruct (write_tlv_float32 _ _ _) as [t|];
      unfold handler_ok, handler_fail in Hrun; injection Hrun as <- <-; exact Hkeep.
  - unfold handle_get_rtc_date in Hrun.
    destruct (negb _); [keeps_alarms Hrun|].
    destruct (rtc_get_date d) as [date|]; [|keeps_alarms Hrun].
    destruct (write_uint8_fields _ _ _) as [out|]; keeps_alarms Hrun.
  - unfold handle_get_rtc_time in Hrun.
    destruct (negb _); [keeps_alarms Hrun|].
    destruct (rtc_get_time d) as [time|]; [|keeps_alarms Hrun].
    destruct (write_uint8_fields _ _ _) as [out|]; keeps_alarms Hrun.
  - unfold handle_set_rtc_date in Hrun.
    destruct (negb _); [keeps_alarms Hrun|].
    destruct (read_uint8_fields _ _) as [[|y [|m [|dd [|w [|]]]]]| |];
      try keeps_alarms Hrun.
    unfold rtc_set_date in Hrun.
    destruct (negb _); [keeps_alarms Hrun|].
    destruct (_ || _); [keeps_alarms Hrun|].
    destruct (hal_set_ok _); keeps_alarms Hrun.
  - unfold handle_set_rtc_time in Hrun.
    destruct (negb _); [keeps_alarms Hrun|].
    destruct (read_uint8_fields _ _) as [[|h [|m [|s [|]]]]| |];
      try keeps_alarms Hrun.
    unfold rtc_set_time in Hrun.
    destruct (negb _); [keeps_alarms Hrun|].
    destruct (_ || _); [keeps_alarms Hrun|].
    destruct (hal_set_ok _); keeps_alarms Hrun.
  - unfold handle_get_alarms in Hrun.
    destruct (alarm_items d [0; 1] [] ≫= _); keeps_alarms Hrun.
  - unfold handle_set_alarms in Hrun.
    destruct (read_tlv_raw _ _ _); keeps_alarms Hrun.
  - unfold handle_get_log in Hrun.
    destruct (read_or 0 _); [|done]. destruct (read_or 0 _); [|done].
    destruct (read_or 100 _); [|done].
    destruct (write_tlv_raw _ _ _); keeps_alarms Hrun.
  - keeps_alarms Hrun.
  - keeps_alarms Hrun.
  - keeps_alarms Hrun.
  - keeps_alarms Hrun.
Qed.

Lemma process_command_packet_alarms d packet_data response_id r d1 :
  process_command_packet d packet_data response_id = Done (r, d1) ->
  g_alarm_configs d1 = g_alarm_configs d.
Proof.
  unfold process_command_packet, process_command_packet_with.
  destruct (read_tlv_string _ _ _) as [bytes| |]; [|by intros [= <- <-]|done].
  destruct (find_handler _ _) as [handler|] eqn:Hfind; [|by intros [= <- <-]].
  destruct (read_tlv_raw _ _ _) as [request_data| |] eqn:Hda; [| |done].
  - destruct (handler d request_data) as [[result d2]|] eqn:Hrun; [|done].
    intros [= <- <-]. eapply command_table_alarms; eassumption.
  - destruct (handler d []) as [[result d2]|] eqn:Hrun; [|done].
    intros [= <- <-]. eapply command_table_alarms; eassumption.
Qed.

(** Whatever bytes have been received, [process_received_data] leaves the
    alarm thresholds as they were: no command of the table, "salm" included,
    writes them. *)
Theorem requests_keep_alarm_configs (d : Device) (r : Z) (d' : Device) :
  process_received_data d = Done (r, d') ->
  g_alarm_configs d' = g_alarm_configs d.
Proof.
  unfold process_received_data.
  destruct (len (rx_buffer d) <? 4); [by intros [= <- <-]|].
  destruct (find_packet_boundaries (rx_buffer d)); [|by intros [= <- <-]].
  destruct (parse_packet _ _ _ _) as [[packet_data|] header].
  - destruct (negb _).
    + intros [= <- <-]. by rewrite send_error_response_alarms.
    + destruct (process_command_packet _ _ _) as [[[response|] d1]|] eqn:Hrun; [| |done].
      * intros [= <- <-]. rewrite send_response_packet_alarms.
        by apply process_command_packet_alarms in Hrun.
      * intros [= <- <-]. rewrite send_error_response_alarms.
        by apply process_command_packet_alarms in Hrun.
  - intros [= <- <-]. by rewrite send_error_response_alarms.
Qed.

Lemma requests_keep_alarm_configs_witness :
  let d := with_rx_buffer scenario_device
             (default [] (build_packet scenario_hardware PKT_TYPE_HOST_REQUEST 9 0
                            (tlv TAG_INSTRUCTION (js "salm")
                               ++ tlv TAG_DATA (tlv TAG_ALARM_LIST [0x01; 0x02]))
                            MAX_PACKET_SIZE)) in
  exists d', process_received_data d = Done (0, d')
             /\ g_alarm_configs d' = g_alarm_configs d.
Proof.
  intros d.
  exists (match process_received_data d with Done (_, d') => d' | Undefined => d end).
  split; [reflexivity|].
  apply (requests_keep_alarm_configs d 0). reflexivity.
Defined.

(** ** Host requests read by the device *)

Lemma encode_value_int n :
  exists vb,
    encode_value (VNum (NInt n)) = Ok vb
    /\ 1 <= len vb <= 8
    /\ (n <= 0xFFFFFFFF -> len vb <> 8)
    /\ (n <= 0xFF -> len vb = 1).
Proof.
  cbn [encode_value].
  destruct (n <=? 255) eqn:E1;
    [eexists; split; [done|]; cbv [len length app le16 le32 le64]; lia|].
  destruct (n <=? 65535) eqn:E2;
    [eexists; split; [done|]; cbv [len length app le16 le32 le64]; lia|].
  destruct (n <=? 4294967295) eqn:E3;
    [eexists; split; [done|]; cbv [len length app le16 le32 le64]; lia|].
  eexists; split; [done|]; cbv [len length app le16 le32 le64]; lia.
Qed.

Lemma encodeTLV_int (tag : string) n :
  length (js tag) = 2%nat -> is_bytes (js tag) ->
  exists vb,
    encodeTLV (js tag) (VNum (NInt n)) = Ok (tlv tag vb)
    /\ 1 <= len vb <= 8
    /\ (n <= 0xFFFFFFFF -> len vb <> 8)
    /\ (n <= 0xFF -> len vb = 1).
Proof.
  intros Hlen Hbytes. destruct (encode_value_int n) as (vb & Hvb & Hrange).
  exists vb. split; [|exact Hrange].
  rewrite encodeTLV_unfold, Hvb. rewrite Hlen. cbn [Nat.eqb negb mbind].
  unfold tlv, tag2.
  destruct (js tag) as [|a [|b [|c r]]]; try done.
  apply Forall_cons in Hbytes as [Ha Hbytes]. apply Forall_cons in Hbytes as [Hb _].
  unfold is_byte in *. cbn. by rewrite !Z.mod_small by lia.
Qed.

Lemma find_visited_fields (p : string * list Z -> bool) fields :
  List.find p fields = None -> List.find p (visited_fields fields) = None.
Proof.
  induction fields as [|f fields IH]; [done|].
  cbn [List.find visited_fields]. destruct (p f) eqn:Hp; [done|]. intros Hrest.
  destruct fields as [|g fields].
  - destruct (len f.2 =? 0); [done|]. cbn [List.find]. by rewrite Hp.
  - cbn [List.find]. rewrite Hp. by apply IH.
Qed.

(** The time window the host asks for in [createGetLogRequest] is not what
    the device reads: a time stamp up to 0xFFFFFFFF is encoded in one, two
    or four bytes, [read_tlv_uint64] accepts only eight, and
    [handle_get_log] is left with its defaults; likewise a maximum count up
    to 0xFF is encoded in one byte and not read by [read_tlv_uint16]. *)
Theorem host_log_window_is_not_read (packetCounter startTimestamp endTimestamp : Z)
    (maxCount : option Z) :
  startTimestamp <= 0xFFFFFFFF -> endTimestamp <= 0xFFFFFFFF ->
  exists frame request_data,
    (createGetLogRequest packetCounter startTimestamp endTimestamp maxCount).1 = Ok frame
    /\ slice frame 10 (len frame - 6)
       = tlv TAG_INSTRUCTION (js "glog") ++ tlv TAG_DATA request_data
    /\ read_tlv_uint64 request_data TAG_TIME_START = Missing
    /\ read_tlv_uint64 request_data TAG_TIME_END = Missing
    /\ (forall n, maxCount = Some n -> n <= 0xFF ->
          read_tlv_uint16 request_data TAG_MAX_COUNT = Missing).
Proof.
  intros Hstart Hend.
  destruct (encodeTLV_int TAG_TIME_START startTimestamp eq_refl
              ltac:(apply is_bytes_check; reflexivity)) as (vb1 & H1 & Hr1 & Hn1 & _).
  destruct (encodeTLV_int TAG_TIME_END endTimestamp eq_refl
              ltac:(apply is_bytes_check; reflexivity)) as (vb2 & H2 & Hr2 & Hn2 & _).
  specialize (Hn1 Hstart). specialize (Hn2 Hend).
  set (params := [(js "T1", VNum (NInt startTimestamp));
                  (js "T2", VNum (NInt endTimestamp))]
                   ++ match maxCount with
                      | Some n => [(js "MX", VNum (NInt n))]
                      | None => []
                      end).
  assert (exists fields,
    seq_bind (fun item : list Z * value => encodeTLV item.1 item.2) params
    = Ok (tlv_fields ([(TAG_TIME_START, vb1); (TAG_TIME_END, vb2)] ++ fields))
    /\ match maxCount with
       | Some n =>
         exists vb3, fields = [(TAG_MAX_COUNT, vb3)] /\ 1 <= len vb3 <= 8
                     /\ (n <= 0xFF -> len vb3 = 1)
       | None => fields = []
       end) as (fields & Hparams & Hfields).
  { unfold params. destruct maxCount as [n|].
    - destruct (encodeTLV_int TAG_MAX_COUNT n eq_refl
                  ltac:(apply is_bytes_check; reflexivity)) as (vb3 & H3 & Hr3 & _ & Hn3).
      exists [(TAG_MAX_COUNT, vb3)]. split; [|by exists vb3].
      cbn [app seq_bind fst snd].
      change (js "T1") with (js TAG_TIME_START). change (js "T2") with (js TAG_TIME_END).
      change (js "MX") with (js TAG_MAX_COUNT).
      rewrite H1, H2, H3. cbn [mbind]. reflexivity.
    - exists []. split; [|done]. cbn [app seq_bind fst snd].
      change (js "T1") with (js TAG_TIME_START). change (js "T2") with (js TAG_TIME_END).
      rewrite H1, H2. cbn [mbind]. reflexivity. }
  set (all := [(TAG_TIME_START, vb1); (TAG_TIME_END, vb2)] ++ fields) in *.
  set (request_data := tlv_fields all) in *.
  assert (Forall (fun f : string * list Z => len f.2 < 2^16) all) as Hsmall.
  { unfold all. repeat (apply Forall_cons_2; [cbn [snd]; zlia|]).
    destruct maxCount as [n|].
    - destruct Hfields as (vb3 & -> & Hr3 & _). apply Forall_cons_2; [cbn [snd]; zlia|done].
    - by rewrite Hfields. }
  unfold createGetLogRequest, createRequest. fold params.
  unfold encodePacket. cbn [seq_bind fst snd].
  assert (encodeTLV (js "IN") (VStr (js "glog")) = Ok (tlv TAG_INSTRUCTION (js "glog")))
    as -> by reflexivity.
  assert (encodeTLV (js "DA") (VArr params) = Ok (tlv TAG_DATA request_data)) as ->.
  { rewrite encodeTLV_unfold. cbn [encode_value]. rewrite Hparams. reflexivity. }
  cbn [mbind fst]. eexists _, request_data. split; [reflexivity|].
  split.
  { set (payload := tlv TAG_INSTRUCTION (js "glog") ++ tlv TAG_DATA request_data ++ []).
    replace (tlv TAG_INSTRUCTION (js "glog") ++ tlv TAG_DATA request_data) with payload
      by (unfold payload; by rewrite app_nil_r).
    set (crc := le32 _).
    replace (START_BYTES ++ [VERSION; HOST_REQUEST mod 256]
               ++ le16 (getNextPacketNumber packetCounter) ++ le16 0
               ++ le16 (len payload) ++ payload ++ crc ++ END_BYTES)
      with ((START_BYTES ++ [VERSION; HOST_REQUEST mod 256]
               ++ le16 (getNextPacketNumber packetCounter) ++ le16 0
               ++ le16 (len payload)) ++ payload ++ (crc ++ END_BYTES))
      by (by rewrite <- !app_assoc).
    apply slice_middle; [reflexivity|].
    rewrite !len_app. unfold crc. rewrite len_le32. change (len END_BYTES) with 2.
    change (len (START_BYTES ++ [VERSION; HOST_REQUEST mod 256]
               ++ le16 (getNextPacketNumber packetCounter) ++ le16 0
               ++ le16 (len payload))) with 10. lia. }
  assert (forall tag accept,
    List.find (fun f : string * list Z =>
                 bool_decide (tag2 f.1 = tag2 tag) && accept (len f.2)) all = None ->
    read_tlv accept request_data tag = Missing) as Hread.
  { intros tag accept Hfind. unfold request_data.
    rewrite read_tlv_tlv_fields by (done || by unfold all).
    by rewrite find_visited_fields. }
  assert (forall n vb3, maxCount = Some n -> fields = [(TAG_MAX_COUNT, vb3)] ->
                        all = [(TAG_TIME_START, vb1); (TAG_TIME_END, vb2);
                               (TAG_MAX_COUNT, vb3)]) as Hall3
      by (by intros n vb3 _ ->).
  repeat split.
  - unfold read_tlv_uint64. rewrite Hread; [done|].
    unfold all. cbn [app List.find fst snd].
    replace (len vb1 =? 8) with false by lia. rewrite andb_false_r.
    destruct maxCount as [n|].
    + destruct Hfields as (vb3 & -> & _). reflexivity.
    + rewrite Hfields. reflexivity.
  - unfold read_tlv_uint64. rewrite Hread; [done|].
    unfold all. cbn [app List.find fst snd].
    replace (len vb2 =? 8) with false by lia. rewrite andb_false_r.
    destruct maxCount as [n|].
    + destruct Hfields as (vb3 & -> & _). reflexivity.
    + rewrite Hfields. reflexivity.
  - intros n -> Hn. destruct Hfields as (vb3 & -> & _ & Hlen3).
    unfold read_tlv_uint16. rewrite Hread; [done|].
    unfold all. cbn [app List.find fst snd].
    replace (len vb3 =? 2) with false by (specialize (Hlen3 Hn); lia).
    rewrite andb_false_r. reflexivity.
Qed.

Lemma host_log_window_is_not_read_witness :
  exists frame request_data,
    (createGetLogRequest 0 1000 2000 (Some 10)).1 = Ok frame
    /\ slice frame 10 (len frame - 6)
       = tlv TAG_INSTRUCTION (js "glog") ++ tlv TAG_DATA request_data
    /\ read_tlv_uint64 request_data TAG_TIME_START = Missing
    /\ read_tlv_uint64 request_data TAG_TIME_END = Missing
    /\ (forall n, Some 10 = Some n -> n <= 0xFF ->
          read_tlv_uint16 request_data TAG_MAX_COUNT = Missing).
Proof.
  apply (host_log_window_is_not_read 0 1000 2000 (Some 10)); vm_compute; discriminate.
Defined.

Lemma encodeTLV_byte (tag : string) n :
  length (js tag) = 2%nat -> is_bytes (js tag) -> 0 <= n <= 0xFF ->
  encodeTLV (js tag) (VNum (NInt n)) = Ok (tlv tag [n]).
Proof.
  intros Hlen Hbytes Hn.
  rewrite encodeTLV_unfold. cbn [encode_value].
  destruct (n <=? 255) eqn:E; [|exfalso; lia].
  rewrite Hlen. cbn [Nat.eqb negb mbind]. unfold tlv, tag2.
  destruct (js tag) as [|a [|b [|c r]]]; try done.
  apply Forall_cons in Hbytes as [Ha Hbytes]. apply Forall_cons in Hbytes as [Hb _].
  unfold is_byte in *. cbn.
  by rewrite (Z.mod_small a), (Z.mod_small b), (Z.mod_small n) by lia.
Qed.

Lemma request_payload packetCounter command params request_data :
  length (js command) = 4%nat ->
  encodeTLV (js "IN") (VStr (js command)) = Ok (tlv TAG_INSTRUCTION (js command)) ->
  seq_bind (fun item : list Z * value => encodeTLV item.1 item.2) params
  = Ok request_data ->
  exists frame,
    (createRequest packetCounter command params).1 = Ok frame
    /\ slice frame 10 (len frame - 6)
       = tlv TAG_INSTRUCTION (js command) ++ tlv TAG_DATA request_data.
Proof.
  intros Hcmd Hin Hparams. unfold createRequest, encodePacket. cbn [seq_bind fst snd].
  rewrite Hin.
  assert (encodeTLV (js "DA") (VArr params) = Ok (tlv TAG_DATA request_data)) as ->.
  { rewrite encodeTLV_unfold. cbn [encode_value]. rewrite Hparams. reflexivity. }
  cbn [mbind fst]. eexists. split; [reflexivity|].
  set (payload := tlv TAG_INSTRUCTION (js command) ++ tlv TAG_DATA request_data ++ []).
  replace (tlv TAG_INSTRUCTION (js command) ++ tlv TAG_DATA request_data) with payload
    by (unfold payload; by rewrite app_nil_r).
  set (crc := le32 _).
  replace (START_BYTES ++ [VERSION; HOST_REQUEST mod 256]
             ++ le16 (getNextPacketNumber packetCounter) ++ le16 0
             ++ le16 (len payload) ++ payload ++ crc ++ END_BYTES)
    with ((START_BYTES ++ [VERSION; HOST_REQUEST mod 256]
             ++ le16 (getNextPacketNumber packetCounter) ++ le16 0
             ++ le16 (len payload)) ++ payload ++ (crc ++ END_BYTES))
    by (by rewrite <- !app_assoc).
  apply slice_middle; [reflexivity|].
  rewrite !len_app. unfold crc. rewrite len_le32. change (len END_BYTES) with 2.
  change (len (START_BYTES ++ [VERSION; HOST_REQUEST mod 256]
             ++ le16 (getNextPacketNumber packetCounter) ++ le16 0
             ++ le16 (len payload))) with 10. lia.
Qed.

Lemma read_tlv_uint8_field fields tag v :
  Forall (fun f : string * list Z => len f.2 < 2^16) fields -> fields <> [] ->
  List.find (fun f : string * list Z =>
               bool_decide (tag2 f.1 = tag2 tag) && (len f.2 =? 1))
            (visited_fields fields) = Some (tag, [v]) ->
  read_tlv_uint8 (tlv_fields fields) tag = Found v.
Proof.
  intros Hsmall Hne Hfind. unfold read_tlv_uint8.
  rewrite read_tlv_tlv_fields by done. rewrite Hfind. cbn. f_equal. lia.
Qed.

(** The date and the time the host encodes in [createSetRTCDateRequest] and
    [createSetRTCTimeRequest] are the ones the device handlers read, for
    fields between 0 and 255: the parameters are found in the DA field of
    the request, and each value under its own tag. *)
Theorem host_date_and_time_are_read (packetCounter : Z) :
  (forall date : RTCDate,
      0 <= year date <= 0xFF -> 0 <= month date <= 0xFF ->
      0 <= day date <= 0xFF -> 0 <= weekday date <= 0xFF ->
      exists frame request_data,
        (createSetRTCDateRequest packetCounter date).1 = Ok frame
        /\ slice frame 10 (len frame - 6)
           = tlv TAG_INSTRUCTION (js "sdat") ++ tlv TAG_DATA request_data
        /\ read_tlv_raw (slice frame 10 (len frame - 6)) TAG_DATA MAX_DATA_SIZE
           = Found request_data
        /\ read_uint8_fields request_data [TAG_YEAR; TAG_MONTH; TAG_DAY; TAG_WEEKDAY]
           = Found [year date; month date; day date; weekday date])
  /\ (forall time : RTCTime,
        0 <= hour time <= 0xFF -> 0 <= minute time <= 0xFF ->
        0 <= second time <= 0xFF ->
        exists frame request_data,
          (createSetRTCTimeRequest packetCounter time).1 = Ok frame
          /\ slice frame 10 (len frame - 6)
             = tlv TAG_INSTRUCTION (js "stim") ++ tlv TAG_DATA request_data
          /\ read_tlv_raw (slice frame 10 (len frame - 6)) TAG_DATA MAX_DATA_SIZE
             = Found request_data
          /\ read_uint8_fields request_data [TAG_HOUR; TAG_MINUTE; TAG_SECOND]
             = Found [hour time; minute time; second time]).
Proof.
  split.
  - intros [y m dd w]. cbn [year month day weekday]. intros Hy Hm Hd Hw.
    set (fields := [(TAG_YEAR, [y]); (TAG_MONTH, [m]); (TAG_DAY, [dd]); (TAG_WEEKDAY, [w])]).
    destruct (request_payload packetCounter "sdat"
                [(js "YY", VNum (NInt y)); (js "MM", VNum (NInt m));
                 (js "DD", VNum (NInt dd)); (js "WK", VNum (NInt w))]
                (tlv_fields fields) eq_refl eq_refl) as (frame & Hframe & Hpayload).
    { cbn [seq_bind fst snd].
      change (js "YY") with (js TAG_YEAR). change (js "MM") with (js TAG_MONTH).
      change (js "DD") with (js TAG_DAY). change (js "WK") with (js TAG_WEEKDAY).
      rewrite (encodeTLV_byte TAG_YEAR y), (encodeTLV_byte TAG_MONTH m),
        (encodeTLV_byte TAG_DAY dd), (encodeTLV_byte TAG_WEEKDAY w);
        try done; try (apply is_bytes_check; reflexivity). }
    exists frame, (tlv_fields fields). split; [exact Hframe|]. split; [exact Hpayload|].
    assert (Forall (fun f : string * list Z => len f.2 < 2^16) fields) as Hsmall
        by (repeat (apply Forall_cons_2; [by vm_compute|]); done).
    split.
    + rewrite Hpayload. unfold read_tlv_raw.
      pose proof (read_tlv_tlv_fields (fun l => l <=? MAX_DATA_SIZE)
                    [(TAG_INSTRUCTION, js "sdat"); (TAG_DATA, tlv_fields fields)]
                    TAG_DATA) as Hread.
      cbn [tlv_fields map concat fst snd] in Hread. rewrite app_nil_r in Hread.
      rewrite Hread; [reflexivity| |done].
      repeat (apply Forall_cons_2; [by vm_compute|]); done.
    + cbn [read_uint8_fields].
      rewrite (read_tlv_uint8_field fields TAG_YEAR y Hsmall), 
        (read_tlv_uint8_field fields TAG_MONTH m Hsmall),
        (read_tlv_uint8_field fields TAG_DAY dd Hsmall),
        (read_tlv_uint8_field fields TAG_WEEKDAY w Hsmall); done.
  - intros [h m s]. cbn [hour minute second]. intros Hh Hm Hs.
    set (fields := [(TAG_HOUR, [h]); (TAG_MINUTE, [m]); (TAG_SECOND, [s])]).
    destruct (request_payload packetCounter "stim"
                [(js "HH", VNum (NInt h)); (js "MM", VNum (NInt m));
                 (js "SS", VNum (NInt s))]
                (tlv_fields fields) eq_refl eq_refl) as (frame & Hframe & Hpayload).
    { cbn [seq_bind fst snd].
      change (js "HH") with (js TAG_HOUR). change (js "MM") with (js TAG_MINUTE).
      change (js "SS") with (js TAG_SECOND).
      rewrite (encodeTLV_byte TAG_HOUR h), (encodeTLV_byte TAG_MINUTE m),
        (encodeTLV_byte TAG_SECOND s);
        try done; try (apply is_bytes_check; reflexivity). }
    exists frame, (tlv_fields fields). split; [exact Hframe|]. split; [exact Hpayload|].
    assert (Forall (fun f : string * list Z => len f.2 < 2^16) fields) as Hsmall
        by (repeat (apply Forall_cons_2; [by vm_compute|]); done).
    split.
    + rewrite Hpayload. unfold read_tlv_raw.
      pose proof (read_tlv_tlv_fields (fun l => l <=? MAX_DATA_SIZE)
                    [(TAG_INSTRUCTION, js "stim"); (TAG_DATA, tlv_fields fields)]
                    TAG_DATA) as Hread.
      cbn [tlv_fields map concat fst snd] in Hread. rewrite app_nil_r in Hread.
      rewrite Hread; [reflexivity| |done].
      repeat (apply Forall_cons_2; [by vm_compute|]); done.
    + cbn [read_uint8_fields].
      rewrite (read_tlv_uint8_field fields TAG_HOUR h Hsmall),
        (read_tlv_uint8_field fields TAG_MINUTE m Hsmall),
        (read_tlv_uint8_field fields TAG_SECOND s Hsmall); done.
Qed.

Lemma host_date_and_time_are_read_witness :
  exists frame request_data,
    (createSetRTCDateRequest 0 {| year := 24; month := 6; day := 15; weekday := 6 |}).1
    = Ok frame
    /\ slice frame 10 (len frame - 6)
       = tlv TAG_INSTRUCTION (js "sdat") ++ tlv TAG_DATA request_data
    /\ read_tlv_raw (slice frame 10 (len frame - 6)) TAG_DATA MAX_DATA_SIZE
       = Found request_data
    /\ read_uint8_fields request_data [TAG_YEAR; TAG_MONTH; TAG_DAY; TAG_WEEKDAY]
       = Found [24; 6; 15; 6].
Proof.
  apply (proj1 (host_date_and_time_are_read 0)
               {| year := 24; month := 6; day := 15; weekday := 6 |});
    vm_compute; split; discriminate.
Defined.
